(** * parse-i2p-eepsite-logs: the line parser and the statistics aggregator

    A shallow embedding of [parse_log_line] and [generate_statistics] of
    [parse-i2p-eepsite-logs.py], with the parts of the Python library they
    call ([str.split], [str.endswith], [in], [Counter], [most_common],
    [sorted], [datetime]) modelled next to them. *)

From Stdlib Require Import List Arith ZArith QArith Lia Bool Ascii String.
From Stdlib Require Import Permutation Sorted.
Import ListNotations.

Close Scope Q_scope.
Open Scope list_scope.
Open Scope string_scope.

(** ** Exceptions

    The exceptions the two functions can meet.  A computation that may raise
    returns a [result]. *)

Inductive exn : Type :=
| IndexError
| ValueError
| ZeroDivisionError
| OverflowError.

Inductive result (A : Type) : Type :=
| Ok (a : A)
| Raise (e : exn).

Arguments Ok {A} a.
Arguments Raise {A} e.

Definition bind {A B : Type} (m : result A) (k : A -> result B) : result B :=
  match m with
  | Ok a => k a
  | Raise e => Raise e
  end.

Declare Scope py_scope.
Delimit Scope py_scope with py.
Notation "x <- m ;; k" := (bind m (fun x => k))
  (at level 61, m at next level, right associativity) : py_scope.
Open Scope py_scope.

(** [l[i]] for a non-negative index. *)
Definition index_list {A : Type} (l : list A) (i : nat) : result A :=
  match nth_error l i with
  | Some a => Ok a
  | None => Raise IndexError
  end.

(** ** Strings *)

Module Str.

(** The rest of [s] after its first [n] characters. *)
Fixpoint drop (n : nat) (s : string) : string :=
  match n, s with
  | O, _ => s
  | S _, EmptyString => EmptyString
  | S k, String _ s' => drop k s'
  end.

(** [s.partition(sep)] without the separator: the text before and after
    the first occurrence of [sep] in [s], if there is one. *)
Fixpoint cut (sep s : string) : option (string * string) :=
  if prefix sep s then Some (EmptyString, drop (String.length sep) s)
  else match s with
       | EmptyString => None
       | String c s' =>
           match cut sep s' with
           | Some (a, b) => Some (String c a, b)
           | None => None
           end
       end.

(** [s.split(sep)] for a non-empty [sep]: cut at the first occurrence and
    go on with the rest.  Each cut removes at least one character, so
    [length s] rounds are enough. *)
Fixpoint split_fuel (fuel : nat) (sep s : string) : list string :=
  match cut sep s with
  | None => [s]
  | Some (a, b) =>
      match fuel with
      | O => [a]
      | S f => a :: split_fuel f sep b
      end
  end.

Definition split (sep s : string) : list string :=
  split_fuel (String.length s) sep s.

(** [sub in s]. *)
Fixpoint contains (sub s : string) : bool :=
  if prefix sub s then true
  else match s with
       | EmptyString => false
       | String _ s' => contains sub s'
       end.

(** [s.endswith(suffix)]. *)
Fixpoint endswith (s suffix : string) : bool :=
  if String.eqb s suffix then true
  else match s with
       | EmptyString => false
       | String _ s' => endswith s' suffix
       end.

(** [s.endswith((x1, ..., xn))]: some member of the tuple is a suffix. *)
Definition endswith_any (s : string) (suffixes : list string) : bool :=
  existsb (endswith s) suffixes.

(** The character [c] occurs in [s]. *)
Fixpoint has_char (c : ascii) (s : string) : bool :=
  match s with
  | EmptyString => false
  | String c' s' => Ascii.eqb c c' || has_char c s'
  end.

End Str.

(** ** Dates and times

    A naive [datetime] is a point of the proleptic Gregorian calendar with
    microsecond resolution.  It is held as the number of microseconds since
    0001-01-01 00:00:00 ([datetime.min]); the calendar fields are computed
    from it the way the library computes them from an ordinal. *)

Module Datetime.

Local Open Scope Z_scope.

Definition datetime : Type := Z.
Definition timedelta : Type := Z.

Definition us_per_second : Z := 1000000.
Definition us_per_hour : Z := 3600 * us_per_second.
Definition us_per_day : Z := 86400 * us_per_second.

Definition timedelta_days (days : Z) : timedelta := days * us_per_day.
Definition timedelta_seconds (seconds : Z) : timedelta := seconds * us_per_second.

Definition is_leap (year : Z) : bool :=
  (year mod 4 =? 0) && (negb (year mod 100 =? 0) || (year mod 400 =? 0)).

Definition days_before_year (year : Z) : Z :=
  let y := year - 1 in
  y * 365 + y / 4 - y / 100 + y / 400.

Definition DAYS_IN_MONTH : list Z :=
  [-1; 31; 28; 31; 30; 31; 30; 31; 31; 30; 31; 30; 31].

Definition MONTH_ABBR : list string :=
  [""; "Jan"; "Feb"; "Mar"; "Apr"; "May"; "Jun";
   "Jul"; "Aug"; "Sep"; "Oct"; "Nov"; "Dec"].

Definition DAYS_BEFORE_MONTH : list Z :=
  [-1; 0; 31; 59; 90; 120; 151; 181; 212; 243; 273; 304; 334].

Definition days_before_month (year month : Z) : Z :=
  nth (Z.to_nat month) DAYS_BEFORE_MONTH 0
  + (if (2 <? month) && is_leap year then 1 else 0).

(** Ordinal of a date: 0001-01-01 is day 1. *)
Definition ymd2ord (year month day : Z) : Z :=
  days_before_year year + days_before_month year month + day.

Definition DI400Y : Z := 146097.
Definition DI100Y : Z := 36524.
Definition DI4Y : Z := 1461.

(** Year, month and day of an ordinal. *)
Definition ord2ymd (ordinal : Z) : Z * Z * Z :=
  let n := ordinal - 1 in
  let n400 := n / DI400Y in
  let n := n mod DI400Y in
  let year := n400 * 400 + 1 in
  let n100 := n / DI100Y in
  let n := n mod DI100Y in
  let n4 := n / DI4Y in
  let n := n mod DI4Y in
  let n1 := n / 365 in
  let n := n mod 365 in
  let year := year + n100 * 100 + n4 * 4 + n1 in
  if (n1 =? 4) || (n100 =? 4) then (year - 1, 12, 31)
  else
    let leapyear := (n1 =? 3) && (negb (n4 =? 24) || (n100 =? 3)) in
    let month := Z.shiftr (n + 50) 5 in
    let preceding :=
      nth (Z.to_nat month) DAYS_BEFORE_MONTH 0
      + (if (2 <? month) && leapyear then 1 else 0) in
    if n <? preceding then
      let month := month - 1 in
      let preceding :=
        preceding - (nth (Z.to_nat month) DAYS_IN_MONTH 0
                     + (if (month =? 2) && leapyear then 1 else 0)) in
      (year, month, n - preceding + 1)
    else (year, month, n - preceding + 1).

(** The [datetime(year, month, day, hour, minute, second)] of valid fields. *)
Definition make (year month day hour minute second : Z) : datetime :=
  (ymd2ord year month day - 1) * us_per_day
  + (hour * 3600 + minute * 60 + second) * us_per_second.

Definition toordinal (d : datetime) : Z := d / us_per_day + 1.
Definition year (d : datetime) : Z := fst (fst (ord2ymd (toordinal d))).
Definition month (d : datetime) : Z := snd (fst (ord2ymd (toordinal d))).
Definition day (d : datetime) : Z := snd (ord2ymd (toordinal d)).
Definition hour (d : datetime) : Z := (d / us_per_hour) mod 24.
Definition minute (d : datetime) : Z := (d / (60 * us_per_second)) mod 60.
Definition second (d : datetime) : Z := (d / us_per_second) mod 60.

(** One past [datetime.max]: the first instant of year 10000. *)
Definition range_end : Z := 3652059 * us_per_day.

(** [d - delta]; the library raises [OverflowError] when the result leaves
    years 1 .. 9999. *)
Definition sub (d : datetime) (delta : timedelta) : result datetime :=
  let r := d - delta in
  if (0 <=? r) && (r <? range_end) then Ok r else Raise OverflowError.

(** [a > b]. *)
Definition gt (a b : datetime) : bool := b <? a.

Definition digit (n : Z) : ascii := ascii_of_nat (48 + Z.to_nat (n mod 10)).

Definition digits2 (n : Z) : string :=
  String (digit (n / 10)) (String (digit n) EmptyString).

Definition digits4 (n : Z) : string :=
  String (digit (n / 1000)) (String (digit (n / 100)) (digits2 n)).

(** What one directive of a format prints (C locale). *)
Definition directive (d : datetime) (c : ascii) : string :=
  if Ascii.eqb c "Y" then digits4 (year d)
  else if Ascii.eqb c "m" then digits2 (month d)
  else if Ascii.eqb c "d" then digits2 (day d)
  else if Ascii.eqb c "b" then nth (Z.to_nat (month d)) MONTH_ABBR ""
  else if Ascii.eqb c "H" then digits2 (hour d)
  else if Ascii.eqb c "M" then digits2 (minute d)
  else if Ascii.eqb c "S" then digits2 (second d)
  else String "%" (String c EmptyString).

(** [d.strftime(fmt)] for the directives above. *)
Fixpoint strftime (d : datetime) (fmt : string) : string :=
  match fmt with
  | EmptyString => EmptyString
  | String c rest =>
      if Ascii.eqb c "%" then
        match rest with
        | String c' rest' => directive d c' ++ strftime d rest'
        | EmptyString => String c EmptyString
        end
      else String c (strftime d rest)
  end.

End Datetime.

Export Datetime(datetime).

(** ** Log entries *)

Record log_entry : Type := {
  router : string;
  date : datetime;
  request : string;
  status_code : string
}.

(** ** The line parser *)

(** The double quote. *)
Definition quote_char : ascii := ascii_of_nat 34.
Definition dquote : string := String quote_char EmptyString.

Section Parser.

(** [datetime.strptime(text, format)] of the library: the date it reads, or
    [None] where it raises [ValueError].  Which texts it accepts depends on
    the library and its locale; the parser is modelled over any such
    function. *)
Variable strptime : string -> string -> option datetime.

Definition call_strptime (text format : string) : result datetime :=
  match strptime text format with
  | Some d => Ok d
  | None => Raise ValueError
  end.

(** The body of the [try] block. *)
Definition parse_log_line_body (line : string) : result log_entry :=
  router <- index_list (Str.split " -  -  [" line) 0 ;;
  date <- (part <- index_list (Str.split "[" line) 1 ;;
           index_list (Str.split " +" part) 0) ;;
  request <- index_list (Str.split dquote line) 1 ;;
  status_code <- (part <- index_list (Str.split (dquote ++ " ") line) 1 ;;
                  index_list (Str.split " -" part) 0) ;;
  parsed <- call_strptime date "%d/%b/%Y:%H:%M:%S" ;;
  Ok {| router := router;
        date := parsed;
        request := request;
        status_code := status_code |}.

(** [parse_log_line]: [Ok None] is the [None] of the [except] clause, which
    catches [IndexError] and [ValueError] only. *)
Definition parse_log_line (line : string) : result (option log_entry) :=
  match parse_log_line_body line with
  | Ok entry => Ok (Some entry)
  | Raise IndexError => Ok None
  | Raise ValueError => Ok None
  | Raise e => Raise e
  end.

End Parser.

(** ** Counting

    A [Counter] (and the [defaultdict(int)] of the monthly roll-up) is a
    dictionary: it keeps its keys in the order of their first insertion.
    It is held as an association list in that order. *)

Class Key (K : Type) : Type := {
  key_eqb : K -> K -> bool;
  key_eqb_spec : forall x y : K, reflect (x = y) (key_eqb x y)
}.

#[export] Instance string_Key : Key string :=
  {| key_eqb := String.eqb; key_eqb_spec := String.eqb_spec |}.

#[export] Instance Z_Key : Key Z :=
  {| key_eqb := Z.eqb; key_eqb_spec := Z.eqb_spec |}.

Section Counting.

Context {K : Type} `{Key K}.

Definition counter : Type := list (K * nat).

(** [c[k] += 1], a missing key counting as 0 and going to the end. *)
Fixpoint incr (k : K) (c : counter) : counter :=
  match c with
  | [] => [(k, 1)]
  | (k', n) :: c' =>
      if key_eqb k k' then (k', S n) :: c' else (k', n) :: incr k c'
  end.

(** [Counter(iterable)]. *)
Definition Counter (iterable : list K) : counter :=
  fold_left (fun c k => incr k c) iterable [].

(** Where [x] goes in a list that is already in descending order of count:
    after the items of a strictly greater count. *)
Fixpoint insert_desc (x : K * nat) (l : counter) : counter :=
  match l with
  | [] => [x]
  | y :: l' => if (snd x <? snd y)%nat then y :: insert_desc x l' else x :: y :: l'
  end.

(** [sorted(items, key=itemgetter(1), reverse=True)]: descending by count,
    items of equal count staying in their order. *)
Definition sorted_by_count_desc (items : counter) : counter :=
  fold_right insert_desc [] items.

(** [c.most_common(n)], which is [heapq.nlargest(n, c.items(), key=count)]:
    the first [n] of the items sorted as above. *)
Definition most_common (n : nat) (c : counter) : counter :=
  firstn n (sorted_by_count_desc c).

(** Position of the first occurrence of [k] in [l] ([length l] if none). *)
Fixpoint first_index (k : K) (l : list K) : nat :=
  match l with
  | [] => 0
  | k' :: l' => if key_eqb k k' then 0 else S (first_index k l')
  end.

(** Number of occurrences of [k] in [l]. *)
Fixpoint occurrences (k : K) (l : list K) : nat :=
  match l with
  | [] => 0
  | k' :: l' => (if key_eqb k k' then 1 else 0) + occurrences k l'
  end.

(** [c[k]], 0 for a missing key. *)
Fixpoint count_of (k : K) (c : counter) : nat :=
  match c with
  | [] => 0
  | (k', n) :: c' => if key_eqb k k' then n else count_of k c'
  end.

(** The order of a ranking of the keys of [l]: a greater count first, and
    among equal counts the key that occurs first in [l]. *)
Definition ranks_before (l : list K) (a b : K * nat) : Prop :=
  snd b < snd a
  \/ (snd a = snd b /\ first_index (fst a) l < first_index (fst b) l).

(** [r] is the ranking of the keys of [l]: every key of [l] once, with the
    number of its occurrences, in the order above. *)
Definition ranking_of (l : list K) (r : counter) : Prop :=
  (forall k n, In (k, n) r <-> In k l /\ n = occurrences k l)
  /\ NoDup (map fst r)
  /\ StronglySorted (ranks_before l) r.

End Counting.

Arguments counter K : clear implicits.

(** The order a stable descending sort leaves: a greater count first, and
    among equal counts what stood [before]. *)
Definition stable_rank {K : Type} (before : K * nat -> K * nat -> Prop)
  (a b : K * nat) : Prop :=
  snd b < snd a \/ (snd a = snd b /\ before a b).

(** [a] stands before [b] in [l]. *)
Definition precedes {A : Type} (a b : A) (l : list A) : Prop :=
  exists l1 l2 l3, l = (l1 ++ a :: l2 ++ b :: l3)%list.

(** ** [sorted] on (month, count) pairs *)

(** [a < b] on tuples [(str, int)]: by the string, then by the number. *)
Definition item_ltb (a b : string * nat) : bool :=
  String.ltb (fst a) (fst b)
  || (String.eqb (fst a) (fst b) && (snd a <? snd b)%nat).

Fixpoint insert_item (x : string * nat) (l : list (string * nat)) :
  list (string * nat) :=
  match l with
  | [] => [x]
  | y :: l' => if item_ltb y x then y :: insert_item x l' else x :: y :: l'
  end.

(** [sorted(items)]: ascending, stable. *)
Definition sorted (items : list (string * nat)) : list (string * nat) :=
  fold_right insert_item [] items.

(** ** The statistics aggregator *)

Record statistics : Type := {
  top_50_routers : list (string * nat);
  total_html_requests : nat;
  top_50_pages : list (string * nat);
  average_page_loads_per_month : Q;
  monthly_requests : list (string * nat);
  most_popular_time : option Z;
  last_update : string
}.

(** [a / b] on integers: the exact quotient (Python rounds it to the nearest
    double), [ZeroDivisionError] for a zero divisor. *)
Definition true_div (a b : nat) : result Q :=
  match b with
  | O => Raise ZeroDivisionError
  | S _ => Ok (inject_Z (Z.of_nat a) / inject_Z (Z.of_nat b))%Q
  end.

Definition sum (l : list nat) : nat := fold_left Nat.add l 0.

Definition loopback : string := "127.0.0.1".

(** The entries [router_requests] counts. *)
Definition counted_router (entry : log_entry) : bool :=
  negb (String.eqb (router entry) loopback).

Definition router_requests (log_entries : list log_entry) : counter string :=
  Counter (map router (filter counted_router log_entries)).

Definition html_requests (log_entries : list log_entry) : list log_entry :=
  filter (fun entry => Str.contains ".html" (request entry)) log_entries.

Definition ignored_requests : list string :=
  ["GET /"; "GET /styles.css"; "GET /favicon.png"; "HEAD /"].

(** The entries [page_requests] counts. *)
Definition counted_page (entry : log_entry) : bool :=
  negb (Str.endswith_any (request entry) [".png"; ".ico"; ".css"]
        || existsb (String.eqb (request entry)) ignored_requests).

Definition page_requests (log_entries : list log_entry) : counter string :=
  Counter (map request (filter counted_page log_entries)).

(** The loop that fills [monthly_requests]. *)
Definition count_months (fifty_six_months_ago : datetime)
  (log_entries : list log_entry) : counter string :=
  fold_left
    (fun monthly entry =>
       if Datetime.gt (date entry) fifty_six_months_ago
       then incr (Datetime.strftime (date entry) "%Y-%m") monthly
       else monthly)
    log_entries [].

Definition average_of (monthly : counter string) : result Q :=
  let total_months := List.length monthly in
  if (0 <? total_months)%nat then true_div (sum (map snd monthly)) total_months
  else Ok 0%Q.

Definition popular_hour_of (log_entries : list log_entry) : result (option Z) :=
  let hours := map (fun entry => Datetime.hour (date entry)) log_entries in
  match hours with
  | [] => Ok None
  | _ :: _ =>
      top <- index_list (most_common 1 (Counter hours)) 0 ;;
      Ok (Some (fst top))
  end.

(** [generate_statistics], with the reading of the clock ([datetime.now()])
    made an argument. *)
Definition generate_statistics (log_entries : list log_entry)
  (now : datetime) : result statistics :=
  let top_50_routers := most_common 50 (router_requests log_entries) in
  let total_html_requests := List.length (html_requests log_entries) in
  let top_50_pages := most_common 50 (page_requests log_entries) in
  let current_date := now in
  fifty_six_months_ago <-
    Datetime.sub current_date (Datetime.timedelta_days (56 * 30)) ;;
  let monthly_requests := count_months fifty_six_months_ago log_entries in
  average_page_loads_per_month <- average_of monthly_requests ;;
  popular_hour <- popular_hour_of log_entries ;;
  let last_update := Datetime.strftime current_date "%d/%b/%Y %H:%M:%S" in
  Ok {| top_50_routers := top_50_routers;
        total_html_requests := total_html_requests;
        top_50_pages := top_50_pages;
        average_page_loads_per_month := average_page_loads_per_month;
        monthly_requests := sorted monthly_requests;
        most_popular_time := popular_hour;
        last_update := last_update |}.

(** * Vocabulary of the statements *)

(** ** Lines in the expected format

    [<router> -  -  [<date> +<tz>] "<request>" <status> -<rest>] *)

Definition log_line (router date tz request status rest : string) : string :=
  router ++ " -  -  [" ++ date ++ " +" ++ tz ++ "] " ++ dquote ++ request
  ++ dquote ++ " " ++ status ++ " -" ++ rest.

(** The fields of a line in the expected format do not contain the anchors
    that end them: no bracket or quote in the router, no bracket, quote or
    plus sign in the date, no quote in the zone, the request and the status,
    a request that does not begin with a space and a status without dash. *)
Definition fields_ok (router date tz request status : string) : bool :=
  negb (Str.has_char "[" router) && negb (Str.has_char quote_char router)
  && negb (Str.has_char "[" date) && negb (Str.has_char quote_char date)
  && negb (Str.has_char "+" date)
  && negb (Str.has_char quote_char tz)
  && negb (Str.has_char quote_char request) && negb (prefix " " request)
  && negb (Str.has_char quote_char status) && negb (Str.has_char "-" status).

(** The text that [parse_log_line] hands to [strptime]. *)
Definition date_text (line : string) : result string :=
  part <- index_list (Str.split "[" line) 1 ;;
  index_list (Str.split " +" part) 0.

Definition date_format : string := "%d/%b/%Y:%H:%M:%S".

(** The head of [s.split(sep)]: all of [s] when [sep] does not occur. *)
Definition before (sep s : string) : string :=
  match Str.cut sep s with
  | Some (a, _) => a
  | None => s
  end.

(** What follows the first occurrence of [sep] in [s], if there is one:
    [s.split(sep)[1]] is [before sep] of it. *)
Definition after (sep s : string) : option string :=
  match Str.cut sep s with
  | Some (_, b) => Some b
  | None => None
  end.

(** The outcome of the parser, in terms of the text before and after the
    first occurrence of each anchor. *)
Definition parsed_fields (strptime : string -> string -> option datetime)
  (line : string) : option log_entry :=
  match after "[" line, after dquote line, after (dquote ++ " ") line with
  | Some d, Some q, Some s =>
      match strptime (before " +" (before "[" d)) date_format with
      | Some ts =>
          Some {| router := before " -  -  [" line;
                  date := ts;
                  request := before dquote q;
                  status_code := before " -" (before (dquote ++ " ") s) |}
      | None => None
      end
  | _, _, _ => None
  end.

(** ** A strict reader of dates

    It stands for the library's [strptime] where a statement is run on a
    concrete line: it accepts [DD/Mon/YYYY:HH:MM:SS] with all digits written
    and an English month, and checks the ranges of the fields. *)

Module Strict.

Local Open Scope Z_scope.

Definition digit_val (c : ascii) : option Z :=
  let n := nat_of_ascii c in
  if (48 <=? n)%nat && (n <=? 57)%nat then Some (Z.of_nat (n - 48)) else None.

Fixpoint read_digits (k : nat) (acc : Z) (s : string) : option (Z * string) :=
  match k with
  | O => Some (acc, s)
  | S k' =>
      match s with
      | String c s' =>
          match digit_val c with
          | Some v => read_digits k' (acc * 10 + v) s'
          | None => None
          end
      | EmptyString => None
      end
  end.

Definition expect (c : ascii) (s : string) : option string :=
  match s with
  | String c' s' => if Ascii.eqb c c' then Some s' else None
  | EmptyString => None
  end.

Fixpoint month_number (abbr : string) (names : list string) (i : Z) : option Z :=
  match names with
  | [] => None
  | name :: names' =>
      if String.eqb abbr name then Some i else month_number abbr names' (i + 1)
  end.

Definition read_month (s : string) : option (Z * string) :=
  match s with
  | String a (String b (String c s')) =>
      match month_number (String a (String b (String c EmptyString)))
              (tl Datetime.MONTH_ABBR) 1 with
      | Some m => Some (m, s')
      | None => None
      end
  | _ => None
  end.

Definition days_in_month (year month : Z) : Z :=
  if (month =? 2) && Datetime.is_leap year then 29
  else nth (Z.to_nat month) Datetime.DAYS_IN_MONTH 0.

Definition opt_bind {A B : Type} (o : option A) (k : A -> option B) : option B :=
  match o with
  | Some a => k a
  | None => None
  end.

Definition read_date (text : string) : option datetime :=
  opt_bind (read_digits 2 0 text) (fun '(d, s) =>
  opt_bind (expect "/" s) (fun s =>
  opt_bind (read_month s) (fun '(m, s) =>
  opt_bind (expect "/" s) (fun s =>
  opt_bind (read_digits 4 0 s) (fun '(y, s) =>
  opt_bind (expect ":" s) (fun s =>
  opt_bind (read_digits 2 0 s) (fun '(hh, s) =>
  opt_bind (expect ":" s) (fun s =>
  opt_bind (read_digits 2 0 s) (fun '(mm, s) =>
  opt_bind (expect ":" s) (fun s =>
  opt_bind (read_digits 2 0 s) (fun '(ss, s) =>
    match s with
    | EmptyString =>
        if (1 <=? y) && (1 <=? d) && (d <=? days_in_month y m)
           && (hh <? 24) && (mm <? 60) && (ss <? 60)
        then Some (Datetime.make y m d hh mm ss)
        else None
    | String _ _ => None
    end))))))))))).

Definition strptime (text format : string) : option datetime :=
  if String.eqb format "%d/%b/%Y:%H:%M:%S" then read_date text else None.

End Strict.

(** ** Example lines *)

Definition example_line : string :=
  log_line "R1" "01/Jan/2024:10:00:00" "0000" "GET /x.html" "200" "".

(** A line without the separator between router and date. *)
Definition line_without_separator : string :=
  "R1 [01/Jan/2024:10:00:00 +0000] " ++ dquote ++ "GET /x.html" ++ dquote
  ++ " 200 -".

(** The number of occurrences of the character [c] in [s]. *)
Fixpoint count_char (c : ascii) (s : string) : nat :=
  match s with
  | EmptyString => 0
  | String c' s' => (if Ascii.eqb c c' then 1 else 0) + count_char c s'
  end.

(** The example line with the quote that opens the request left out. *)
Definition line_without_opening_quote : string :=
  "R1 -  -  [01/Jan/2024:10:00:00 +0000] GET /x.html" ++ dquote ++ " 200 -".

(** The example line with the bracket that closes the date left out. *)
Definition line_without_closing_bracket : string :=
  "R1 -  -  [01/Jan/2024:10:00:00 +0000 " ++ dquote ++ "GET /x.html"
  ++ dquote ++ " 200 -".

(** ** Counting entries *)

Definition count_entries (P : log_entry -> bool) (es : list log_entry) : nat :=
  List.length (filter P es).

(** The number of entries whose field [key] is [k]. *)
Definition count_key (key : log_entry -> string) (es : list log_entry)
  (k : string) : nat :=
  count_entries (fun entry => String.eqb (key entry) k) es.

Definition has_router (k : string) (entry : log_entry) : bool :=
  String.eqb (router entry) k.

Definition has_request (q : string) (entry : log_entry) : bool :=
  String.eqb (request entry) q.

Definition router_counted (r : string) : bool := negb (String.eqb r loopback).

(** The routers of the entries, in their order, without the loopback token. *)
Definition counted_routers (es : list log_entry) : list string :=
  filter router_counted (map router es).

(** The requests that the page ranking leaves out. *)
Definition ends_with (s suffix : string) : Prop := exists a, s = a ++ suffix.

Definition excluded_request (q : string) : Prop :=
  ends_with q ".png" \/ ends_with q ".ico" \/ ends_with q ".css"
  \/ q = "GET /" \/ q = "GET /styles.css" \/ q = "GET /favicon.png"
  \/ q = "HEAD /".

Definition request_counted (q : string) : bool :=
  negb (Str.endswith_any q [".png"; ".ico"; ".css"]
        || existsb (String.eqb q) ignored_requests).

(** The requests of the entries, in their order, without the excluded ones. *)
Definition counted_requests (es : list log_entry) : list string :=
  filter request_counted (map request es).

(** [top] is the first [n] of the ranking of the keys of [ks], which is
    unique. *)
Definition ranked_top {K : Type} `{Key K} (n : nat) (ks : list K)
  (top : counter K) : Prop :=
  exists r,
    ranking_of ks r
    /\ (forall r', ranking_of ks r' -> r' = r)
    /\ top = firstn n r.

Definition mentions_html (entry : log_entry) : Prop :=
  exists a b, request entry = a ++ ".html" ++ b.

(** ** The window of the monthly roll-up *)

(** The clock readings for which [now - timedelta(days=56 * 30)] is a date:
    all those from 1680 days after [datetime.min] on. *)
Definition clock_in_range (now : datetime) : Prop :=
  (Datetime.timedelta_days (56 * 30) <= now < Datetime.range_end)%Z.

Definition window_start (now : datetime) : datetime :=
  (now - Datetime.timedelta_days (56 * 30))%Z.

Definition in_window (now : datetime) (entry : log_entry) : bool :=
  Datetime.gt (date entry) (window_start now).

Definition month_key (entry : log_entry) : string :=
  Datetime.strftime (date entry) "%Y-%m".

Definition in_month (now : datetime) (k : string) (entry : log_entry) : bool :=
  in_window now entry && String.eqb (month_key entry) k.

(** The order of the roll-up: by month key, ascending. *)
Definition key_lt (a b : string * nat) : Prop :=
  String.ltb (fst a) (fst b) = true.

Definition hours_of (es : list log_entry) : list Z :=
  map (fun entry => Datetime.hour (date entry)) es.

(** ** Example entries *)

Definition entry_of (router request : string) (date : datetime) : log_entry :=
  {| router := router; date := date; request := request;
     status_code := "200" |}.

Definition noon : datetime := Datetime.make 2024 1 15 12 0 0.

(** Routers with the counts B: 3, 127.0.0.1: 100, A: 5, B seen first. *)
Definition router_example : list log_entry :=
  (entry_of "B" "GET /b.html" noon
   :: repeat (entry_of loopback "GET /l.html" noon) 100
   ++ repeat (entry_of "A" "GET /a.html" noon) 5
   ++ repeat (entry_of "B" "GET /b.html" noon) 2)%list.

(** Requests with the counts other: 5, favicon: 20, index: 10. *)
Definition page_example : list log_entry :=
  (repeat (entry_of "A" "GET /other.html" noon) 5
   ++ repeat (entry_of "A" "GET /favicon.png" noon) 20
   ++ repeat (entry_of "B" "GET /index.html" noon) 10)%list.

(** Ten entries in January 2024 and twenty in February 2024. *)
Definition month_example : list log_entry :=
  (repeat (entry_of "A" "GET /a.html" (Datetime.make 2024 2 10 8 0 0)) 20
   ++ repeat (entry_of "B" "GET /b.html" (Datetime.make 2024 1 20 9 30 0)) 10)%list.

Definition example_now : datetime := Datetime.make 2024 3 1 0 0 0.

(** An entry half a day after the start of the window of [example_now], and
    the clock one day later. *)
Definition old_entry : log_entry :=
  entry_of "A" "GET /a.html" (Datetime.make 2019 7 26 12 0 0).

Definition next_day : datetime := Datetime.make 2024 3 2 0 0 0.

(** ** Comparing two reports *)

(** The same statistics, the time of the report apart. *)
Definition same_but_timestamp (st1 st2 : statistics) : Prop :=
  top_50_routers st1 = top_50_routers st2
  /\ total_html_requests st1 = total_html_requests st2
  /\ top_50_pages st1 = top_50_pages st2
  /\ average_page_loads_per_month st1 = average_page_loads_per_month st2
  /\ monthly_requests st1 = monthly_requests st2
  /\ most_popular_time st1 = most_popular_time st2.

(** The statistics that do not look at the clock. *)
Definition same_clockless (st1 st2 : statistics) : Prop :=
  top_50_routers st1 = top_50_routers st2
  /\ total_html_requests st1 = total_html_requests st2
  /\ top_50_pages st1 = top_50_pages st2
  /\ most_popular_time st1 = most_popular_time st2.

(** The statistics that do not look at the router. *)
Definition same_but_routers (st1 st2 : statistics) : Prop :=
  total_html_requests st1 = total_html_requests st2
  /\ top_50_pages st1 = top_50_pages st2
  /\ average_page_loads_per_month st1 = average_page_loads_per_month st2
  /\ monthly_requests st1 = monthly_requests st2
  /\ most_popular_time st1 = most_popular_time st2.

(** A visit from the loopback token. *)
Definition loopback_entry : log_entry :=
  entry_of loopback "GET /x.html" noon.

(** * The file collector

    [parse_log_files] walks a directory and reads files.  The file system is
    what [os.walk] yields for a directory and what reading a path gives. *)

(** ** Whitespace and [strip] *)

(** [c.isspace()], for the characters below 256: tab to carriage return, the
    four separators 28 to 31, the space, NEL and the no-break space. *)
Definition isspace (c : ascii) : bool :=
  let n := nat_of_ascii c in
  ((9 <=? n)%nat && (n <=? 13)%nat) || ((28 <=? n)%nat && (n <=? 32)%nat)
  || (n =? 133)%nat || (n =? 160)%nat.

(** [s.lstrip()]. *)
Fixpoint lstrip (s : string) : string :=
  match s with
  | EmptyString => EmptyString
  | String c s' => if isspace c then lstrip s' else s
  end.

(** [s.rstrip()]. *)
Fixpoint rstrip (s : string) : string :=
  match s with
  | EmptyString => EmptyString
  | String c s' =>
      match rstrip s' with
      | EmptyString => if isspace c then EmptyString else String c EmptyString
      | String d r => String c (String d r)
      end
  end.

(** [s.strip()]. *)
Definition strip (s : string) : string := rstrip (lstrip s).

(** ** The pattern of the file names *)

Definition newline : ascii := ascii_of_nat 10.

(** A letter of the pattern under [re.IGNORECASE]: itself or its capital. *)
Definition letter_l (c : ascii) : bool := Ascii.eqb c "l" || Ascii.eqb c "L".
Definition letter_o (c : ascii) : bool := Ascii.eqb c "o" || Ascii.eqb c "O".
Definition letter_g (c : ascii) : bool := Ascii.eqb c "g" || Ascii.eqb c "G".

(** [\.log$] at the start of [s]: the four characters, then the end of the
    string or a last newline. *)
Definition extension_here (s : string) : bool :=
  match s with
  | String a (String b (String c (String d rest))) =>
      Ascii.eqb a "." && letter_l b && letter_o c && letter_g d
      && (String.eqb rest EmptyString
          || String.eqb rest (String newline EmptyString))
  | _ => false
  end.

(** [log_pattern.match(file)] for [re.compile(r'.*\.log$', re.IGNORECASE)]:
    the dot takes any characters but newlines from the start of the name,
    and the rest of the pattern follows. *)
Fixpoint log_pattern_match (file : string) : bool :=
  extension_here file
  || match file with
     | EmptyString => false
     | String c rest => negb (Ascii.eqb c newline) && log_pattern_match rest
     end.

(** ** Paths *)

(** [os.path.join(a, b)] of [posixpath]. *)
Definition path_join (a b : string) : string :=
  if prefix "/" b then b
  else if String.eqb a EmptyString || Str.endswith a "/" then a ++ b
  else a ++ "/" ++ b.

(** ** Outcomes with input and output

    What ends a run early: an exception of the file system ([OSError], or a
    decoding error while a file is read), the end of the input where a line
    is asked for ([EOFError]), or an exception that [parse_log_line] or
    [generate_statistics] lets through. *)
Inductive failure : Type :=
| IOFailure
| EndOfInput
| Uncaught (e : exn).

Inductive outcome (A : Type) : Type :=
| Done (a : A)
| Aborted (f : failure).

Arguments Done {A} a.
Arguments Aborted {A} f.

Section Collector.

Variable strptime : string -> string -> option datetime.

(** [os.walk(directory)]: for each directory visited its path, its
    sub-directories and its files, in the order of the visit. *)
Variable os_walk : string -> list (string * list string * list string).

(** The lines that [open(path, 'r')] yields, each with its line end, or
    [None] where opening or reading raises. *)
Variable read_lines : string -> option (list string).

(** The loop over the lines of one file. *)
Fixpoint collect_lines (lines : list string) (log_entries : list log_entry) :
  outcome (list log_entry) :=
  match lines with
  | [] => Done log_entries
  | line :: lines' =>
      match parse_log_line strptime (strip line) with
      | Ok (Some parsed_line) =>
          collect_lines lines' (log_entries ++ [parsed_line])
      | Ok None => collect_lines lines' log_entries
      | Raise e => Aborted (Uncaught e)
      end
  end.

(** The loop over the files of one directory. *)
Fixpoint collect_files (root : string) (files : list string)
  (log_entries : list log_entry) : outcome (list log_entry) :=
  match files with
  | [] => Done log_entries
  | file :: files' =>
      if log_pattern_match file then
        let file_path := path_join root file in
        match read_lines file_path with
        | None => Aborted IOFailure
        | Some lines =>
            match collect_lines lines log_entries with
            | Done log_entries' => collect_files root files' log_entries'
            | Aborted f => Aborted f
            end
        end
      else collect_files root files' log_entries
  end.

(** The loop over the directories of the walk. *)
Fixpoint collect_walk (walk : list (string * list string * list string))
  (log_entries : list log_entry) : outcome (list log_entry) :=
  match walk with
  | [] => Done log_entries
  | (root, _, files) :: walk' =>
      match collect_files root files log_entries with
      | Done log_entries' => collect_walk walk' log_entries'
      | Aborted f => Aborted f
      end
  end.

Definition parse_log_files (directory : string) : outcome (list log_entry) :=
  collect_walk (os_walk directory) [].

End Collector.

(** ** Vocabulary of the file collector *)

Definition all_space (s : string) : Prop :=
  forall c, Str.has_char c s = true -> isspace c = true.

(** [l2] is [l1] with whitespace added at its ends. *)
Definition padded (l1 l2 : string) : Prop :=
  exists a b, all_space a /\ all_space b /\ l2 = a ++ l1 ++ b.

(** The entry of a line, if it has one. *)
Definition entry_of_line (strptime : string -> string -> option datetime)
  (line : string) : list log_entry :=
  match parse_log_line strptime (strip line) with
  | Ok (Some entry) => [entry]
  | _ => []
  end.

(** The files of a walk that are read: those whose name matches, by path. *)
Definition log_paths (walk : list (string * list string * list string)) :
  list string :=
  flat_map
    (fun '(root, _, files) =>
       map (path_join root) (filter log_pattern_match files)) walk.

Definition readable (read_lines : string -> option (list string))
  (path : string) : bool :=
  match read_lines path with
  | Some _ => true
  | None => false
  end.

(** The entries of the lines of the file at [path]. *)
Definition entries_at (strptime : string -> string -> option datetime)
  (read_lines : string -> option (list string)) (path : string) :
  list log_entry :=
  match read_lines path with
  | Some lines => flat_map (entry_of_line strptime) lines
  | None => []
  end.

(** The entries of the lines of the files that are read, in the order of the
    walk. *)
Definition collected (strptime : string -> string -> option datetime)
  (read_lines : string -> option (list string))
  (walk : list (string * list string * list string)) : list log_entry :=
  flat_map (entries_at strptime read_lines) (log_paths walk).

(** A small tree: a log file, a file of another kind and a log file in a
    sub-directory, in capitals. *)
Definition example_walk (directory : string) :
  list (string * list string * list string) :=
  [(directory, ["old"], ["access.log"; "notes.txt"]);
   (path_join directory "old", [], ["ACCESS.LOG"])].

Definition example_read (path : string) : option (list string) :=
  if String.eqb path "logs/access.log" then
    Some [example_line ++ String newline EmptyString;
          "not a log line" ++ String newline EmptyString]
  else if String.eqb path "logs/old/ACCESS.LOG" then
    Some ["  " ++ example_line]
  else None.

(** * The report and the program *)

(** ** Numbers as text *)

Definition digit_of (n : nat) : ascii := ascii_of_nat (48 + n mod 10).

(** The decimal digits of [n] before [acc]; [fuel] bounds their number. *)
Fixpoint str_nat_digits (fuel n : nat) (acc : string) : string :=
  match fuel with
  | O => acc
  | S fuel' =>
      match n / 10 with
      | O => String (digit_of n) acc
      | S _ => str_nat_digits fuel' (n / 10) (String (digit_of n) acc)
      end
  end.

(** [str(n)] for a count. *)
Definition str_nat (n : nat) : string := str_nat_digits (S n) n EmptyString.

(** [str(z)] for an integer. *)
Definition str_Z (z : Z) : string :=
  match z with
  | Z0 => "0"
  | Zpos p => str_nat (Pos.to_nat p)
  | Zneg p => "-" ++ str_nat (Pos.to_nat p)
  end.

(** [str] of the most popular hour, which may be [None]. *)
Definition str_hour (hour : option Z) : string :=
  match hour with
  | Some h => str_Z h
  | None => "None"
  end.

(** ** The text of the report

    The literal text of the template, between its fields. *)

(** The text of the report up to the total of page loads. *)
Definition html_head : string :=
  "
    <!DOCTYPE html>
    <html lang="
  ++ dquote ++ "en"
  ++ dquote ++ ">
    <head>
        <meta charset="
  ++ dquote ++ "UTF-8"
  ++ dquote ++ ">
        <meta name="
  ++ dquote ++ "viewport"
  ++ dquote ++ " content="
  ++ dquote ++ "width=device-width, initial-scale=1.0"
  ++ dquote ++ ">
        <title>Log Analysis Report</title>
        <style>
            body {
                background-color: #1e1e1e;
                color: #c7c7c7;
                font-family: Arial, sans-serif;
                margin: 0;
                padding: 20px;
            }
            h1 {
                color: #f0f0f0;
            }
            table {
                width: 100%;
                border-collapse: collapse;
                margin-bottom: 20px;
            }
            th, td {
                border: 1px solid #3a3a3a;
                padding: 8px;
                text-align: left;
            }
            th {
                background-color: #333;
                color: #fff;
            }
            tr:nth-child(even) {
                background-color: #2a2a2a;
            }
        </style>
    </head>
    <body>
        <h1>Log Analysis Report</h1>
        <h2>Total .html Requests (Total Page Loads)</h2>
        <p>".

(** From the total to the average. *)
Definition html_after_total : string :=
  "</p>

        <h2>Average Page Loads Per Month (Last 56 Months)</h2>
        <p>".

(** From the average to the rows of the months. *)
Definition html_after_average : string :=
  "</p>

        <h2>Monthly Page Loads (Last 56 Months)</h2>
        <table>
            <thead>
                <tr>
                    <th>Month</th>
                    <th>Request Count</th>
                </tr>
            </thead>
            <tbody>
                ".

(** From the rows of the months to the most popular hour. *)
Definition html_after_months : string :=
  "
            </tbody>
        </table>

        <h2>Most Popular Time of Day</h2>
        <p>".

(** From the hour to the rows of the routers. *)
Definition html_after_hour : string :=
  ":00</p>
        
        <h2>Top 50 Visiting Routers</h2>
        <table>
            <thead>
                <tr>
                    <th>Router</th>
                    <th>Request Count</th>
                </tr>
            </thead>
            <tbody>
                ".

(** From the rows of the routers to the rows of the pages. *)
Definition html_after_routers : string :=
  "
            </tbody>
        </table>
        <h2>Top 50 Most Requested Pages</h2>
        <table>
            <thead>
                <tr>
                    <th>Page</th>
                    <th>Request Count</th>
                </tr>
            </thead>
            <tbody>
                ".

(** From the rows of the pages to the time of the report. *)
Definition html_after_pages : string :=
  "
            </tbody>
        </table>

        <p style="
  ++ dquote ++ "text-align: right; font-size: small;"
  ++ dquote ++ ">Last Updated: ".

(** The end of the report. *)
Definition html_foot : string :=
  "</p>
    </body>
    </html>
    ".

(** One row of a table, and the rows of a table, joined without separator. *)
Definition table_row (item : string * nat) : string :=
  "<tr><td>" ++ fst item ++ "</td><td>" ++ str_nat (snd item) ++ "</td></tr>".

Definition table_rows (items : list (string * nat)) : string :=
  String.concat EmptyString (map table_row items).

(** What the program shows and writes. *)
Inductive event : Type :=
| Printed (text : string)
| Prompted (text : string)
| Wrote (path content : string).

Section Program.

(** [format(x, '.2f')] of the library, for the average. *)
Variable format_2f : Q -> string.

(** Whether [open(path, 'w')] and the writing go through. *)
Variable write_ok : string -> bool.

Variable strptime : string -> string -> option datetime.
Variable os_walk : string -> list (string * list string * list string).
Variable read_lines : string -> option (list string).

(** [os.path.isdir]. *)
Variable isdir : string -> bool.

(** The line that [input] reads, without its line end, if there is one. *)
Variable stdin_line : option string.

(** The reading of the clock when the statistics are made. *)
Variable now : datetime.

Definition html_content (statistics : statistics) : string :=
  html_head ++ str_nat (total_html_requests statistics)
  ++ html_after_total
  ++ format_2f (average_page_loads_per_month statistics)
  ++ html_after_average ++ table_rows (monthly_requests statistics)
  ++ html_after_months ++ str_hour (most_popular_time statistics)
  ++ html_after_hour ++ table_rows (top_50_routers statistics)
  ++ html_after_routers ++ table_rows (top_50_pages statistics)
  ++ html_after_pages ++ last_update statistics
  ++ html_foot.

(** [generate_html_report]: the events of a run and what ended it early. *)
Definition generate_html_report (statistics : statistics)
  (output_file : string) : list event * option failure :=
  if write_ok output_file then
    ([Wrote output_file (html_content statistics);
      Printed ("HTML report generated: " ++ output_file)], None)
  else ([], Some IOFailure).

Definition banner : list event :=
  [Printed "Log File Parser and HTML Report Generator";
   Printed "==========================================";
   Printed ("This script parses all .log files in a specified directory and generates an HTML report with detailed statistics."
            ++ String newline EmptyString);
   Prompted "Enter the directory containing log files (leave blank for current directory): "].

(** [typed.strip() or '.'] *)
Definition chosen_directory (typed : string) : string :=
  if String.eqb (strip typed) EmptyString then "." else strip typed.

Definition main : list event * option failure :=
  match stdin_line with
  | None => (banner, Some EndOfInput)
  | Some typed =>
      let directory := chosen_directory typed in
      if negb (isdir directory) then
        (banner ++ [Printed ("Error: '" ++ directory
                             ++ "' is not a valid directory.")], None)%list
      else
        let shown :=
          (banner ++ [Printed ("Parsing log files in '" ++ directory
                               ++ "'...")])%list in
        match parse_log_files strptime os_walk read_lines directory with
        | Aborted f => (shown, Some f)
        | Done [] =>
            (shown ++ [Printed "No valid log data found in the specified directory."],
             None)%list
        | Done (entry :: entries) =>
            match generate_statistics (entry :: entries) now with
            | Raise e => (shown, Some (Uncaught e))
            | Ok statistics =>
                let (written, failed) :=
                  generate_html_report statistics "report.html" in
                ((shown ++ written)%list, failed)
            end
        end
  end.

End Program.

(** The two-decimal text of the whole numbers up to 99, to run the report on
    examples. *)
Definition format_whole (q : Q) : string :=
  str_Z (Qnum q / Z.pos (Qden q)) ++ ".00".

(** * Facts about the string operations *)

Module StrFacts.

Import Str.

Lemma append_nil_r (s : string) : s ++ "" = s.
Proof. induction s as [|c s IH]; simpl; [reflexivity | now rewrite IH]. Qed.

Lemma append_assoc (a b c : string) : (a ++ b) ++ c = a ++ b ++ c.
Proof. induction a as [|x a IH]; simpl; [reflexivity | now rewrite IH]. Qed.

Lemma length_append (a b : string) :
  String.length (a ++ b) = String.length a + String.length b.
Proof. induction a as [|x a IH]; simpl; [reflexivity | now rewrite IH]. Qed.

Lemma prefix_nil (s : string) : prefix "" s = true.
Proof. destruct s; reflexivity. Qed.

Lemma prefix_cons (c d : ascii) (p s : string) :
  prefix (String c p) (String d s) = Ascii.eqb c d && prefix p s.
Proof.
  simpl. destruct (ascii_dec c d) as [->|Hne].
  - now rewrite Ascii.eqb_refl.
  - apply Ascii.eqb_neq in Hne. now rewrite Hne.
Qed.

Lemma prefix_append (p s : string) : prefix p (p ++ s) = true.
Proof.
  induction p as [|c p IH]; [apply prefix_nil|].
  change (String c p ++ s) with (String c (p ++ s)).
  now rewrite prefix_cons, Ascii.eqb_refl, IH.
Qed.

Lemma prefix_true_iff (p s : string) :
  prefix p s = true <-> exists t, s = p ++ t.
Proof.
  split.
  - revert s. induction p as [|c p IH]; intros s Hp.
    + now exists s.
    + destruct s as [|d s]; [discriminate|].
      rewrite prefix_cons in Hp. apply andb_prop in Hp as [Hc Hp].
      apply Ascii.eqb_eq in Hc as ->.
      destruct (IH _ Hp) as [t ->]. now exists t.
  - intros [t ->]. apply prefix_append.
Qed.

Lemma drop_append (p s : string) : drop (String.length p) (p ++ s) = s.
Proof. induction p as [|c p IH]; simpl; [reflexivity | exact IH]. Qed.

Lemma prefix_first_differs (c d : ascii) (p s : string) :
  c <> d -> prefix (String c p) (String d s) = false.
Proof.
  intros Hne. rewrite prefix_cons. apply Ascii.eqb_neq in Hne. now rewrite Hne.
Qed.

Lemma has_char_append (c : ascii) (a b : string) :
  has_char c (a ++ b) = has_char c a || has_char c b.
Proof.
  induction a as [|x a IH]; simpl; [reflexivity|].
  now rewrite IH, orb_assoc.
Qed.

(** ** The first occurrence of a separator *)

Lemma cut_here (sep b : string) : cut sep (sep ++ b) = Some ("", b).
Proof.
  destruct sep as [|c sep].
  - destruct b; reflexivity.
  - change (String c sep ++ b) with (String c (sep ++ b)).
    cbn [cut]. rewrite prefix_cons, Ascii.eqb_refl, prefix_append.
    cbn [andb String.length drop]. now rewrite drop_append.
Qed.

Lemma cut_step (sep : string) (c : ascii) (s : string) :
  prefix sep (String c s) = false ->
  cut sep (String c s) =
    match cut sep s with Some (a, b) => Some (String c a, b) | None => None end.
Proof. intros Hp. cbn [cut]. now rewrite Hp. Qed.

(** A separator is not found inside [a] when its first character does not
    occur there. *)
Lemma cut_skip_first (c0 : ascii) (sep' a s : string) :
  has_char c0 a = false ->
  cut (String c0 sep') (a ++ s) =
    match cut (String c0 sep') s with
    | Some (x, y) => Some (a ++ x, y)
    | None => None
    end.
Proof.
  induction a as [|c a IH]; intros Hno.
  - cbn [append]. now destruct (cut (String c0 sep') s) as [[x y]|].
  - cbn [has_char] in Hno. apply orb_false_elim in Hno as [Hc Ha].
    change (String c a ++ s) with (String c (a ++ s)).
    rewrite cut_step.
    + rewrite (IH Ha). now destruct (cut (String c0 sep') s) as [[x y]|].
    + apply prefix_first_differs. now apply Ascii.eqb_neq.
Qed.

Lemma cut_absent_first (c0 : ascii) (sep' s : string) :
  has_char c0 s = false -> cut (String c0 sep') s = None.
Proof.
  intros Hno. rewrite <- (append_nil_r s).
  rewrite (cut_skip_first c0 sep' s "" Hno). reflexivity.
Qed.

(** The character at position [n], if any. *)
Lemma get_append_l (n : nat) (a b : string) :
  n < String.length a -> String.get n (a ++ b) = String.get n a.
Proof.
  revert n. induction a as [|c a IH]; intros n Hn; simpl in Hn; [lia|].
  destruct n as [|n]; simpl; [reflexivity | apply IH; lia].
Qed.

Lemma get_append_r (n : nat) (a b : string) :
  String.get (String.length a + n) (a ++ b) = String.get n b.
Proof. induction a as [|c a IH]; simpl; [reflexivity | exact IH]. Qed.

Lemma get_has_char (c : ascii) (s : string) (n : nat) :
  String.get n s = Some c -> has_char c s = true.
Proof.
  revert n. induction s as [|d s IH]; intros n Hg; [discriminate|].
  destruct n as [|n]; simpl in Hg |- *.
  - injection Hg as ->. now rewrite Ascii.eqb_refl.
  - rewrite (IH _ Hg). apply orb_true_r.
Qed.

Lemma prefix_get (p s : string) (n : nat) (c : ascii) :
  prefix p s = true -> String.get n p = Some c -> String.get n s = Some c.
Proof.
  intros Hp Hg. apply prefix_true_iff in Hp as [t ->].
  rewrite get_append_l; [exact Hg|].
  revert n Hg. clear. induction p as [|d p IH]; intros n Hg; [discriminate|].
  destruct n as [|n]; simpl in *; [lia|]. apply IH in Hg. lia.
Qed.

(** A separator [p ++ c] whose last character [c] occurs neither in [p] nor
    in [a] is first found right after [a]. *)
Lemma cut_skip_last (p : string) (c : ascii) (a b : string) :
  has_char c p = false ->
  has_char c a = false ->
  cut (p ++ String c "") (a ++ (p ++ String c "") ++ b) = Some (a, b).
Proof.
  intros Hp. induction a as [|x a IH]; intros Ha.
  - apply (cut_here (p ++ String c "") b).
  - cbn [has_char] in Ha. apply orb_false_elim in Ha as [Hx Ha].
    change (String x a ++ (p ++ String c "") ++ b)
      with (String x (a ++ (p ++ String c "") ++ b)).
    rewrite cut_step; [now rewrite (IH Ha)|].
    destruct (prefix (p ++ String c "") (String x (a ++ (p ++ String c "") ++ b)))
      eqn:Hpre; [exfalso | reflexivity].
    assert (Hg : String.get (String.length p + 0) (p ++ String c "") = Some c)
      by (rewrite get_append_r; reflexivity).
    pose proof (prefix_get _ _ _ _ Hpre Hg) as Hs.
    change (String x (a ++ (p ++ String c "") ++ b))
      with (String x a ++ (p ++ String c "") ++ b) in Hs.
    rewrite Nat.add_0_r in Hs.
    destruct (Nat.lt_ge_cases (String.length p) (String.length (String x a)))
      as [Hlt|Hge].
    + rewrite get_append_l in Hs by exact Hlt.
      apply get_has_char in Hs. cbn [has_char] in Hs.
      rewrite Hx, Ha in Hs. discriminate.
    + cbn [String.length] in Hge.
      replace (String.length p)
        with (String.length (String x a)
              + (String.length p - String.length (String x a))) in Hs
        by (cbn [String.length]; lia).
      rewrite get_append_r, append_assoc in Hs.
      rewrite get_append_l in Hs by (cbn [String.length]; lia).
      apply get_has_char in Hs. rewrite Hp in Hs. discriminate.
Qed.

(** ** What [cut] finds *)

Lemma cut_Some (sep s a b : string) :
  cut sep s = Some (a, b) -> s = a ++ sep ++ b.
Proof.
  revert a b. induction s as [|c s IH]; intros a b Hc; cbn [cut] in Hc.
  - destruct (prefix sep "") eqn:Hp; [|discriminate].
    injection Hc as <- <-. apply prefix_true_iff in Hp as [t Ht].
    destruct sep; [reflexivity | discriminate].
  - destruct (prefix sep (String c s)) eqn:Hp.
    + injection Hc as <- <-. apply prefix_true_iff in Hp as [t Ht].
      rewrite Ht. now rewrite drop_append.
    + destruct (cut sep s) as [[x y]|]; [|discriminate].
      injection Hc as <- <-. now rewrite (IH x y eq_refl).
Qed.

Lemma cut_None (sep s : string) :
  cut sep s = None -> forall a b, s <> a ++ sep ++ b.
Proof.
  induction s as [|c s IH]; intros Hc a b Heq; cbn [cut] in Hc.
  - destruct (prefix sep "") eqn:Hp; [discriminate|].
    destruct a; [|discriminate]. cbn [append] in Heq.
    rewrite Heq, prefix_append in Hp. discriminate.
  - destruct (prefix sep (String c s)) eqn:Hp; [discriminate|].
    destruct (cut sep s) as [[x y]|] eqn:Hcs; [discriminate|].
    destruct a as [|d a].
    + cbn [append] in Heq. rewrite Heq, prefix_append in Hp. discriminate.
    + injection Heq as _ Heq. exact (IH eq_refl a b Heq).
Qed.

Lemma cut_shorter (sep s a b : string) :
  sep <> "" -> cut sep s = Some (a, b) -> String.length b < String.length s.
Proof.
  intros Hsep Hc. apply cut_Some in Hc. subst s.
  rewrite !length_append. destruct sep; [congruence | simpl; lia].
Qed.

(** ** [split] *)

Lemma split_fuel_enough (sep : string) :
  sep <> "" ->
  forall f1 f2 s,
    String.length s <= f1 -> String.length s <= f2 ->
    split_fuel f1 sep s = split_fuel f2 sep s.
Proof.
  intros Hsep. induction f1 as [|f1 IH]; intros f2 s H1 H2.
  - destruct (cut sep s) as [[a b]|] eqn:Hc.
    + apply (cut_shorter _ _ _ _ Hsep) in Hc. lia.
    + destruct f2; cbn [split_fuel]; now rewrite Hc.
  - cbn [split_fuel]. destruct (cut sep s) as [[a b]|] eqn:Hc.
    + pose proof (cut_shorter _ _ _ _ Hsep Hc) as Hlt.
      destruct f2 as [|f2]; [lia|].
      cbn [split_fuel]. rewrite Hc. f_equal. apply IH; lia.
    + destruct f2; cbn [split_fuel]; now rewrite Hc.
Qed.

(** The equation of [str.split]. *)
Lemma split_unfold (sep s : string) :
  sep <> "" ->
  split sep s =
    match cut sep s with
    | None => [s]
    | Some (a, b) => a :: split sep b
    end.
Proof.
  intros Hsep. unfold split.
  destruct (cut sep s) as [[a b]|] eqn:Hc.
  - pose proof (cut_shorter _ _ _ _ Hsep Hc) as Hlt.
    destruct (String.length s) as [|n] eqn:Hn; [lia|].
    cbn [split_fuel]. rewrite Hc. f_equal.
    apply split_fuel_enough; [exact Hsep | lia | lia].
  - destruct (String.length s); cbn [split_fuel]; now rewrite Hc.
Qed.

(** [s.split(sep)[0]] is always there. *)
Lemma split_head (sep s : string) :
  sep <> "" ->
  index_list (split sep s) 0 =
    Ok (match cut sep s with Some (a, _) => a | None => s end).
Proof.
  intros Hsep. rewrite (split_unfold _ s Hsep).
  destruct (cut sep s) as [[a b]|]; reflexivity.
Qed.

(** [s.split(sep)[1]] is there when [sep] occurs, and is the head of the
    split of what follows the first occurrence. *)
Lemma split_second (sep s : string) :
  sep <> "" ->
  index_list (split sep s) 1 =
    match cut sep s with
    | Some (_, b) => index_list (split sep b) 0
    | None => Raise IndexError
    end.
Proof.
  intros Hsep. rewrite (split_unfold _ s Hsep).
  destruct (cut sep s) as [[a b]|]; [|reflexivity].
  unfold index_list. cbn [nth_error]. reflexivity.
Qed.

(** ** [in] and [endswith] *)

Lemma contains_iff (sub s : string) :
  contains sub s = true <-> exists a b, s = a ++ sub ++ b.
Proof.
  split.
  - induction s as [|c s IH]; cbn [contains]; intros Hc.
    + destruct (prefix sub "") eqn:Hp; [|discriminate].
      apply prefix_true_iff in Hp as [t Ht]. now exists "", t.
    + destruct (prefix sub (String c s)) eqn:Hp.
      * apply prefix_true_iff in Hp as [t Ht]. now exists "", t.
      * destruct (IH Hc) as (a & b & ->). now exists (String c a), b.
  - intros (a & b & ->). induction a as [|c a IH].
    + cbn [append]. destruct (sub ++ b) eqn:E; cbn [contains];
        rewrite <- E, prefix_append; reflexivity.
    + change (String c a ++ sub ++ b) with (String c (a ++ sub ++ b)).
      cbn [contains]. rewrite IH. now destruct (prefix sub _).
Qed.

Lemma cut_absent (sep s : string) :
  contains sep s = false -> cut sep s = None.
Proof.
  induction s as [|c s IH]; cbn [contains cut]; intros Hc.
  - now destruct (prefix sep "").
  - destruct (prefix sep (String c s)); [discriminate|]. now rewrite IH.
Qed.

Lemma endswith_iff (s suffix : string) :
  endswith s suffix = true <-> exists a, s = a ++ suffix.
Proof.
  split.
  - induction s as [|c s IH]; cbn [endswith]; intros He.
    + destruct (String.eqb "" suffix) eqn:E; [|discriminate].
      apply String.eqb_eq in E. now exists "".
    + destruct (String.eqb (String c s) suffix) eqn:E.
      * apply String.eqb_eq in E. now exists "".
      * destruct (IH He) as [a ->]. now exists (String c a).
  - intros [a ->]. induction a as [|c a IH].
    + cbn [append]. destruct suffix; cbn [endswith];
        now rewrite String.eqb_refl.
    + change (String c a ++ suffix) with (String c (a ++ suffix)).
      cbn [endswith]. rewrite IH. now destruct (String.eqb _ _).
Qed.

End StrFacts.

(** * The line parser *)

Module ParserFacts.

Import Str StrFacts.

Lemma before_skip_first (c0 : ascii) (sep' a s : string) :
  has_char c0 a = false ->
  before (String c0 sep') (a ++ s) = a ++ before (String c0 sep') s.
Proof.
  intros Hno. unfold before. rewrite (cut_skip_first _ _ _ _ Hno).
  now destruct (cut (String c0 sep') s) as [[x y]|].
Qed.

Lemma head_is_before (sep s : string) :
  sep <> "" -> index_list (split sep s) 0 = Ok (before sep s).
Proof. intros Hsep. now rewrite split_head. Qed.

(** The first occurrence of each anchor. *)

Lemma cut_char (c : ascii) (a b : string) :
  has_char c a = false ->
  cut (String c "") (a ++ String c "" ++ b) = Some (a, b).
Proof. exact (cut_skip_last "" c a b eq_refl). Qed.

Lemma cut_router_sep (a b : string) :
  has_char "[" a = false ->
  cut " -  -  [" (a ++ " -  -  [" ++ b) = Some (a, b).
Proof. exact (cut_skip_last " -  -  " "[" a b eq_refl). Qed.

Lemma cut_plus (a b : string) :
  has_char "+" a = false -> cut " +" (a ++ " +" ++ b) = Some (a, b).
Proof. exact (cut_skip_last " " "+" a b eq_refl). Qed.

Lemma cut_dash (a b : string) :
  has_char "-" a = false -> cut " -" (a ++ " -" ++ b) = Some (a, b).
Proof. exact (cut_skip_last " " "-" a b eq_refl). Qed.

Lemma before_found (sep s a b : string) :
  cut sep s = Some (a, b) -> before sep s = a.
Proof. intros Hc. unfold before. now rewrite Hc. Qed.

Section Fields.

Variables router date tz request status rest : string.
Hypothesis Hok : fields_ok router date tz request status = true.

Lemma fields_ok_inv :
  has_char "[" router = false /\ has_char quote_char router = false
  /\ has_char "[" date = false /\ has_char quote_char date = false
  /\ has_char "+" date = false /\ has_char quote_char tz = false
  /\ has_char quote_char request = false /\ prefix " " request = false
  /\ has_char quote_char status = false /\ has_char "-" status = false.
Proof.
  unfold fields_ok in Hok.
  repeat (apply andb_prop in Hok as [Hok ?]).
  repeat match goal with
         | H : negb _ = true |- _ => apply negb_true_iff in H
         end.
  repeat split; assumption.
Qed.

Lemma router_field :
  index_list
    (split " -  -  [" (log_line router date tz request status rest)) 0
  = Ok router.
Proof.
  destruct fields_ok_inv as (Hr & _).
  rewrite head_is_before by discriminate.
  f_equal. eapply before_found. apply cut_router_sep, Hr.
Qed.

Lemma date_field :
  date_text (log_line router date tz request status rest) = Ok date.
Proof.
  destruct fields_ok_inv as (Hr & _ & Hd & _ & Hplus & _).
  unfold date_text. rewrite split_second by discriminate.
  replace (log_line router date tz request status rest)
    with ((router ++ " -  -  ") ++ "["
          ++ (date ++ " +") ++ tz ++ "] " ++ dquote
          ++ request ++ dquote ++ " " ++ status ++ " -" ++ rest)
    by (unfold log_line; now rewrite !append_assoc).
  rewrite cut_char by (rewrite has_char_append, Hr; reflexivity).
  rewrite head_is_before by discriminate.
  rewrite before_skip_first by (rewrite has_char_append, Hd; reflexivity).
  cbn [bind]. rewrite head_is_before by discriminate.
  f_equal. eapply before_found. rewrite append_assoc.
  apply cut_plus, Hplus.
Qed.

Lemma request_field :
  index_list (split dquote (log_line router date tz request status rest)) 1
  = Ok request.
Proof.
  destruct fields_ok_inv as (_ & Hr & _ & Hd & _ & Htz & Hq & _).
  rewrite split_second by discriminate.
  replace (log_line router date tz request status rest)
    with ((router ++ " -  -  [" ++ date ++ " +" ++ tz ++ "] ")
          ++ String quote_char ""
          ++ request ++ String quote_char ""
          ++ " " ++ status ++ " -" ++ rest)
    by (unfold log_line, dquote; now rewrite !append_assoc).
  unfold dquote.
  rewrite cut_char by (rewrite !has_char_append, Hr, Hd, Htz; reflexivity).
  rewrite head_is_before by discriminate.
  f_equal. eapply before_found. apply cut_char, Hq.
Qed.

Lemma status_field :
  (part <- index_list
             (split (dquote ++ " ")
                (log_line router date tz request status rest)) 1 ;;
   index_list (split " -" part) 0) = Ok status.
Proof.
  destruct fields_ok_inv
    as (_ & Hr & _ & Hd & _ & Htz & Hq & Hsp & Hs & Hdash).
  change (dquote ++ " ") with (String quote_char " ").
  rewrite split_second by discriminate.
  replace (log_line router date tz request status rest)
    with ((router ++ " -  -  [" ++ date ++ " +" ++ tz ++ "] ")
          ++ String quote_char
               (request ++ String quote_char " "
                ++ (status ++ " -") ++ rest))
    by (unfold log_line, dquote; now rewrite !append_assoc).
  rewrite cut_skip_first by
    (rewrite !has_char_append, Hr, Hd, Htz; reflexivity).
  rewrite cut_step.
  2:{ rewrite prefix_cons, Ascii.eqb_refl. cbn [andb].
      destruct request as [|c r]; [reflexivity|].
      change (String c r ++ String quote_char " " ++ (status ++ " -") ++ rest)
        with (String c (r ++ String quote_char " " ++ (status ++ " -") ++ rest)).
      rewrite prefix_cons. rewrite prefix_cons in Hsp.
      rewrite prefix_nil, andb_true_r in Hsp |- *. exact Hsp. }
  rewrite (cut_skip_first _ _ _ _ Hq).
  rewrite cut_here.
  rewrite head_is_before by discriminate.
  rewrite before_skip_first by (rewrite has_char_append, Hs; reflexivity).
  cbn [bind]. rewrite head_is_before by discriminate.
  f_equal. eapply before_found. rewrite append_assoc.
  apply cut_dash, Hdash.
Qed.

End Fields.

Section Outcomes.

Variable strptime : string -> string -> option datetime.

Lemma index_list_raises {A : Type} (l : list A) (i : nat) (e : exn) :
  index_list l i = Raise e -> e = IndexError.
Proof.
  unfold index_list. destruct (nth_error l i); [discriminate|].
  now intros [= <-].
Qed.

Lemma call_strptime_raises (text format : string) (e : exn) :
  call_strptime strptime text format = Raise e -> e = ValueError.
Proof.
  unfold call_strptime. destruct (strptime text format); [discriminate|].
  now intros [= <-].
Qed.

(** The body raises nothing but what the [except] clause catches. *)
Lemma body_raises (line : string) (e : exn) :
  parse_log_line_body strptime line = Raise e ->
  e = IndexError \/ e = ValueError.
Proof.
  unfold parse_log_line_body, bind.
  repeat match goal with
         | |- context [match index_list ?l ?i with _ => _ end] =>
             let E := fresh "E" in
             destruct (index_list l i) eqn:E;
             [| intros [= <-]; left; eapply index_list_raises; eassumption]
         | |- context [match call_strptime ?f ?t ?fmt with _ => _ end] =>
             let E := fresh "E" in
             destruct (call_strptime f t fmt) eqn:E;
             [| intros [= <-]; right; eapply call_strptime_raises; eassumption]
         end.
  discriminate.
Qed.

Lemma parse_log_line_total (line : string) :
  exists outcome, parse_log_line strptime line = Ok outcome.
Proof.
  unfold parse_log_line.
  destruct (parse_log_line_body strptime line) as [entry|e] eqn:E.
  - now exists (Some entry).
  - destruct (body_raises _ _ E) as [-> | ->]; now exists None.
Qed.

Lemma parse_None_of_raise (line : string) (e : exn) :
  parse_log_line_body strptime line = Raise e ->
  parse_log_line strptime line = Ok None.
Proof.
  intros E. unfold parse_log_line. rewrite E.
  destruct (body_raises _ _ E) as [-> | ->]; reflexivity.
Qed.

Lemma body_Ok_inv (line : string) (entry : log_entry) :
  parse_log_line_body strptime line = Ok entry ->
  exists text,
    date_text line = Ok text
    /\ strptime text date_format = Some (date entry)
    /\ index_list (split "[" line) 1 <> Raise IndexError
    /\ index_list (split dquote line) 1 = Ok (request entry)
    /\ index_list (split (dquote ++ " ") line) 1 <> Raise IndexError.
Proof.
  unfold parse_log_line_body, date_text.
  destruct (index_list (split " -  -  [" line) 0) as [r|]; [|discriminate].
  cbn [bind].
  destruct (index_list (split "[" line) 1) as [part|] eqn:E1; [|discriminate].
  cbn [bind].
  destruct (index_list (split " +" part) 0) as [text|]; [|discriminate].
  cbn [bind].
  destruct (index_list (split dquote line) 1) as [q|]; [|discriminate].
  cbn [bind].
  destruct (index_list (split (dquote ++ " ") line) 1) as [part2|];
    [|discriminate].
  cbn [bind].
  destruct (index_list (split " -" part2) 0) as [st|]; [|discriminate].
  cbn [bind]. unfold call_strptime.
  destruct (strptime text "%d/%b/%Y:%H:%M:%S") as [d|] eqn:Ed; [|discriminate].
  cbn [bind]. intros [= <-]. exists text. cbn [date request].
  repeat split; try assumption; discriminate.
Qed.

Lemma parse_formatted (router date tz request status rest : string)
  (ts : datetime) :
  fields_ok router date tz request status = true ->
  strptime date date_format = Some ts ->
  parse_log_line strptime (log_line router date tz request status rest)
  = Ok (Some {| router := router; date := ts;
                request := request; status_code := status |}).
Proof.
  intros Hok Hts. unfold parse_log_line, parse_log_line_body.
  rewrite (router_field _ _ _ _ _ rest Hok). cbn [bind].
  pose proof (date_field _ _ _ _ _ rest Hok) as Hd. unfold date_text in Hd.
  rewrite Hd. cbn [bind].
  rewrite (request_field _ _ _ _ _ rest Hok). cbn [bind].
  rewrite (status_field _ _ _ _ _ rest Hok). cbn [bind].
  unfold call_strptime. unfold date_format in Hts. rewrite Hts.
  reflexivity.
Qed.

Lemma parse_without_quote (line : string) :
  has_char quote_char line = false ->
  parse_log_line strptime line = Ok None.
Proof.
  intros Hq.
  destruct (parse_log_line_body strptime line) as [entry|e] eqn:E.
  - apply body_Ok_inv in E as (_ & _ & _ & _ & Hreq & _).
    rewrite split_second in Hreq by discriminate.
    unfold dquote in Hreq. rewrite (cut_absent_first _ _ _ Hq) in Hreq.
    discriminate.
  - eapply parse_None_of_raise; eassumption.
Qed.

Lemma parse_without_bracket (line : string) :
  has_char "[" line = false ->
  parse_log_line strptime line = Ok None.
Proof.
  intros Hb.
  destruct (parse_log_line_body strptime line) as [entry|e] eqn:E.
  - apply body_Ok_inv in E as (_ & _ & _ & Hidx & _).
    rewrite split_second in Hidx by discriminate.
    rewrite (cut_absent_first _ _ _ Hb) in Hidx. congruence.
  - eapply parse_None_of_raise; eassumption.
Qed.

Lemma parse_without_closing_quote (line : string) :
  contains (dquote ++ " ") line = false ->
  parse_log_line strptime line = Ok None.
Proof.
  intros Hq.
  destruct (parse_log_line_body strptime line) as [entry|e] eqn:E.
  - apply body_Ok_inv in E as (_ & _ & _ & _ & _ & Hidx).
    rewrite split_second in Hidx by discriminate.
    rewrite (cut_absent _ _ Hq) in Hidx. congruence.
  - eapply parse_None_of_raise; eassumption.
Qed.

Lemma parse_unreadable_date (line : string) :
  (forall text, date_text line = Ok text ->
                strptime text date_format = None) ->
  parse_log_line strptime line = Ok None.
Proof.
  intros Hbad.
  destruct (parse_log_line_body strptime line) as [entry|e] eqn:E.
  - apply body_Ok_inv in E as (text & Ht & Hs & _).
    rewrite (Hbad _ Ht) in Hs. discriminate.
  - eapply parse_None_of_raise; eassumption.
Qed.

(** The parser, anchor by anchor. *)
Lemma parse_log_line_fields (line : string) :
  parse_log_line strptime line = Ok (parsed_fields strptime line).
Proof.
  unfold parse_log_line, parse_log_line_body, parsed_fields, after.
  repeat first [ rewrite head_is_before by discriminate
               | rewrite split_second by discriminate
               | progress cbn [bind] ].
  destruct (cut "[" line) as [[a1 d]|];
    repeat first [ rewrite head_is_before by discriminate
                 | progress cbn [bind] ];
    [|reflexivity].
  destruct (cut dquote line) as [[a2 q]|];
    repeat first [ rewrite head_is_before by discriminate
                 | progress cbn [bind] ];
    [|reflexivity].
  destruct (cut (dquote ++ " ") line) as [[a3 s]|];
    repeat first [ rewrite head_is_before by discriminate
                 | progress cbn [bind] ];
    [|reflexivity].
  unfold call_strptime, date_format.
  destruct (strptime (before " +" (before "[" d)) "%d/%b/%Y:%H:%M:%S");
    reflexivity.
Qed.

End Outcomes.

(** Every line in the expected format has two quotes and a closing
    bracket. *)

Lemma count_char_append (c : ascii) (a b : string) :
  count_char c (a ++ b) = count_char c a + count_char c b.
Proof.
  induction a as [|x a IH]; [reflexivity|].
  change (String x a ++ b) with (String x (a ++ b)).
  cbn [count_char]. rewrite IH. lia.
Qed.

Lemma log_line_two_quotes (router date tz request status rest : string) :
  2 <= count_char quote_char (log_line router date tz request status rest).
Proof.
  unfold log_line. rewrite !count_char_append.
  change (count_char quote_char dquote) with 1. lia.
Qed.

Lemma log_line_closing_bracket
  (router date tz request status rest : string) :
  has_char "]" (log_line router date tz request status rest) = true.
Proof.
  unfold log_line. rewrite !has_char_append.
  change (has_char "]" "] ") with true.
  now rewrite !orb_true_r.
Qed.

End ParserFacts.

(** C1.  The line parser does not return no entry for every line that
    violates the expected format
    [<router> -  -  [<date> +<tz>] "<request>" <status> -<rest>].
    The line [line_without_opening_quote] is the line
    [R1 -  -  [01/Jan/2024:10:00:00 +0000] "GET /x.html" 200 -] with the
    quote before [GET] left out: it has one quote only, so it is not in the
    format whatever the fields; once the library reads its date it is parsed
    into an entry whose request is [" 200 -"], the text after the one quote.
    The line [line_without_closing_bracket] is the same line with the
    bracket after the zone left out: it has no closing bracket, so it is not
    in the format either, and it is parsed into the entry of the well-formed
    line. *)
Theorem parse_accepts_malformed_lines
  (strptime : string -> string -> option datetime) (ts : datetime) :
  strptime "01/Jan/2024:10:00:00" date_format = Some ts ->
  count_char quote_char line_without_opening_quote = 1
  /\ (forall router date tz request status rest,
         line_without_opening_quote
         <> log_line router date tz request status rest)
  /\ parse_log_line strptime line_without_opening_quote
     = Ok (Some {| router := "R1"; date := ts;
                   request := " 200 -"; status_code := "200" |})
  /\ Str.has_char "]" line_without_closing_bracket = false
  /\ (forall router date tz request status rest,
         line_without_closing_bracket
         <> log_line router date tz request status rest)
  /\ parse_log_line strptime line_without_closing_bracket
     = Ok (Some {| router := "R1"; date := ts;
                   request := "GET /x.html"; status_code := "200" |}).
Proof.
  intros Hts. unfold date_format in Hts.
  split; [reflexivity|]. split; [|split; [|split; [reflexivity|split]]].
  - intros router date tz request status rest Heq.
    pose proof (ParserFacts.log_line_two_quotes
                  router date tz request status rest) as Htwo.
    rewrite <- Heq in Htwo.
    change (count_char quote_char line_without_opening_quote) with 1 in Htwo.
    lia.
  - rewrite ParserFacts.parse_log_line_fields. unfold parsed_fields.
    change (after "[" line_without_opening_quote)
      with (Some ("01/Jan/2024:10:00:00 +0000] GET /x.html" ++ dquote
                  ++ " 200 -")).
    change (after dquote line_without_opening_quote) with (Some " 200 -").
    change (after (dquote ++ " ") line_without_opening_quote)
      with (Some "200 -").
    cbv beta iota.
    change (before " +" (before "[" _)) with "01/Jan/2024:10:00:00".
    unfold date_format. rewrite Hts. reflexivity.
  - intros router date tz request status rest Heq.
    pose proof (ParserFacts.log_line_closing_bracket
                  router date tz request status rest) as Hhas.
    rewrite <- Heq in Hhas. discriminate Hhas.
  - rewrite ParserFacts.parse_log_line_fields. unfold parsed_fields.
    change (after "[" line_without_closing_bracket)
      with (Some ("01/Jan/2024:10:00:00 +0000 " ++ dquote ++ "GET /x.html"
                  ++ dquote ++ " 200 -")).
    change (after dquote line_without_closing_bracket)
      with (Some ("GET /x.html" ++ dquote ++ " 200 -")).
    change (after (dquote ++ " ") line_without_closing_bracket)
      with (Some "200 -").
    cbv beta iota.
    change (before " +" (before "[" _)) with "01/Jan/2024:10:00:00".
    unfold date_format. rewrite Hts. reflexivity.
Qed.

Lemma parse_accepts_malformed_lines_witness :
  parse_log_line Strict.strptime line_without_opening_quote
  = Ok (Some {| router := "R1"; date := Datetime.make 2024 1 1 10 0 0;
                request := " 200 -"; status_code := "200" |})
  /\ parse_log_line Strict.strptime line_without_closing_bracket
     = Ok (Some {| router := "R1"; date := Datetime.make 2024 1 1 10 0 0;
                   request := "GET /x.html"; status_code := "200" |}).
Proof.
  pose proof (parse_accepts_malformed_lines Strict.strptime
                (Datetime.make 2024 1 1 10 0 0) eq_refl)
    as (_ & _ & Hquote & _ & _ & Hbracket).
  split; [exact Hquote | exact Hbracket].
Defined.



(** C2.  The line parser does not fail on every line without the separator
    [" -  -  ["]: the line [R1 [01/Jan/2024:10:00:00 +0000] "GET /x.html" 200 -]
    does not contain it and, once the library reads its date, is parsed into
    an entry whose router is the whole line. *)
Theorem parse_accepts_line_without_separator
  (strptime : string -> string -> option datetime) (ts : datetime) :
  strptime "01/Jan/2024:10:00:00" date_format = Some ts ->
  Str.contains " -  -  [" line_without_separator = false
  /\ parse_log_line strptime line_without_separator
     = Ok (Some {| router := line_without_separator; date := ts;
                   request := "GET /x.html"; status_code := "200" |}).
Proof.
  intros Hts. split; [reflexivity|].
  unfold parse_log_line, parse_log_line_body.
  change (index_list (Str.split " -  -  [" line_without_separator) 0)
    with (Ok line_without_separator).
  change (index_list (Str.split "[" line_without_separator) 1)
    with (Ok ("01/Jan/2024:10:00:00 +0000] " ++ dquote ++ "GET /x.html"
              ++ dquote ++ " 200 -")).
  cbn [bind].
  change (index_list (Str.split " +" _) 0) with (Ok "01/Jan/2024:10:00:00") at 1.
  change (index_list (Str.split dquote line_without_separator) 1)
    with (Ok "GET /x.html").
  cbn [bind].
  change (index_list (Str.split (dquote ++ " ") line_without_separator) 1)
    with (Ok "200 -").
  cbn [bind].
  change (index_list (Str.split " -" "200 -") 0) with (Ok "200").
  cbn [bind]. unfold call_strptime. unfold date_format in Hts. rewrite Hts.
  reflexivity.
Qed.

Lemma parse_accepts_line_without_separator_witness :
  Str.contains " -  -  [" line_without_separator = false
  /\ parse_log_line Strict.strptime line_without_separator
     = Ok (Some {| router := line_without_separator;
                   date := Datetime.make 2024 1 1 10 0 0;
                   request := "GET /x.html"; status_code := "200" |}).
Proof.
  apply (parse_accepts_line_without_separator Strict.strptime).
  reflexivity.
Defined.

(** * Counters and rankings *)

Module CountingFacts.

Section Lists.

Context {A : Type}.

Lemma StronglySorted_snoc (R : A -> A -> Prop) (l : list A) (x : A) :
  StronglySorted R l -> Forall (fun a => R a x) l ->
  StronglySorted R (l ++ [x])%list.
Proof.
  induction 1 as [|a l Hl IH Ha]; intros Hx; cbn [app].
  - constructor; constructor.
  - inversion Hx as [|? ? Hax Hlx]; subst. constructor.
    + now apply IH.
    + apply Forall_app. split; [exact Ha | now constructor].
Qed.

Lemma StronglySorted_app_inv (R : A -> A -> Prop) (l1 l2 : list A) :
  StronglySorted R (l1 ++ l2)%list ->
  StronglySorted R l1 /\ StronglySorted R l2
  /\ (forall a b, In a l1 -> In b l2 -> R a b).
Proof.
  induction l1 as [|x l1 IH]; cbn [app]; intros Hs.
  - repeat split; [constructor | exact Hs | intros a b []].
  - inversion Hs as [|? ? Hs' Hx]; subst.
    destruct (IH Hs') as (H1 & H2 & H12).
    apply Forall_app in Hx as [Hx1 Hx2]. repeat split.
    + now constructor.
    + exact H2.
    + intros a b [<-|Ha] Hb.
      * rewrite Forall_forall in Hx2. now apply Hx2.
      * now apply H12.
Qed.

Lemma StronglySorted_map {B : Type} (f : B -> A) (R : A -> A -> Prop)
  (l : list B) :
  StronglySorted R (map f l) <->
  StronglySorted (fun a b => R (f a) (f b)) l.
Proof.
  induction l as [|x l IH]; cbn [map].
  - split; constructor.
  - split; intros Hs; inversion Hs as [|? ? Hs' Hx]; subst; constructor.
    + now apply IH.
    + rewrite Forall_map in Hx. exact Hx.
    + now apply IH.
    + rewrite Forall_map. exact Hx.
Qed.

Lemma StronglySorted_weaken (R S : A -> A -> Prop) (l : list A) :
  (forall a b, In a l -> In b l -> R a b -> S a b) ->
  StronglySorted R l -> StronglySorted S l.
Proof.
  intros HRS Hs. induction Hs as [|x l Hs IH Hx]; constructor.
  - apply IH. intros a b Ha Hb. apply HRS; now right.
  - rewrite Forall_forall in Hx |- *. intros b Hb.
    apply HRS; [now left | now right | now apply Hx].
Qed.

Lemma In_firstn (x : A) (n : nat) (l : list A) :
  In x (firstn n l) -> In x l.
Proof.
  intros Hx. rewrite <- (firstn_skipn n l). apply in_or_app. now left.
Qed.

Lemma precedes_sorted (R : A -> A -> Prop) (a b : A) (l : list A) :
  StronglySorted R l -> precedes a b l -> R a b.
Proof.
  intros Hs (l1 & l2 & l3 & ->).
  apply StronglySorted_app_inv in Hs as (_ & Hs & _).
  inversion Hs as [|? ? _ Hx]; subst.
  rewrite Forall_forall in Hx. apply Hx.
  apply in_or_app. right. now left.
Qed.

Lemma precedes_or (a b : A) (l : list A) :
  In a l -> In b l -> a <> b -> precedes a b l \/ precedes b a l.
Proof.
  intros Ha Hb Hne. apply in_split in Ha as (l1 & l2 & ->).
  apply in_app_or in Hb as [Hb|[Hb|Hb]]; [| congruence |].
  - right. apply in_split in Hb as (m1 & m2 & ->).
    exists m1, m2, l2. now rewrite <- app_assoc.
  - left. apply in_split in Hb as (m1 & m2 & ->).
    now exists l1, m1, m2.
Qed.

Lemma precedes_firstn (a b : A) (n : nat) (l : list A) :
  NoDup l -> precedes a b l -> In b (firstn n l) ->
  precedes a b (firstn n l).
Proof.
  intros Hnd (l1 & l2 & l3 & ->) Hb.
  assert (Hnot : ~ In b (l1 ++ a :: l2)%list).
  { replace (l1 ++ a :: l2 ++ b :: l3)%list
      with ((l1 ++ a :: l2) ++ b :: l3)%list in Hnd
      by (rewrite <- app_assoc; reflexivity).
    apply NoDup_remove_2 in Hnd. intros Hin. apply Hnd.
    apply in_or_app. now left. }
  replace (l1 ++ a :: l2 ++ b :: l3)%list
    with ((l1 ++ a :: l2) ++ b :: l3)%list in Hb |- *
    by (rewrite <- app_assoc; reflexivity).
  rewrite firstn_app in Hb |- *.
  apply in_app_or in Hb as [Hb|Hb].
  - exfalso. apply Hnot. eapply In_firstn; eassumption.
  - destruct (n - List.length (l1 ++ a :: l2)) as [|m] eqn:Hm;
      [destruct Hb|].
    rewrite firstn_all2 by lia. cbn [firstn].
    exists l1, l2, (firstn m l3). rewrite <- app_assoc. reflexivity.
Qed.

End Lists.

Section Counters.

Context {K : Type} `{Key K}.

Lemma key_eqb_refl (k : K) : key_eqb k k = true.
Proof. destruct (key_eqb_spec k k); congruence. Qed.

(** *** Occurrences and first positions *)

Lemma occurrences_app (k : K) (l1 l2 : list K) :
  occurrences k (l1 ++ l2)%list = occurrences k l1 + occurrences k l2.
Proof.
  induction l1 as [|x l1 IH]; cbn [app occurrences]; [reflexivity|].
  rewrite IH. lia.
Qed.

Lemma occurrences_pos (k : K) (l : list K) :
  In k l <-> 0 < occurrences k l.
Proof.
  induction l as [|x l IH]; cbn [In occurrences]; [lia|].
  destruct (key_eqb_spec k x) as [->|Hne].
  - split; [lia | now left].
  - rewrite <- IH. split; [intros [?|?]; [congruence|assumption] | now right].
Qed.

Lemma first_index_app_l (k : K) (l1 l2 : list K) :
  In k l1 -> first_index k (l1 ++ l2)%list = first_index k l1.
Proof.
  induction l1 as [|x l1 IH]; intros Hin; [destruct Hin|].
  cbn [app first_index]. destruct (key_eqb_spec k x) as [->|Hne];
    [reflexivity|].
  destruct Hin as [->|Hin]; [congruence|]. now rewrite IH.
Qed.

Lemma first_index_lt (k : K) (l : list K) :
  In k l -> first_index k l < List.length l.
Proof.
  induction l as [|x l IH]; intros Hin; [destruct Hin|].
  cbn [first_index List.length]. destruct (key_eqb_spec k x) as [->|Hne];
    [lia|].
  destruct Hin as [->|Hin]; [congruence|]. apply IH in Hin. lia.
Qed.

Lemma first_index_absent (k : K) (l1 l2 : list K) :
  ~ In k l1 ->
  first_index k (l1 ++ l2)%list = List.length l1 + first_index k l2.
Proof.
  induction l1 as [|x l1 IH]; intros Hin; [reflexivity|].
  cbn [app first_index List.length].
  destruct (key_eqb_spec k x) as [->|Hne].
  - exfalso. apply Hin. now left.
  - rewrite IH; [lia|]. intros Hk. apply Hin. now right.
Qed.

(** *** [incr] *)

Lemma keys_incr_present (k : K) (c : counter K) :
  In k (map fst c) -> map fst (incr k c) = map fst c.
Proof.
  induction c as [|[k' n] c IH]; intros Hin; [destruct Hin|].
  cbn [incr]. destruct (key_eqb_spec k k') as [->|Hne]; [reflexivity|].
  cbn [map fst] in *. destruct Hin as [->|Hin]; [congruence|].
  now rewrite IH.
Qed.

Lemma keys_incr_absent (k : K) (c : counter K) :
  ~ In k (map fst c) -> map fst (incr k c) = (map fst c ++ [k])%list.
Proof.
  induction c as [|[k' n] c IH]; intros Hin; [reflexivity|].
  cbn [incr]. cbn [map fst] in Hin.
  destruct (key_eqb_spec k k') as [->|Hne].
  - exfalso. apply Hin. now left.
  - cbn [map fst app]. rewrite IH; [reflexivity|].
    intros Hk. apply Hin. now right.
Qed.

Lemma count_of_incr (k' k : K) (c : counter K) :
  count_of k' (incr k c)
  = count_of k' c + (if key_eqb k' k then 1 else 0).
Proof.
  induction c as [|[x n] c IH]; cbn [incr count_of].
  - destruct (key_eqb k' k); reflexivity.
  - destruct (key_eqb_spec k x) as [->|Hne]; cbn [count_of].
    + destruct (key_eqb k' x); lia.
    + destruct (key_eqb_spec k' x) as [->|Hne'].
      * destruct (key_eqb_spec x k); [congruence | lia].
      * exact IH.
Qed.

Lemma count_of_In (k : K) (n : nat) (c : counter K) :
  NoDup (map fst c) -> In (k, n) c -> count_of k c = n.
Proof.
  induction c as [|[x m] c IH]; intros Hnd Hin; [destruct Hin|].
  cbn [map fst] in Hnd. inversion Hnd as [|? ? Hx Hnd']; subst.
  cbn [count_of]. destruct Hin as [[= -> ->]|Hin].
  - now rewrite key_eqb_refl.
  - destruct (key_eqb_spec k x) as [->|Hne]; [|now apply IH].
    exfalso. apply Hx. apply (in_map fst) in Hin. exact Hin.
Qed.

Lemma In_count_of (k : K) (c : counter K) :
  In k (map fst c) -> In (k, count_of k c) c.
Proof.
  induction c as [|[x m] c IH]; intros Hin; [destruct Hin|].
  cbn [count_of]. destruct (key_eqb_spec k x) as [->|Hne]; [now left|].
  cbn [map fst] in Hin. destruct Hin as [->|Hin]; [congruence|].
  right. now apply IH.
Qed.

(** *** [Counter] *)

Lemma Counter_snoc (l : list K) (k : K) :
  Counter (l ++ [k])%list = incr k (Counter l).
Proof. unfold Counter. now rewrite fold_left_app. Qed.

Lemma keys_Counter (l : list K) (k : K) :
  In k (map fst (Counter l)) <-> In k l.
Proof.
  induction l as [|x l IH] using rev_ind; [reflexivity|].
  rewrite Counter_snoc, in_app_iff. cbn [In].
  destruct (in_dec (fun a b => reflect_dec _ _ (key_eqb_spec a b))
              x (map fst (Counter l))) as [Hin|Hin].
  - rewrite keys_incr_present by exact Hin. rewrite IH.
    split; [now left|]. intros [Hk|[<-|[]]]; [exact Hk | now apply IH].
  - rewrite keys_incr_absent by exact Hin. rewrite in_app_iff, IH.
    cbn [In]. reflexivity.
Qed.

Lemma NoDup_keys_Counter (l : list K) : NoDup (map fst (Counter l)).
Proof.
  induction l as [|x l IH] using rev_ind; [constructor|].
  rewrite Counter_snoc.
  destruct (in_dec (fun a b => reflect_dec _ _ (key_eqb_spec a b))
              x (map fst (Counter l))) as [Hin|Hin].
  - now rewrite keys_incr_present.
  - rewrite keys_incr_absent by exact Hin.
    apply NoDup_app; [exact IH | repeat constructor; intros [] |].
    intros a Ha [<-|[]]. contradiction.
Qed.

Lemma count_of_Counter (k : K) (l : list K) :
  count_of k (Counter l) = occurrences k l.
Proof.
  induction l as [|x l IH] using rev_ind; [reflexivity|].
  rewrite Counter_snoc, count_of_incr, occurrences_app, IH.
  cbn [occurrences]. lia.
Qed.

(** The items of a [Counter]: every key with its number of occurrences. *)
Lemma In_Counter (l : list K) (k : K) (n : nat) :
  In (k, n) (Counter l) <-> In k l /\ n = occurrences k l.
Proof.
  split.
  - intros Hin. split.
    + apply keys_Counter. apply (in_map fst) in Hin. exact Hin.
    + rewrite <- count_of_Counter. symmetry.
      apply count_of_In; [apply NoDup_keys_Counter | exact Hin].
  - intros [Hin ->]. rewrite <- count_of_Counter.
    apply In_count_of. now apply keys_Counter.
Qed.

(** The keys of a [Counter] stand in the order of their first occurrence. *)
Lemma keys_Counter_order (l : list K) :
  StronglySorted (fun a b => first_index a l < first_index b l)
    (map fst (Counter l)).
Proof.
  induction l as [|x l IH] using rev_ind; [constructor|].
  rewrite Counter_snoc.
  assert (Hold : StronglySorted
            (fun a b => first_index a (l ++ [x]) < first_index b (l ++ [x]))
            (map fst (Counter l))).
  { eapply StronglySorted_weaken; [|exact IH].
    intros a b Ha Hb Hab. rewrite keys_Counter in Ha, Hb.
    rewrite !first_index_app_l by assumption. exact Hab. }
  destruct (in_dec (fun a b => reflect_dec _ _ (key_eqb_spec a b))
              x (map fst (Counter l))) as [Hin|Hin].
  - now rewrite keys_incr_present.
  - rewrite keys_incr_absent by exact Hin.
    apply StronglySorted_snoc; [exact Hold|].
    rewrite Forall_forall. intros a Ha. rewrite keys_Counter in Ha.
    rewrite first_index_app_l by exact Ha.
    rewrite first_index_absent by (now rewrite <- keys_Counter).
    apply first_index_lt in Ha. lia.
Qed.

End Counters.

Section MostCommon.

Context {K : Type} `{Key K}.

Lemma insert_desc_perm (x : K * nat) (l : counter K) :
  Permutation (insert_desc x l) (x :: l).
Proof.
  induction l as [|y l IH]; cbn [insert_desc]; [reflexivity|].
  destruct (snd x <? snd y)%nat; [|reflexivity].
  rewrite IH. apply perm_swap.
Qed.

Lemma sorted_by_count_desc_perm (c : counter K) :
  Permutation (sorted_by_count_desc c) c.
Proof.
  induction c as [|x c IH]; cbn [sorted_by_count_desc fold_right];
    [reflexivity|].
  rewrite insert_desc_perm. now constructor.
Qed.

Section Stable.

(** [before a b]: [a] stood before [b] in the list that is sorted. *)
Variable before : K * nat -> K * nat -> Prop.

Lemma insert_desc_sorted (x : K * nat) (l : counter K) :
  StronglySorted (stable_rank before) l -> Forall (before x) l ->
  StronglySorted (stable_rank before) (insert_desc x l).
Proof.
  induction 1 as [|y l Hl IH Hy]; intros Hx; cbn [insert_desc].
  - repeat constructor.
  - inversion Hx as [|? ? Hxy Hxl]; subst.
    destruct (Nat.ltb_spec (snd x) (snd y)) as [Hlt|Hge].
    + constructor; [now apply IH|].
      rewrite (Forall_forall ((stable_rank before) y)). intros z Hz.
      apply (Permutation_in _ (insert_desc_perm x l)) in Hz.
      destruct Hz as [<-|Hz]; [now left|].
      rewrite Forall_forall in Hy. now apply Hy.
    + constructor; [now constructor|].
      constructor.
      * unfold stable_rank. destruct (Nat.eq_dec (snd x) (snd y)); [right|left];
          [now split | lia].
      * rewrite Forall_forall in Hy, Hxl |- *. intros z Hz.
        specialize (Hy z Hz). specialize (Hxl z Hz). unfold stable_rank in *.
        destruct (Nat.eq_dec (snd x) (snd z)); [right|left];
          [now split | lia].
Qed.

Lemma sorted_by_count_desc_sorted (c : counter K) :
  StronglySorted before c ->
  StronglySorted (stable_rank before) (sorted_by_count_desc c).
Proof.
  induction 1 as [|x c Hc IH Hx];
    cbn [sorted_by_count_desc fold_right]; [constructor|].
  apply insert_desc_sorted; [exact IH|].
  rewrite Forall_forall in Hx |- *. intros z Hz. apply Hx.
  apply (Permutation_in _ (sorted_by_count_desc_perm c)). exact Hz.
Qed.

End Stable.

(** *** Rankings *)

Lemma ranks_before_asym (l : list K) (a b : K * nat) :
  ranks_before l a b -> ranks_before l b a -> False.
Proof. unfold ranks_before. lia. Qed.

Lemma ranking_NoDup (l : list K) (r : counter K) :
  ranking_of l r -> NoDup r.
Proof. intros (_ & Hnd & _). eapply NoDup_map_inv, Hnd. Qed.

(** The sorted items of [Counter(l)] are the ranking of the keys of [l]. *)
Lemma ranking_of_sorted (l : list K) :
  ranking_of l (sorted_by_count_desc (Counter l)).
Proof.
  pose proof (sorted_by_count_desc_perm (Counter l)) as Hperm.
  split; [|split].
  - intros k n. rewrite <- In_Counter. split; intros Hin.
    + now apply (Permutation_in _ Hperm).
    + now apply (Permutation_in _ (Permutation_sym Hperm)).
  - eapply Permutation_NoDup;
      [apply Permutation_map, Permutation_sym, Hperm|].
    apply NoDup_keys_Counter.
  - apply (sorted_by_count_desc_sorted
             (fun a b => first_index (fst a) l < first_index (fst b) l)).
    apply (proj1 (StronglySorted_map fst
                    (fun a b => first_index a l < first_index b l) _)).
    apply keys_Counter_order.
Qed.

(** Two lists in the order of a ranking with the same items are equal. *)
Lemma sorted_unique (l : list K) (r1 r2 : counter K) :
  StronglySorted (ranks_before l) r1 ->
  StronglySorted (ranks_before l) r2 ->
  NoDup r1 -> NoDup r2 ->
  (forall x, In x r1 <-> In x r2) ->
  r1 = r2.
Proof.
  intros Hs1. revert r2.
  induction Hs1 as [|x1 r1 Hs1 IH Hx1]; intros r2 Hs2 Hn1 Hn2 Heq.
  - destruct r2 as [|x2 r2]; [reflexivity|].
    exfalso. apply (proj2 (Heq x2)). now left.
  - destruct Hs2 as [|x2 r2 Hs2 Hx2].
    + exfalso. apply (proj1 (Heq x1)). now left.
    + rewrite Forall_forall in Hx1, Hx2.
      assert (Hx : x1 = x2).
      { destruct (proj1 (Heq x1) (or_introl eq_refl)) as [E|Hin1];
          [now symmetry|].
        destruct (proj2 (Heq x2) (or_introl eq_refl)) as [E|Hin2];
          [exact E|].
        exfalso. eapply ranks_before_asym; [apply Hx1|apply Hx2]; eassumption. }
      subst x2. f_equal.
      inversion Hn1 as [|? ? Hnot1 Hn1']; subst.
      inversion Hn2 as [|? ? Hnot2 Hn2']; subst.
      apply IH; [exact Hs2 | exact Hn1' | exact Hn2' |].
      intros y. split; intros Hy.
      * destruct (proj1 (Heq y) (or_intror Hy)) as [E|Hin]; [|exact Hin].
        subst y. contradiction.
      * destruct (proj2 (Heq y) (or_intror Hy)) as [E|Hin]; [|exact Hin].
        subst y. contradiction.
Qed.

Lemma ranking_unique (l : list K) (r1 r2 : counter K) :
  ranking_of l r1 -> ranking_of l r2 -> r1 = r2.
Proof.
  intros H1 H2.
  pose proof (ranking_NoDup _ _ H1) as Hn1.
  pose proof (ranking_NoDup _ _ H2) as Hn2.
  destruct H1 as (Hin1 & _ & Hs1). destruct H2 as (Hin2 & _ & Hs2).
  apply (sorted_unique l); try assumption.
  intros [k n]. now rewrite Hin1, Hin2.
Qed.

(** An item that ranks before an item of the first [n] is one of the
    first [n] too, and stands before it. *)
Lemma ranking_firstn_closed (l : list K) (r : counter K) (n : nat)
  (a b : K * nat) :
  ranking_of l r -> In a r -> In b (firstn n r) ->
  ranks_before l a b -> precedes a b (firstn n r).
Proof.
  intros Hr Ha Hb Hab.
  pose proof (ranking_NoDup _ _ Hr) as Hnd.
  destruct Hr as (_ & _ & Hs).
  apply precedes_firstn; [exact Hnd | | exact Hb].
  destruct (precedes_or a b r Ha (In_firstn _ _ _ Hb)) as [Hp|Hp].
  - intros ->. eapply ranks_before_asym; eassumption.
  - exact Hp.
  - exfalso. apply (precedes_sorted _ _ _ _ Hs) in Hp.
    eapply ranks_before_asym; eassumption.
Qed.

(** [most_common] takes the first [n] of the ranking. *)
Lemma most_common_ranking (n : nat) (l : list K) :
  exists r,
    ranking_of l r
    /\ (forall r', ranking_of l r' -> r' = r)
    /\ most_common n (Counter l) = firstn n r.
Proof.
  exists (sorted_by_count_desc (Counter l)).
  split; [apply ranking_of_sorted|]. split; [|reflexivity].
  intros r' Hr'. apply (ranking_unique l); [exact Hr' | apply ranking_of_sorted].
Qed.

End MostCommon.

End CountingFacts.

(** * The aggregator *)

Module AggFacts.

Import CountingFacts.

Lemma sub_in_range (now : datetime) :
  clock_in_range now ->
  Datetime.sub now (Datetime.timedelta_days (56 * 30)) = Ok (window_start now).
Proof.
  unfold clock_in_range, Datetime.sub, window_start. intros [Hlo Hhi].
  destruct (Z.leb_spec 0 (now - Datetime.timedelta_days (56 * 30)));
    [|lia].
  destruct (Z.ltb_spec (now - Datetime.timedelta_days (56 * 30))
              Datetime.range_end); [reflexivity|].
  unfold Datetime.timedelta_days, Datetime.us_per_day,
    Datetime.us_per_second in *. lia.
Qed.

(** The division is guarded: [average_of] does not raise. *)
Lemma average_of_value (monthly : counter string) :
  average_of monthly
  = Ok (match monthly with
        | [] => 0%Q
        | _ :: _ =>
            (inject_Z (Z.of_nat (sum (map snd monthly)))
             / inject_Z (Z.of_nat (List.length monthly)))%Q
        end).
Proof. destruct monthly as [|x m]; reflexivity. Qed.

Lemma Counter_not_nil {K : Type} `{Key K} (l : list K) :
  l <> [] -> Counter l <> [].
Proof.
  destruct l as [|k l]; [congruence|]. intros _ Hnil.
  assert (Hin : In k (map fst (Counter (k :: l))))
    by (apply keys_Counter; now left).
  rewrite Hnil in Hin. destruct Hin.
Qed.

(** The head of the ranking, when there is a key. *)
Lemma most_common_1 {K : Type} `{Key K} (l : list K) :
  l <> [] ->
  exists top rest,
    ranking_of l (top :: rest) /\ most_common 1 (Counter l) = [top].
Proof.
  intros Hl. pose proof (ranking_of_sorted l) as Hr.
  unfold most_common.
  destruct (sorted_by_count_desc (Counter l)) as [|top rest] eqn:E.
  - exfalso. apply (Counter_not_nil l Hl).
    apply Permutation_nil. rewrite <- E.
    apply sorted_by_count_desc_perm.
  - now exists top, rest.
Qed.

Lemma popular_hour_of_value (es : list log_entry) :
  popular_hour_of es
  = Ok (match most_common 1 (Counter (hours_of es)) with
        | top :: _ => Some (fst top)
        | [] => None
        end).
Proof.
  unfold popular_hour_of. fold (hours_of es).
  destruct (hours_of es) as [|h hs] eqn:E; [reflexivity|].
  destruct (most_common_1 (h :: hs)) as (top & rest & _ & ->);
    [discriminate | reflexivity].
Qed.

(** With the clock in range, [generate_statistics] returns. *)
Lemma generate_statistics_value (es : list log_entry) (now : datetime) :
  clock_in_range now ->
  exists average hour,
    average_of (count_months (window_start now) es) = Ok average
    /\ popular_hour_of es = Ok hour
    /\ generate_statistics es now
       = Ok {| top_50_routers := most_common 50 (router_requests es);
               total_html_requests := List.length (html_requests es);
               top_50_pages := most_common 50 (page_requests es);
               average_page_loads_per_month := average;
               monthly_requests := sorted (count_months (window_start now) es);
               most_popular_time := hour;
               last_update := Datetime.strftime now "%d/%b/%Y %H:%M:%S" |}.
Proof.
  intros Hnow. unfold generate_statistics.
  rewrite (sub_in_range now Hnow). cbn [bind].
  rewrite average_of_value, popular_hour_of_value. cbn [bind].
  eexists _, _. repeat split.
Qed.

(** ** Rankings of a field of the entries *)

Section TopN.

Variable key : log_entry -> string.
Variable counted : string -> bool.

Lemma map_filter_key (es : list log_entry) :
  map key (filter (fun entry => counted (key entry)) es)
  = filter counted (map key es).
Proof.
  induction es as [|e es IH]; [reflexivity|].
  cbn [filter map]. destruct (counted (key e)); cbn [map]; now rewrite IH.
Qed.

Lemma occurrences_counted (es : list log_entry) (k : string) :
  occurrences k (filter counted (map key es))
  = if counted k then count_key key es k else 0.
Proof.
  unfold count_key, count_entries.
  induction es as [|e es IH]; [now destruct (counted k)|].
  cbn [map filter]. rewrite (String.eqb_sym (key e) k).
  destruct (counted (key e)) eqn:Hc.
  - cbn [occurrences key_eqb string_Key]. rewrite IH.
    destruct (String.eqb_spec k (key e)) as [E|E].
    + subst k. rewrite Hc. reflexivity.
    + reflexivity.
  - rewrite IH. destruct (String.eqb_spec k (key e)) as [E|E].
    + subst k. rewrite Hc. reflexivity.
    + reflexivity.
Qed.

Section Top.

Variables (es : list log_entry) (n : nat) (top : counter string).
Hypothesis Htop : ranked_top n (filter counted (map key es)) top.

Lemma top_items (k : string) (c : nat) :
  In (k, c) top -> counted k = true /\ c = count_key key es k /\ 0 < c.
Proof.
  destruct Htop as (r & (Hin & _) & _ & ->). intros Hk.
  apply In_firstn, Hin in Hk. destruct Hk as [Hk ->].
  pose proof (proj1 (occurrences_pos _ _) Hk) as Hpos.
  apply filter_In in Hk as [_ Hc].
  rewrite occurrences_counted, Hc in *. auto.
Qed.

Lemma top_length : List.length top <= n.
Proof.
  destruct Htop as (r & _ & _ & ->). rewrite length_firstn. lia.
Qed.

(** A counted key of a greater count stands before. *)
Lemma top_outranks (k1 k2 : string) (c2 : nat) :
  In (k2, c2) top -> counted k1 = true -> c2 < count_key key es k1 ->
  precedes (k1, count_key key es k1) (k2, c2) top.
Proof.
  destruct Htop as (r & Hr & _ & ->). intros H2 Hc Hlt.
  assert (Hocc : occurrences k1 (filter counted (map key es)) = count_key key es k1)
    by (now rewrite occurrences_counted, Hc).
  apply (ranking_firstn_closed (filter counted (map key es)));
    [exact Hr | | exact H2 | left; exact Hlt].
  apply (proj1 Hr). split; [|now rewrite Hocc].
  apply occurrences_pos. rewrite Hocc. lia.
Qed.

(** Among counted keys of the same count, the one that occurs first stands
    before. *)
Lemma top_tie (k1 k2 : string) (c2 : nat) :
  In (k2, c2) top -> counted k1 = true -> 0 < c2 ->
  c2 = count_key key es k1 ->
  first_index k1 (filter counted (map key es))
  < first_index k2 (filter counted (map key es)) ->
  precedes (k1, c2) (k2, c2) top.
Proof.
  destruct Htop as (r & Hr & _ & ->). intros H2 Hc Hpos Heq Hlt.
  assert (Hocc : occurrences k1 (filter counted (map key es)) = c2)
    by (now rewrite occurrences_counted, Hc).
  apply (ranking_firstn_closed (filter counted (map key es)));
    [exact Hr | | exact H2 | right; split; [reflexivity | exact Hlt]].
  apply (proj1 Hr). split; [|now rewrite Hocc].
  apply occurrences_pos. rewrite Hocc. exact Hpos.
Qed.

End Top.

End TopN.

Lemma router_requests_keys (es : list log_entry) :
  router_requests es = Counter (counted_routers es).
Proof.
  unfold router_requests, counted_routers. f_equal.
  apply (map_filter_key router router_counted).
Qed.

Lemma page_requests_keys (es : list log_entry) :
  page_requests es = Counter (counted_requests es).
Proof.
  unfold page_requests, counted_requests. f_equal.
  apply (map_filter_key request request_counted).
Qed.

Lemma ranked_top_most_common {K : Type} `{Key K} (n : nat) (ks : list K) :
  ranked_top n ks (most_common n (Counter ks)).
Proof. apply most_common_ranking. Qed.

Lemma router_counted_iff (k : string) :
  router_counted k = true <-> k <> loopback.
Proof.
  unfold router_counted. rewrite negb_true_iff. apply String.eqb_neq.
Qed.

Lemma request_counted_iff (q : string) :
  request_counted q = true <-> ~ excluded_request q.
Proof.
  unfold request_counted, excluded_request, ends_with, Str.endswith_any,
    ignored_requests.
  cbn [existsb]. rewrite negb_true_iff, !orb_false_r.
  rewrite <- !(StrFacts.endswith_iff q), <- !(String.eqb_eq q).
  destruct (Str.endswith q ".png"), (Str.endswith q ".ico"),
    (Str.endswith q ".css"), (String.eqb q "GET /"),
    (String.eqb q "GET /styles.css"), (String.eqb q "GET /favicon.png"),
    (String.eqb q "HEAD /"); cbn [orb]; intuition congruence.
Qed.

End AggFacts.

(** C3.  With the clock in range the aggregator returns, and its top routers
    are the first 50 of the ranking of the routers of the entries other than
    the loopback token [127.0.0.1]: each router once with the number of
    entries that have it, a greater count first and, among equal counts, the
    router that occurs first.  The loopback token is not in the result; a
    router of a greater count than one of the result stands before it (A
    with 5 entries before B with 3), and so does a router of the same count
    that occurs earlier. *)
Theorem top_routers_spec (es : list log_entry) (now : datetime) :
  clock_in_range now ->
  exists st,
    generate_statistics es now = Ok st
    /\ ranked_top 50 (counted_routers es) (top_50_routers st)
    /\ (forall k, occurrences k (counted_routers es)
                  = if router_counted k then count_entries (has_router k) es
                    else 0)
    /\ (forall k c, In (k, c) (top_50_routers st) ->
                    k <> loopback /\ c = count_entries (has_router k) es
                    /\ 0 < c)
    /\ List.length (top_50_routers st) <= 50
    /\ (forall k1 k2 c2,
           In (k2, c2) (top_50_routers st) -> k1 <> loopback ->
           c2 < count_entries (has_router k1) es ->
           precedes (k1, count_entries (has_router k1) es) (k2, c2)
             (top_50_routers st))
    /\ (forall k1 k2 c2,
           In (k2, c2) (top_50_routers st) -> k1 <> loopback ->
           c2 = count_entries (has_router k1) es ->
           first_index k1 (counted_routers es)
           < first_index k2 (counted_routers es) ->
           precedes (k1, c2) (k2, c2) (top_50_routers st))
    /\ ~ In loopback (map fst (top_50_routers st)).
Proof.
  intros Hnow.
  destruct (AggFacts.generate_statistics_value es now Hnow)
    as (average & hour & _ & _ & Hgs).
  eexists. split; [exact Hgs|]. cbn [top_50_routers].
  rewrite AggFacts.router_requests_keys.
  pose proof (AggFacts.ranked_top_most_common 50 (counted_routers es)) as Htop.
  split; [exact Htop|]. split; [|split; [|split; [|split; [|split]]]].
  - intros k. apply (AggFacts.occurrences_counted router router_counted).
  - intros k c Hin.
    destruct (AggFacts.top_items router router_counted es 50 _ Htop k c Hin)
      as (Hk & Hc & Hpos).
    apply AggFacts.router_counted_iff in Hk. auto.
  - apply (AggFacts.top_length router router_counted es 50 _ Htop).
  - intros k1 k2 c2 Hin Hk1 Hlt.
    apply (AggFacts.top_outranks router router_counted es 50 _ Htop);
      [exact Hin | now apply AggFacts.router_counted_iff | exact Hlt].
  - intros k1 k2 c2 Hin Hk1 Heq Hlt.
    destruct (AggFacts.top_items router router_counted es 50 _ Htop _ _ Hin)
      as (_ & _ & Hpos).
    apply (AggFacts.top_tie router router_counted es 50 _ Htop);
      [exact Hin | now apply AggFacts.router_counted_iff | exact Hpos
      | exact Heq | exact Hlt].
  - intros Hin. apply in_map_iff in Hin as ([k c] & Hk & Hin).
    cbn [fst] in Hk. subst k.
    destruct (AggFacts.top_items router router_counted es 50 _ Htop _ _ Hin)
      as (Hk & _). discriminate.
Qed.

Lemma top_routers_spec_witness :
  clock_in_range example_now
  /\ exists st,
      generate_statistics router_example example_now = Ok st
      /\ top_50_routers st = [("A", 5); ("B", 3)].
Proof.
  assert (Hnow : clock_in_range example_now) by (vm_compute; split; congruence).
  split; [exact Hnow|].
  destruct (top_routers_spec router_example example_now Hnow) as (st & Hst & _).
  exists st. split; [exact Hst|].
  revert Hst. vm_compute. intros [= <-]. reflexivity.
Defined.

(** C4.  With the clock in range the aggregator returns, and its top pages
    are the first 50 of the ranking of the requests of the entries, counted
    by the exact request string, leaving out the requests that end in
    [.png], [.ico] or [.css] and the four ignored requests [GET /],
    [GET /styles.css], [GET /favicon.png] and [HEAD /]: a greater count
    first.  [GET /favicon.png] is not in the result, and a request of a
    greater count than one of the result stands before it (count 10 before
    count 5). *)
Theorem top_pages_spec (es : list log_entry) (now : datetime) :
  clock_in_range now ->
  exists st,
    generate_statistics es now = Ok st
    /\ ranked_top 50 (counted_requests es) (top_50_pages st)
    /\ (forall q, request_counted q = true <-> ~ excluded_request q)
    /\ (forall q, occurrences q (counted_requests es)
                  = if request_counted q then count_entries (has_request q) es
                    else 0)
    /\ (forall q c, In (q, c) (top_50_pages st) ->
                    ~ excluded_request q
                    /\ c = count_entries (has_request q) es /\ 0 < c)
    /\ List.length (top_50_pages st) <= 50
    /\ (forall q1 q2 c2,
           In (q2, c2) (top_50_pages st) -> ~ excluded_request q1 ->
           c2 < count_entries (has_request q1) es ->
           precedes (q1, count_entries (has_request q1) es) (q2, c2)
             (top_50_pages st))
    /\ ~ In "GET /favicon.png" (map fst (top_50_pages st)).
Proof.
  intros Hnow.
  destruct (AggFacts.generate_statistics_value es now Hnow)
    as (average & hour & _ & _ & Hgs).
  eexists. split; [exact Hgs|]. cbn [top_50_pages].
  rewrite AggFacts.page_requests_keys.
  pose proof (AggFacts.ranked_top_most_common 50 (counted_requests es)) as Htop.
  split; [exact Htop|]. split; [|split; [|split; [|split; [|split]]]].
  - apply AggFacts.request_counted_iff.
  - intros q. apply (AggFacts.occurrences_counted request request_counted).
  - intros q c Hin.
    destruct (AggFacts.top_items request request_counted es 50 _ Htop q c Hin)
      as (Hq & Hc & Hpos).
    apply AggFacts.request_counted_iff in Hq. auto.
  - apply (AggFacts.top_length request request_counted es 50 _ Htop).
  - intros q1 q2 c2 Hin Hq1 Hlt.
    apply (AggFacts.top_outranks request request_counted es 50 _ Htop);
      [exact Hin | now apply AggFacts.request_counted_iff | exact Hlt].
  - intros Hin. apply in_map_iff in Hin as ([q c] & Hq & Hin).
    cbn [fst] in Hq. subst q.
    destruct (AggFacts.top_items request request_counted es 50 _ Htop _ _ Hin)
      as (Hq & _). discriminate.
Qed.

Lemma top_pages_spec_witness :
  clock_in_range example_now
  /\ exists st,
      generate_statistics page_example example_now = Ok st
      /\ top_50_pages st = [("GET /index.html", 10); ("GET /other.html", 5)].
Proof.
  assert (Hnow : clock_in_range example_now) by (vm_compute; split; congruence).
  split; [exact Hnow|].
  destruct (top_pages_spec page_example example_now Hnow) as (st & Hst & _).
  exists st. split; [exact Hst|].
  revert Hst. vm_compute. intros [= <-]. reflexivity.
Defined.

(** C9.  With the clock in range the aggregator returns, and its total
    page-load count is the number of entries whose request contains [.html]
    somewhere: the request is [a ++ ".html" ++ b] for some texts [a] and [b],
    whatever follows.  The count is that of any test [P] that decides this,
    and [".html" in request] is such a test. *)
Theorem total_html_requests_spec (es : list log_entry) (now : datetime) :
  clock_in_range now ->
  exists st,
    generate_statistics es now = Ok st
    /\ (forall entry,
          Str.contains ".html" (request entry) = true <-> mentions_html entry)
    /\ (forall P : log_entry -> bool,
          (forall entry, P entry = true <-> mentions_html entry) ->
          total_html_requests st = count_entries P es).
Proof.
  intros Hnow.
  destruct (AggFacts.generate_statistics_value es now Hnow)
    as (average & hour & _ & _ & Hgs).
  eexists. split; [exact Hgs|]. cbn [total_html_requests].
  split; [intros entry; apply StrFacts.contains_iff|].
  intros P HP. unfold html_requests, count_entries. f_equal.
  apply filter_ext. intros entry.
  pose proof (StrFacts.contains_iff ".html" (request entry)) as Hc.
  specialize (HP entry). unfold mentions_html in HP.
  destruct (Str.contains ".html" (request entry)), (P entry); try reflexivity.
  - symmetry. apply HP, Hc. reflexivity.
  - apply Hc, HP. reflexivity.
Qed.

Lemma total_html_requests_spec_witness :
  clock_in_range example_now
  /\ exists st,
      generate_statistics
        [entry_of "A" "GET /x.html" noon;
         entry_of "A" "GET /docs.html?page=2" noon;
         entry_of "B" "GET /styles.css" noon] example_now = Ok st
      /\ total_html_requests st = 2.
Proof.
  assert (Hnow : clock_in_range example_now) by (vm_compute; split; congruence).
  split; [exact Hnow|].
  destruct (total_html_requests_spec
              [entry_of "A" "GET /x.html" noon;
               entry_of "A" "GET /docs.html?page=2" noon;
               entry_of "B" "GET /styles.css" noon] example_now Hnow)
    as (st & Hst & _).
  exists st. split; [exact Hst|].
  revert Hst. vm_compute. intros [= <-]. reflexivity.
Defined.

(** C7.  With the clock in range the aggregator returns.  For no entries
    the most popular hour is [None].  Otherwise it is an hour [h] between 0
    and 23 of some entry such that, over the hours of all the entries (there
    is no window here), every other hour occurs less often, or as often and
    then first occurs later than [h]. *)
Theorem most_popular_hour_spec (es : list log_entry) (now : datetime) :
  clock_in_range now ->
  exists st,
    generate_statistics es now = Ok st
    /\ (es = [] -> most_popular_time st = None)
    /\ (es <> [] ->
        exists h,
          most_popular_time st = Some h
          /\ In h (hours_of es)
          /\ (0 <= h <= 23)%Z
          /\ forall h', In h' (hours_of es) -> h' <> h ->
               occurrences h' (hours_of es) < occurrences h (hours_of es)
               \/ (occurrences h' (hours_of es) = occurrences h (hours_of es)
                   /\ first_index h (hours_of es)
                      < first_index h' (hours_of es))).
Proof.
  intros Hnow.
  destruct (AggFacts.generate_statistics_value es now Hnow)
    as (average & hour & _ & Hhour & Hgs).
  eexists. split; [exact Hgs|]. cbn [most_popular_time].
  rewrite AggFacts.popular_hour_of_value in Hhour. injection Hhour as <-.
  split.
  - intros ->. reflexivity.
  - intros Hes.
    assert (Hhs : hours_of es <> [])
      by (destruct es; [congruence | discriminate]).
    destruct (AggFacts.most_common_1 (hours_of es) Hhs)
      as ([h c] & rest & (Hin & Hnd & Hsorted) & ->).
    exists h. cbn [fst].
    destruct (proj1 (Hin h c) (or_introl eq_refl)) as [Hh Hc].
    split; [reflexivity|]. split; [exact Hh|]. split.
    + unfold hours_of in Hh. apply in_map_iff in Hh as (entry & <- & _).
      unfold Datetime.hour.
      pose proof (Z.mod_pos_bound (date entry / Datetime.us_per_hour) 24).
      lia.
    + intros h' Hh' Hne.
      assert (Hin' : In (h', occurrences h' (hours_of es)) rest).
      { destruct (proj2 (Hin h' _) (conj Hh' eq_refl)) as [E|Hr];
          [congruence | exact Hr]. }
      inversion Hsorted as [|? ? _ Hall]; subst.
      rewrite Forall_forall in Hall. specialize (Hall _ Hin').
      unfold ranks_before in Hall. cbn [fst snd] in Hall. lia.
Qed.

Lemma most_popular_hour_spec_witness :
  clock_in_range example_now
  /\ exists st,
      generate_statistics
        [entry_of "A" "GET /a" (Datetime.make 2024 1 5 9 15 0);
         entry_of "B" "GET /b" (Datetime.make 2023 7 1 21 0 0);
         entry_of "C" "GET /c" (Datetime.make 2010 3 9 21 59 59);
         entry_of "D" "GET /d" (Datetime.make 2024 2 2 9 0 1)] example_now
      = Ok st
      /\ most_popular_time st = Some 9%Z.
Proof.
  assert (Hnow : clock_in_range example_now) by (vm_compute; split; congruence).
  split; [exact Hnow|].
  destruct (most_popular_hour_spec
              [entry_of "A" "GET /a" (Datetime.make 2024 1 5 9 15 0);
               entry_of "B" "GET /b" (Datetime.make 2023 7 1 21 0 0);
               entry_of "C" "GET /c" (Datetime.make 2010 3 9 21 59 59);
               entry_of "D" "GET /d" (Datetime.make 2024 2 2 9 0 1)]
              example_now Hnow)
    as (st & Hst & _).
  exists st. split; [exact Hst|].
  revert Hst. vm_compute. intros [= <-]. reflexivity.
Defined.

(** * The monthly roll-up *)

Module MonthFacts.

Import CountingFacts.

(** ** The order of strings *)

Lemma ascii_compare_refl (c : ascii) : Ascii.compare c c = Eq.
Proof. unfold Ascii.compare. apply N.compare_refl. Qed.

Lemma ascii_compare_lt_trans (a b c : ascii) :
  Ascii.compare a b = Lt -> Ascii.compare b c = Lt -> Ascii.compare a c = Lt.
Proof.
  unfold Ascii.compare. rewrite !N.compare_lt_iff. apply N.lt_trans.
Qed.

Lemma compare_lt_trans (a b c : string) :
  String.compare a b = Lt -> String.compare b c = Lt ->
  String.compare a c = Lt.
Proof.
  revert b c. induction a as [|x a IH]; intros [|y b] [|z c];
    cbn [String.compare]; try discriminate; try reflexivity.
  destruct (Ascii.compare x y) eqn:Exy; try discriminate;
    destruct (Ascii.compare y z) eqn:Eyz; try discriminate; intros Hab Hbc.
  - apply Ascii.compare_eq_iff in Exy, Eyz. subst.
    rewrite ascii_compare_refl. now apply (IH b c).
  - apply Ascii.compare_eq_iff in Exy. subst. now rewrite Eyz.
  - apply Ascii.compare_eq_iff in Eyz. subst. now rewrite Exy.
  - now rewrite (ascii_compare_lt_trans _ _ _ Exy Eyz).
Qed.

Lemma ltb_trans (a b c : string) :
  String.ltb a b = true -> String.ltb b c = true -> String.ltb a c = true.
Proof.
  unfold String.ltb. intros Hab Hbc.
  destruct (String.compare a b) eqn:Eab; try discriminate.
  destruct (String.compare b c) eqn:Ebc; try discriminate.
  now rewrite (compare_lt_trans _ _ _ Eab Ebc).
Qed.

Lemma ltb_connected (a b : string) :
  a <> b -> String.ltb a b = false -> String.ltb b a = true.
Proof.
  unfold String.ltb. intros Hne. rewrite (String.compare_antisym b a).
  destruct (String.compare a b) eqn:E; try discriminate; [|reflexivity].
  apply String.compare_eq_iff in E. contradiction.
Qed.

(** ** [sorted] *)

Lemma item_ltb_keys (a b : string * nat) :
  fst a <> fst b -> item_ltb a b = String.ltb (fst a) (fst b).
Proof.
  intros Hne. unfold item_ltb. apply String.eqb_neq in Hne. rewrite Hne.
  cbn [andb]. apply orb_false_r.
Qed.

Lemma insert_item_perm (x : string * nat) (l : list (string * nat)) :
  Permutation (insert_item x l) (x :: l).
Proof.
  induction l as [|y l IH]; cbn [insert_item]; [reflexivity|].
  destruct (item_ltb y x); [|reflexivity].
  rewrite IH. apply perm_swap.
Qed.

Lemma sorted_perm (l : list (string * nat)) : Permutation (sorted l) l.
Proof.
  induction l as [|x l IH]; cbn [sorted fold_right]; [reflexivity|].
  rewrite insert_item_perm. now constructor.
Qed.

Lemma insert_item_sorted (x : string * nat) (l : list (string * nat)) :
  ~ In (fst x) (map fst l) ->
  StronglySorted key_lt l -> StronglySorted key_lt (insert_item x l).
Proof.
  intros Hx Hs. induction Hs as [|y l Hs IH Hy]; cbn [insert_item].
  - repeat constructor.
  - cbn [map In] in Hx.
    assert (Hne : fst y <> fst x) by tauto.
    rewrite (item_ltb_keys _ _ Hne).
    destruct (String.ltb (fst y) (fst x)) eqn:Hlt.
    + constructor; [apply IH; tauto|].
      rewrite Forall_forall in Hy |- *. intros z Hz.
      apply (Permutation_in _ (insert_item_perm x l)) in Hz.
      destruct Hz as [<-|Hz]; [exact Hlt | now apply Hy].
    + pose proof (ltb_connected _ _ Hne Hlt) as Hxy.
      constructor; [now constructor|]. constructor; [exact Hxy|].
      rewrite Forall_forall in Hy |- *. intros z Hz.
      unfold key_lt in *. eapply ltb_trans; [exact Hxy | now apply Hy].
Qed.

Lemma sorted_sorted (l : list (string * nat)) :
  NoDup (map fst l) -> StronglySorted key_lt (sorted l).
Proof.
  induction l as [|x l IH]; cbn [sorted fold_right map]; intros Hnd;
    [constructor|].
  inversion Hnd as [|? ? Hx Hnd']; subst.
  apply insert_item_sorted; [|now apply IH].
  intros Hin. apply Hx.
  eapply Permutation_in; [apply Permutation_map, sorted_perm | exact Hin].
Qed.

(** ** The loop over the entries *)

Lemma count_months_fold (b : datetime) (es : list log_entry)
  (acc : counter string) :
  fold_left
    (fun monthly entry =>
       if Datetime.gt (date entry) b
       then incr (Datetime.strftime (date entry) "%Y-%m") monthly
       else monthly) es acc
  = fold_left (fun c k => incr k c)
      (map month_key (filter (fun entry => Datetime.gt (date entry) b) es)) acc.
Proof.
  revert acc. induction es as [|e es IH]; intros acc; [reflexivity|].
  cbn [fold_left filter]. destruct (Datetime.gt (date e) b);
    cbn [map fold_left]; apply IH.
Qed.

Lemma count_months_Counter (now : datetime) (es : list log_entry) :
  count_months (window_start now) es
  = Counter (map month_key (filter (in_window now) es)).
Proof. unfold count_months, Counter. apply count_months_fold. Qed.

Lemma occurrences_month (now : datetime) (es : list log_entry) (k : string) :
  occurrences k (map month_key (filter (in_window now) es))
  = count_entries (in_month now k) es.
Proof.
  unfold count_entries, in_month.
  induction es as [|e es IH]; [reflexivity|].
  cbn [filter]. destruct (in_window now e); cbn [andb map occurrences];
    [|exact IH].
  cbn [key_eqb string_Key]. rewrite (String.eqb_sym (month_key e) k).
  destruct (String.eqb k (month_key e)); cbn [List.length]; now rewrite IH.
Qed.

(** The items of the roll-up. *)
Lemma In_monthly (now : datetime) (es : list log_entry) (k : string) (n : nat) :
  In (k, n) (sorted (count_months (window_start now) es))
  <-> 0 < n /\ n = count_entries (in_month now k) es.
Proof.
  rewrite count_months_Counter, <- occurrences_month.
  split.
  - intros Hin. apply (Permutation_in _ (sorted_perm _)) in Hin.
    apply In_Counter in Hin as [Hk ->]. split; [|reflexivity].
    now apply occurrences_pos.
  - intros [Hpos ->].
    apply (Permutation_in _ (Permutation_sym (sorted_perm _))).
    apply In_Counter. split; [|reflexivity]. now apply occurrences_pos.
Qed.

Lemma monthly_sorted (now : datetime) (es : list log_entry) :
  StronglySorted key_lt (sorted (count_months (window_start now) es)).
Proof.
  apply sorted_sorted. rewrite count_months_Counter.
  apply NoDup_keys_Counter.
Qed.

End MonthFacts.

(** C5.  With the clock in range the aggregator returns, and its monthly
    roll-up lists, in ascending order of the month key, each key [YYYY-MM]
    (four digits of the year, a dash, two digits of the month) with the
    number of entries of that month whose timestamp is after
    [now - 56 * 30 days], for the months that have such an entry.  An entry
    at that instant or one second before it is outside the window and one a
    second after it is inside: alone, the entry one second before gives an
    empty roll-up and the entry one second after its month with count 1. *)
Theorem monthly_rollup_spec (es : list log_entry) (now : datetime) :
  clock_in_range now ->
  exists st,
    generate_statistics es now = Ok st
    /\ StronglySorted key_lt (monthly_requests st)
    /\ (forall k n,
          In (k, n) (monthly_requests st)
          <-> 0 < n /\ n = count_entries (in_month now k) es)
    /\ (forall entry,
          in_window now entry = true
          <-> (now - Datetime.timedelta_days (56 * 30) < date entry)%Z)
    /\ (forall entry,
          month_key entry
          = Datetime.digits4 (Datetime.year (date entry)) ++ "-"
            ++ Datetime.digits2 (Datetime.month (date entry)))
    /\ (forall entry,
          date entry = window_start now -> in_window now entry = false)
    /\ (forall entry,
          date entry = (window_start now - Datetime.timedelta_seconds 1)%Z ->
          in_window now entry = false
          /\ exists st1,
              generate_statistics [entry] now = Ok st1
              /\ monthly_requests st1 = [])
    /\ (forall entry,
          date entry = (window_start now + Datetime.timedelta_seconds 1)%Z ->
          in_window now entry = true
          /\ exists st1,
              generate_statistics [entry] now = Ok st1
              /\ monthly_requests st1 = [(month_key entry, 1)]).
Proof.
  intros Hnow.
  destruct (AggFacts.generate_statistics_value es now Hnow)
    as (average & hour & _ & _ & Hgs).
  eexists. split; [exact Hgs|]. cbn [monthly_requests].
  split; [apply MonthFacts.monthly_sorted|].
  split; [apply MonthFacts.In_monthly|].
  assert (Hwin : forall entry,
             in_window now entry = true
             <-> (now - Datetime.timedelta_days (56 * 30) < date entry)%Z).
  { intros entry. unfold in_window, Datetime.gt, window_start.
    apply Z.ltb_lt. }
  split; [exact Hwin|]. split; [reflexivity|]. split; [|split].
  - intros entry Hdate. apply not_true_is_false. rewrite Hwin, Hdate.
    unfold window_start. lia.
  - intros entry Hdate.
    assert (Hout : in_window now entry = false).
    { apply not_true_is_false. rewrite Hwin, Hdate. unfold window_start.
      cbv [Datetime.timedelta_seconds Datetime.us_per_second]. lia. }
    split; [exact Hout|].
    destruct (AggFacts.generate_statistics_value [entry] now Hnow)
      as (average1 & hour1 & _ & _ & Hgs1).
    eexists. split; [exact Hgs1|]. cbn [monthly_requests].
    rewrite MonthFacts.count_months_Counter. cbn [filter].
    rewrite Hout. reflexivity.
  - intros entry Hdate.
    assert (Hin : in_window now entry = true).
    { rewrite Hwin, Hdate. unfold window_start.
      cbv [Datetime.timedelta_seconds Datetime.us_per_second]. lia. }
    split; [exact Hin|].
    destruct (AggFacts.generate_statistics_value [entry] now Hnow)
      as (average1 & hour1 & _ & _ & Hgs1).
    eexists. split; [exact Hgs1|]. cbn [monthly_requests].
    rewrite MonthFacts.count_months_Counter. cbn [filter].
    rewrite Hin. reflexivity.
Qed.

Lemma monthly_rollup_spec_witness :
  clock_in_range example_now
  /\ exists st,
      generate_statistics month_example example_now = Ok st
      /\ monthly_requests st = [("2024-01", 10); ("2024-02", 20)].
Proof.
  assert (Hnow : clock_in_range example_now) by (vm_compute; split; congruence).
  split; [exact Hnow|].
  destruct (monthly_rollup_spec month_example example_now Hnow)
    as (st & Hst & _).
  exists st. split; [exact Hst|].
  revert Hst. vm_compute. intros [= <-]. reflexivity.
Defined.

(** * The average *)

Module AverageFacts.

Lemma sum_from (l : list nat) (a : nat) :
  fold_left Nat.add l a = a + list_sum l.
Proof.
  revert a. induction l as [|x l IH]; intros a; simpl; [lia|].
  rewrite IH. lia.
Qed.

Lemma sum_list_sum (l : list nat) : sum l = list_sum l.
Proof. unfold sum. now rewrite sum_from. Qed.

Lemma sum_perm (l1 l2 : list nat) : Permutation l1 l2 -> sum l1 = sum l2.
Proof.
  intros Hp. rewrite !sum_list_sum. now apply Permutation_list_sum.
Qed.

(** Sum and number of months do not depend on the order of the roll-up. *)
Lemma sum_sorted (monthly : counter string) :
  sum (map snd (sorted monthly)) = sum (map snd monthly).
Proof. apply sum_perm, Permutation_map, MonthFacts.sorted_perm. Qed.

Lemma length_sorted (monthly : counter string) :
  List.length (sorted monthly) = List.length monthly.
Proof. apply Permutation_length, MonthFacts.sorted_perm. Qed.

Lemma sorted_nil_iff (monthly : counter string) :
  sorted monthly = [] <-> monthly = [].
Proof.
  split; [|now intros ->].
  intros Hs. apply length_zero_iff_nil.
  now rewrite <- length_sorted, Hs.
Qed.

End AverageFacts.

(** C6.  With the clock in range the aggregator returns (the division raises
    nothing), and its average monthly load is 0 when the roll-up has no
    month, and otherwise the quotient of the sum of the counts of the roll-up
    by the number of its months; the quotient is held exactly.  For the
    roll-up 2024-01: 10, 2024-02: 20 it is 15, and for an empty one 0. *)
Theorem average_monthly_load_spec (es : list log_entry) (now : datetime) :
  clock_in_range now ->
  exists st,
    generate_statistics es now = Ok st
    /\ (monthly_requests st = [] ->
        average_page_loads_per_month st = 0%Q)
    /\ (monthly_requests st <> [] ->
        average_page_loads_per_month st
        = (inject_Z (Z.of_nat (sum (map snd (monthly_requests st))))
           / inject_Z (Z.of_nat (List.length (monthly_requests st))))%Q)
    /\ (average_page_loads_per_month st
        * inject_Z (Z.of_nat (List.length (monthly_requests st)))
        == inject_Z (Z.of_nat (sum (map snd (monthly_requests st)))))%Q
    /\ (exists q, average_of [("2024-01", 10); ("2024-02", 20)] = Ok q
                  /\ (q == 15)%Q)
    /\ average_of [] = Ok 0%Q.
Proof.
  intros Hnow.
  destruct (AggFacts.generate_statistics_value es now Hnow)
    as (average & hour & Havg & _ & Hgs).
  eexists. split; [exact Hgs|].
  cbn [monthly_requests average_page_loads_per_month].
  rewrite AggFacts.average_of_value in Havg. injection Havg as <-.
  rewrite AverageFacts.sum_sorted, AverageFacts.length_sorted,
    AverageFacts.sorted_nil_iff.
  assert (Hexample :
            (exists q, average_of [("2024-01", 10); ("2024-02", 20)] = Ok q
                       /\ (q == 15)%Q)
            /\ average_of [] = Ok 0%Q).
  { split; [|reflexivity]. eexists. split; reflexivity. }
  destruct (count_months (window_start now) es) as [|x monthly] eqn:E.
  - split; [reflexivity|]. split; [congruence|]. split; [reflexivity|].
    exact Hexample.
  - split; [discriminate|]. split; [reflexivity|]. split; [|exact Hexample].
    rewrite Qmult_comm. apply Qmult_div_r.
    intros Hq. unfold Qeq, inject_Z in Hq. cbn [Qnum Qden List.length] in Hq.
    lia.
Qed.

Lemma average_monthly_load_spec_witness :
  clock_in_range example_now
  /\ exists st,
      generate_statistics month_example example_now = Ok st
      /\ monthly_requests st = [("2024-01", 10); ("2024-02", 20)]
      /\ (average_page_loads_per_month st == 15)%Q.
Proof.
  assert (Hnow : clock_in_range example_now) by (vm_compute; split; congruence).
  split; [exact Hnow|].
  destruct (average_monthly_load_spec month_example example_now Hnow)
    as (st & Hst & _).
  exists st. split; [exact Hst|].
  revert Hst. vm_compute. intros [= <-]. split; reflexivity.
Defined.

(** * Reports at two times, and entries with other routers *)

Module CompareFacts.

Lemma filter_length_map {A B : Type} (f : A -> B) (p : B -> bool)
  (l : list A) :
  List.length (filter (fun a => p (f a)) l)
  = List.length (filter p (map f l)).
Proof.
  induction l as [|a l IH]; [reflexivity|].
  cbn [filter map]. destruct (p (f a)); cbn [List.length]; now rewrite IH.
Qed.

Lemma map_filter_map {A B C : Type} (f : A -> B) (p : B -> bool) (g : B -> C)
  (l : list A) :
  map (fun a => g (f a)) (filter (fun a => p (f a)) l)
  = map g (filter p (map f l)).
Proof.
  induction l as [|a l IH]; [reflexivity|].
  cbn [filter map]. destruct (p (f a)); cbn [map]; now rewrite IH.
Qed.

(** What each statistic reads of the entries. *)

Lemma html_requests_reads (es : list log_entry) :
  List.length (html_requests es)
  = List.length (filter (Str.contains ".html") (map request es)).
Proof. apply (filter_length_map request (Str.contains ".html")). Qed.

Lemma count_months_reads (b : datetime) (es : list log_entry) :
  count_months b es
  = Counter (map (fun d => Datetime.strftime d "%Y-%m")
               (filter (fun d => Datetime.gt d b) (map date es))).
Proof.
  unfold count_months. rewrite MonthFacts.count_months_fold.
  unfold Counter. f_equal.
  apply (map_filter_map date (fun d => Datetime.gt d b)
           (fun d => Datetime.strftime d "%Y-%m")).
Qed.

Lemma popular_hour_reads (es : list log_entry) :
  popular_hour_of es
  = Ok (match most_common 1 (Counter (map Datetime.hour (map date es))) with
        | top :: _ => Some (fst top)
        | [] => None
        end).
Proof.
  rewrite AggFacts.popular_hour_of_value. unfold hours_of.
  now rewrite map_map.
Qed.

Lemma count_months_window (now1 now2 : datetime) (es : list log_entry) :
  (forall entry, In entry es -> in_window now1 entry = in_window now2 entry) ->
  count_months (window_start now1) es = count_months (window_start now2) es.
Proof.
  intros Hsame. rewrite !MonthFacts.count_months_Counter. do 2 f_equal.
  apply filter_ext_in. exact Hsame.
Qed.

End CompareFacts.

(** C8, as stated, fails: the window of the monthly roll-up moves with the
    clock.  The report of the single entry of 26 July 2019, 12:00, made on
    1 March 2024 has the month 2019-07 with count 1 and the average 1; made a
    day later, on the same entry, it has an empty roll-up and the average 0. *)
Lemma rerun_next_day_differs :
  ~ (forall es now1 now2 st1 st2,
        generate_statistics es now1 = Ok st1 ->
        generate_statistics es now2 = Ok st2 ->
        same_but_timestamp st1 st2).
Proof.
  intros Hsame.
  destruct (Hsame [old_entry] example_now next_day _ _ eq_refl eq_refl)
    as (_ & _ & _ & _ & Hmonthly & _).
  vm_compute in Hmonthly. discriminate.
Qed.

(** C8, amended.  With the clock in range the aggregator returns, as a
    function of the entries and of the clock: at one clock reading two runs
    give the same statistics.  At two clock readings the top routers, the
    total page-load count, the top pages and the most popular hour are the
    same, and the monthly roll-up and the average are the same too when every
    entry is on the same side of both windows. *)
Theorem rerun_spec (es : list log_entry) (now1 now2 : datetime) :
  clock_in_range now1 -> clock_in_range now2 ->
  exists st1 st2,
    generate_statistics es now1 = Ok st1
    /\ generate_statistics es now2 = Ok st2
    /\ same_clockless st1 st2
    /\ ((forall entry, In entry es ->
                       in_window now1 entry = in_window now2 entry) ->
        same_but_timestamp st1 st2)
    /\ (now1 = now2 -> st1 = st2).
Proof.
  intros Hnow1 Hnow2.
  destruct (AggFacts.generate_statistics_value es now1 Hnow1)
    as (average1 & hour1 & Havg1 & Hhour1 & Hgs1).
  destruct (AggFacts.generate_statistics_value es now2 Hnow2)
    as (average2 & hour2 & Havg2 & Hhour2 & Hgs2).
  assert (Hhour : hour1 = hour2) by congruence.
  eexists _, _. split; [exact Hgs1|]. split; [exact Hgs2|].
  split; [|split].
  - unfold same_clockless. cbn. auto.
  - intros Hsides. apply CompareFacts.count_months_window in Hsides.
    rewrite Hsides in Havg1 |- *.
    assert (Havg : average1 = average2) by congruence.
    unfold same_but_timestamp. cbn. auto 7.
  - intros <-. congruence.
Qed.

Lemma rerun_spec_witness :
  clock_in_range example_now /\ clock_in_range next_day
  /\ exists st1 st2,
      generate_statistics month_example example_now = Ok st1
      /\ generate_statistics month_example next_day = Ok st2
      /\ same_but_timestamp st1 st2.
Proof.
  assert (Hnow1 : clock_in_range example_now)
    by (vm_compute; split; congruence).
  assert (Hnow2 : clock_in_range next_day) by (vm_compute; split; congruence).
  split; [exact Hnow1|]. split; [exact Hnow2|].
  destruct (rerun_spec month_example example_now next_day Hnow1 Hnow2)
    as (st1 & st2 & Hst1 & Hst2 & _ & Hsame & _).
  exists st1, st2. split; [exact Hst1|]. split; [exact Hst2|].
  apply Hsame. intros entry Hin. unfold month_example in Hin.
  apply in_app_or in Hin as [Hin|Hin]; apply repeat_spec in Hin; subst entry;
    reflexivity.
Defined.

(** C10.  With the clock in range the aggregator returns, and only the top
    routers look at the router of an entry: two lists of entries with the
    same timestamps and the same requests, whatever their routers, give the
    same total page-load count, top pages, monthly roll-up, average and most
    popular hour.  So an entry of the loopback token counts there as any
    other entry does, while the top routers leave it out. *)
Theorem loopback_counts_elsewhere (es es' : list log_entry) (now : datetime) :
  clock_in_range now ->
  map date es = map date es' ->
  map request es = map request es' ->
  exists st st',
    generate_statistics es now = Ok st
    /\ generate_statistics es' now = Ok st'
    /\ same_but_routers st st'
    /\ ~ In loopback (map fst (top_50_routers st)).
Proof.
  intros Hnow Hdates Hrequests.
  destruct (AggFacts.generate_statistics_value es now Hnow)
    as (average & hour & Havg & Hhour & Hgs).
  destruct (AggFacts.generate_statistics_value es' now Hnow)
    as (average' & hour' & Havg' & Hhour' & Hgs').
  assert (Hmonths : count_months (window_start now) es
                    = count_months (window_start now) es')
    by (now rewrite !CompareFacts.count_months_reads, Hdates).
  assert (Ehour : hour = hour').
  { rewrite CompareFacts.popular_hour_reads in Hhour, Hhour'.
    rewrite Hdates in Hhour. congruence. }
  assert (Eavg : average = average') by congruence.
  eexists _, _. split; [exact Hgs|]. split; [exact Hgs'|]. split.
  - unfold same_but_routers. cbn.
    rewrite !CompareFacts.html_requests_reads, !AggFacts.page_requests_keys.
    unfold counted_requests. rewrite Hrequests, Hmonths. auto 6.
  - cbn [top_50_routers]. rewrite AggFacts.router_requests_keys.
    intros Hin. apply in_map_iff in Hin as ([k c] & Hk & Hin).
    cbn [fst] in Hk. subst k.
    destruct (AggFacts.top_items router router_counted es 50 _
                (AggFacts.ranked_top_most_common 50 (counted_routers es))
                _ _ Hin) as (Hk & _).
    discriminate.
Qed.

Lemma loopback_counts_elsewhere_witness :
  clock_in_range example_now
  /\ exists st,
      generate_statistics [loopback_entry] example_now = Ok st
      /\ top_50_routers st = []
      /\ total_html_requests st = 1
      /\ top_50_pages st = [("GET /x.html", 1)]
      /\ monthly_requests st = [("2024-01", 1)]
      /\ (average_page_loads_per_month st == 1)%Q
      /\ most_popular_time st = Some 12%Z.
Proof.
  assert (Hnow : clock_in_range example_now) by (vm_compute; split; congruence).
  split; [exact Hnow|].
  destruct (loopback_counts_elsewhere [loopback_entry]
              [entry_of "A" "GET /x.html" noon] example_now Hnow
              eq_refl eq_refl)
    as (st & st' & Hst & _).
  exists st. split; [exact Hst|].
  revert Hst. vm_compute. intros [= <-]. repeat split; reflexivity.
Defined.

(** * More on the aggregator: totals, bounds and sizes *)

Module TotalsFacts.

Import CountingFacts.

Lemma list_sum_cons (x : nat) (l : list nat) :
  list_sum (x :: l) = x + list_sum l.
Proof. reflexivity. Qed.

Lemma list_sum_incr {K : Type} `{Key K} (k : K) (c : counter K) :
  list_sum (map snd (incr k c)) = S (list_sum (map snd c)).
Proof.
  induction c as [|[k' n] c IH]; [reflexivity|].
  cbn [incr]. destruct (key_eqb k k'); cbn [map snd];
    rewrite !list_sum_cons; [reflexivity|].
  rewrite IH. lia.
Qed.

(** The counts of a [Counter] add up to the number of items counted. *)
Lemma list_sum_Counter {K : Type} `{Key K} (l : list K) :
  list_sum (map snd (Counter l)) = List.length l.
Proof.
  induction l as [|x l IH] using rev_ind; [reflexivity|].
  rewrite Counter_snoc, list_sum_incr, IH, length_app. cbn [List.length]. lia.
Qed.

(** A [Counter] has one item for each distinct key. *)
Lemma length_Counter (l : list string) :
  List.length (Counter l) = List.length (nodup string_dec l).
Proof.
  rewrite <- (length_map fst (Counter l)).
  apply Permutation_length, NoDup_Permutation.
  - apply NoDup_keys_Counter.
  - apply NoDup_nodup.
  - intros k. now rewrite keys_Counter, nodup_In.
Qed.

Lemma list_sum_firstn (n : nat) (l : list nat) :
  list_sum (firstn n l) <= list_sum l.
Proof.
  rewrite <- (firstn_skipn n l) at 2. rewrite list_sum_app. lia.
Qed.

Lemma count_entries_le (P : log_entry -> bool) (es : list log_entry) :
  count_entries P es <= List.length es.
Proof. apply filter_length_le. Qed.

Lemma count_entries_sub (P Q : log_entry -> bool) (es : list log_entry) :
  (forall entry, P entry = true -> Q entry = true) ->
  count_entries P es <= count_entries Q es.
Proof.
  intros Hsub. unfold count_entries.
  induction es as [|e es IH]; [constructor|].
  cbn [filter]. specialize (Hsub e).
  destruct (P e), (Q e); cbn [List.length];
    first [lia | discriminate (Hsub eq_refl)].
Qed.

(** The roll-up before sorting, and its total. *)
Lemma count_months_total (now : datetime) (es : list log_entry) :
  list_sum (map snd (count_months (window_start now) es))
  = count_entries (in_window now) es.
Proof.
  rewrite MonthFacts.count_months_Counter, list_sum_Counter, length_map.
  reflexivity.
Qed.

Lemma monthly_total (now : datetime) (es : list log_entry) :
  sum (map snd (sorted (count_months (window_start now) es)))
  = count_entries (in_window now) es.
Proof.
  rewrite AverageFacts.sum_sorted, AverageFacts.sum_list_sum.
  apply count_months_total.
Qed.

Lemma count_months_nil_iff (now : datetime) (es : list log_entry) :
  count_months (window_start now) es = []
  <-> count_entries (in_window now) es = 0.
Proof.
  rewrite <- count_months_total. split.
  - now intros ->.
  - intros Hsum. destruct (count_months (window_start now) es)
      as [|[k n] c] eqn:E; [reflexivity|].
    exfalso.
    assert (Hin : In (k, n) (Counter (map month_key (filter (in_window now) es))))
      by (rewrite <- MonthFacts.count_months_Counter, E; now left).
    apply In_Counter in Hin as [Hk Hn]. apply occurrences_pos in Hk.
    cbn [map snd] in Hsum. rewrite list_sum_cons in Hsum. lia.
Qed.

(** Every month of the roll-up has at least one entry. *)
Lemma count_months_length_le (now : datetime) (es : list log_entry) :
  List.length (count_months (window_start now) es)
  <= list_sum (map snd (count_months (window_start now) es)).
Proof.
  rewrite MonthFacts.count_months_Counter.
  assert (Hpos : forall k n,
             In (k, n) (Counter (map month_key (filter (in_window now) es))) ->
             1 <= n).
  { intros k n Hin. apply In_Counter in Hin as [Hk ->].
    now apply occurrences_pos. }
  induction (Counter (map month_key (filter (in_window now) es)))
    as [|[k n] c IH]; [constructor|].
  cbn [List.length map snd]. rewrite list_sum_cons.
  pose proof (Hpos k n (or_introl eq_refl)).
  assert (List.length c <= list_sum (map snd c))
    by (apply IH; intros k' n' Hin; apply (Hpos k' n'); now right).
  lia.
Qed.

(** The counts of a ranking do not increase. *)
Lemma ranking_counts_descend {K : Type} `{Key K} (l : list K) (r : counter K) :
  ranking_of l r -> StronglySorted (fun a b => snd b <= snd a) r.
Proof.
  intros (_ & _ & Hs). eapply StronglySorted_weaken; [|exact Hs].
  intros a b _ _. unfold ranks_before. lia.
Qed.

Lemma NoDup_firstn {A : Type} (n : nat) (l : list A) :
  NoDup l -> NoDup (firstn n l).
Proof.
  intros Hnd. rewrite <- (firstn_skipn n l) in Hnd.
  now apply NoDup_app_remove_r in Hnd.
Qed.

Lemma StronglySorted_prefix {A : Type} (R : A -> A -> Prop) (n : nat)
  (l : list A) :
  StronglySorted R l -> StronglySorted R (firstn n l).
Proof.
  intros Hs. rewrite <- (firstn_skipn n l) in Hs.
  now apply StronglySorted_app_inv in Hs.
Qed.

Section Tables.

Variable ks : list string.

Lemma most_common_length (n : nat) :
  List.length (most_common n (Counter ks))
  = Nat.min n (List.length (nodup string_dec ks)).
Proof.
  unfold most_common. rewrite length_firstn.
  rewrite (Permutation_length (sorted_by_count_desc_perm (Counter ks))).
  now rewrite length_Counter.
Qed.

Lemma most_common_NoDup (n : nat) :
  NoDup (map fst (most_common n (Counter ks))).
Proof.
  unfold most_common. rewrite <- firstn_map. apply NoDup_firstn.
  apply (ranking_of_sorted ks).
Qed.

Lemma most_common_descend (n : nat) :
  StronglySorted (fun a b => snd b <= snd a) (most_common n (Counter ks)).
Proof.
  unfold most_common. apply StronglySorted_prefix.
  apply (ranking_counts_descend ks), ranking_of_sorted.
Qed.

(** Below the limit, no key is left out. *)
Lemma most_common_all (n : nat) (k : string) :
  List.length (most_common n (Counter ks)) < n ->
  In k ks -> In k (map fst (most_common n (Counter ks))).
Proof.
  unfold most_common. rewrite length_firstn. intros Hlt Hk.
  rewrite firstn_all2 by lia.
  apply (in_map fst (sorted_by_count_desc (Counter ks)) (k, occurrences k ks)).
  apply (proj1 (ranking_of_sorted ks)). now split.
Qed.

Lemma most_common_total (n : nat) :
  list_sum (map snd (most_common n (Counter ks))) <= List.length ks.
Proof.
  unfold most_common. rewrite <- firstn_map.
  etransitivity; [apply list_sum_firstn|].
  rewrite (Permutation_list_sum
             (Permutation_map snd (sorted_by_count_desc_perm (Counter ks)))).
  now rewrite list_sum_Counter.
Qed.

End Tables.

End TotalsFacts.

(** X1.  With the clock in range, the counts of the monthly roll-up add up to
    the number of entries in the window, the entries later than
    [now - 56 * 30 days]: each of them is counted once, in one month, and no
    other entry is counted. *)
Theorem monthly_rollup_total (es : list log_entry) (now : datetime) :
  clock_in_range now ->
  exists st,
    generate_statistics es now = Ok st
    /\ sum (map snd (monthly_requests st)) = count_entries (in_window now) es
    /\ count_entries (in_window now) es <= List.length es.
Proof.
  intros Hnow.
  destruct (AggFacts.generate_statistics_value es now Hnow)
    as (average & hour & _ & _ & Hgs).
  eexists. split; [exact Hgs|]. cbn [monthly_requests].
  split; [apply TotalsFacts.monthly_total | apply TotalsFacts.count_entries_le].
Qed.

Lemma monthly_rollup_total_witness :
  clock_in_range next_day
  /\ exists st,
      generate_statistics (old_entry :: month_example) next_day = Ok st
      /\ sum (map snd (monthly_requests st)) = 30.
Proof.
  assert (Hnow : clock_in_range next_day) by (vm_compute; split; congruence).
  split; [exact Hnow|].
  destruct (monthly_rollup_total (old_entry :: month_example) next_day Hnow)
    as (st & Hst & Hsum & _).
  exists st. split; [exact Hst|]. rewrite Hsum. reflexivity.
Defined.

(** X2.  With the clock in range, the average monthly load is 0 exactly when
    no entry is in the window, and then the roll-up is empty; otherwise it is
    at least 1 (every month of the roll-up has an entry) and at most the
    number of entries in the window. *)
Theorem average_bounds (es : list log_entry) (now : datetime) :
  clock_in_range now ->
  exists st,
    generate_statistics es now = Ok st
    /\ (count_entries (in_window now) es = 0 ->
        monthly_requests st = []
        /\ average_page_loads_per_month st = 0%Q)
    /\ (0 < count_entries (in_window now) es ->
        (1 <= average_page_loads_per_month st)%Q
        /\ (average_page_loads_per_month st
            <= inject_Z (Z.of_nat (count_entries (in_window now) es)))%Q).
Proof.
  intros Hnow.
  destruct (AggFacts.generate_statistics_value es now Hnow)
    as (average & hour & Havg & _ & Hgs).
  eexists. split; [exact Hgs|].
  cbn [monthly_requests average_page_loads_per_month].
  rewrite AggFacts.average_of_value in Havg. injection Havg as <-.
  pose proof (TotalsFacts.count_months_total now es) as Htotal.
  pose proof (TotalsFacts.count_months_length_le now es) as Hlen.
  pose proof (TotalsFacts.count_months_nil_iff now es) as Hnil.
  rewrite AverageFacts.sum_list_sum, Htotal.
  split.
  - intros Hzero. apply Hnil in Hzero. rewrite Hzero. split; reflexivity.
  - intros Hpos.
    destruct (count_months (window_start now) es) as [|x monthly] eqn:E;
      [pose proof (proj1 Hnil eq_refl); lia|].
    set (len := List.length (x :: monthly)) in *.
    set (total := count_entries (in_window now) es) in *.
    assert (Hlen1 : 1 <= len) by (unfold len; cbn [List.length]; lia).
    assert (Hlt : (0 < inject_Z (Z.of_nat len))%Q).
    { rewrite <- (Zlt_Qlt 0). lia. }
    split.
    + apply Qle_shift_div_l; [exact Hlt|].
      rewrite Qmult_1_l, <- Zle_Qle. lia.
    + apply Qle_shift_div_r; [exact Hlt|].
      rewrite <- inject_Z_mult, <- Zle_Qle. nia.
Qed.

Lemma average_bounds_witness :
  clock_in_range example_now
  /\ 0 < count_entries (in_window example_now) month_example
  /\ exists st,
      generate_statistics month_example example_now = Ok st
      /\ (1 <= average_page_loads_per_month st)%Q
      /\ (average_page_loads_per_month st <= 30)%Q.
Proof.
  assert (Hnow : clock_in_range example_now) by (vm_compute; split; congruence).
  assert (Hpos : 0 < count_entries (in_window example_now) month_example)
    by (vm_compute; lia).
  split; [exact Hnow|]. split; [exact Hpos|].
  destruct (average_bounds month_example example_now Hnow)
    as (st & Hst & _ & Hbounds).
  exists st. split; [exact Hst|]. exact (Hbounds Hpos).
Defined.

(** X3.  With the clock in range, each of the two top tables has as many rows
    as there are distinct counted keys, up to 50: the routers other than the
    loopback token, and the requests that are not excluded.  A table of
    fewer than 50 rows leaves no counted key out. *)
Theorem top_tables_size (es : list log_entry) (now : datetime) :
  clock_in_range now ->
  exists st,
    generate_statistics es now = Ok st
    /\ List.length (top_50_routers st)
       = Nat.min 50 (List.length (nodup string_dec (counted_routers es)))
    /\ List.length (top_50_pages st)
       = Nat.min 50 (List.length (nodup string_dec (counted_requests es)))
    /\ (List.length (top_50_routers st) < 50 ->
        forall entry, In entry es -> router entry <> loopback ->
                      In (router entry) (map fst (top_50_routers st)))
    /\ (List.length (top_50_pages st) < 50 ->
        forall entry, In entry es -> ~ excluded_request (request entry) ->
                      In (request entry) (map fst (top_50_pages st))).
Proof.
  intros Hnow.
  destruct (AggFacts.generate_statistics_value es now Hnow)
    as (average & hour & _ & _ & Hgs).
  eexists. split; [exact Hgs|]. cbn [top_50_routers top_50_pages].
  rewrite AggFacts.router_requests_keys, AggFacts.page_requests_keys.
  split; [apply TotalsFacts.most_common_length|].
  split; [apply TotalsFacts.most_common_length|].
  split.
  - intros Hlt entry Hin Hne. apply TotalsFacts.most_common_all; [exact Hlt|].
    unfold counted_routers. apply filter_In. split.
    + now apply in_map.
    + now apply AggFacts.router_counted_iff.
  - intros Hlt entry Hin Hne. apply TotalsFacts.most_common_all; [exact Hlt|].
    unfold counted_requests. apply filter_In. split.
    + now apply in_map.
    + now apply AggFacts.request_counted_iff.
Qed.

Lemma top_tables_size_witness :
  clock_in_range example_now
  /\ exists st,
      generate_statistics router_example example_now = Ok st
      /\ List.length (top_50_routers st) = 2
      /\ List.length (top_50_pages st) = 3.
Proof.
  assert (Hnow : clock_in_range example_now) by (vm_compute; split; congruence).
  split; [exact Hnow|].
  destruct (top_tables_size router_example example_now Hnow)
    as (st & Hst & Hrouters & Hpages & _).
  exists st. split; [exact Hst|]. rewrite Hrouters, Hpages.
  split; reflexivity.
Defined.

(** X4.  With the clock in range, no key stands twice in a top table, the
    counts of its rows do not increase from one row to the next, and they
    add up to at most the number of entries that are counted for it. *)
Theorem top_tables_rows (es : list log_entry) (now : datetime) :
  clock_in_range now ->
  exists st,
    generate_statistics es now = Ok st
    /\ NoDup (map fst (top_50_routers st))
    /\ NoDup (map fst (top_50_pages st))
    /\ StronglySorted (fun a b => snd b <= snd a) (top_50_routers st)
    /\ StronglySorted (fun a b => snd b <= snd a) (top_50_pages st)
    /\ list_sum (map snd (top_50_routers st))
       <= count_entries counted_router es
    /\ list_sum (map snd (top_50_pages st))
       <= count_entries counted_page es.
Proof.
  intros Hnow.
  destruct (AggFacts.generate_statistics_value es now Hnow)
    as (average & hour & _ & _ & Hgs).
  eexists. split; [exact Hgs|]. cbn [top_50_routers top_50_pages].
  unfold router_requests, page_requests, count_entries.
  rewrite <- (length_map router (filter counted_router es)).
  rewrite <- (length_map request (filter counted_page es)).
  repeat split;
    first [ apply TotalsFacts.most_common_NoDup
          | apply TotalsFacts.most_common_descend
          | apply TotalsFacts.most_common_total ].
Qed.

Lemma top_tables_rows_witness :
  clock_in_range example_now
  /\ exists st,
      generate_statistics page_example example_now = Ok st
      /\ list_sum (map snd (top_50_routers st)) = 35
      /\ list_sum (map snd (top_50_pages st)) = 15.
Proof.
  assert (Hnow : clock_in_range example_now) by (vm_compute; split; congruence).
  split; [exact Hnow|].
  destruct (top_tables_rows page_example example_now Hnow) as (st & Hst & _).
  exists st. split; [exact Hst|].
  revert Hst. vm_compute. intros [= <-]. split; reflexivity.
Defined.

(** X5.  As the clock advances, the window of the monthly roll-up only loses
    entries: with both clock readings in range and [now1 <= now2], a month of
    the later roll-up is a month of the earlier one, with a count that is not
    greater, and the later total is not greater. *)
Theorem rollup_shrinks_with_clock (es : list log_entry)
  (now1 now2 : datetime) :
  clock_in_range now1 -> clock_in_range now2 -> (now1 <= now2)%Z ->
  exists st1 st2,
    generate_statistics es now1 = Ok st1
    /\ generate_statistics es now2 = Ok st2
    /\ (forall k n2, In (k, n2) (monthly_requests st2) ->
          exists n1, In (k, n1) (monthly_requests st1) /\ n2 <= n1)
    /\ sum (map snd (monthly_requests st2))
       <= sum (map snd (monthly_requests st1)).
Proof.
  intros Hnow1 Hnow2 Hle.
  destruct (AggFacts.generate_statistics_value es now1 Hnow1)
    as (average1 & hour1 & _ & _ & Hgs1).
  destruct (AggFacts.generate_statistics_value es now2 Hnow2)
    as (average2 & hour2 & _ & _ & Hgs2).
  eexists _, _. split; [exact Hgs1|]. split; [exact Hgs2|].
  cbn [monthly_requests].
  assert (Hwin : forall entry,
             in_window now2 entry = true -> in_window now1 entry = true).
  { intros entry. unfold in_window, Datetime.gt, window_start.
    rewrite !Z.ltb_lt. lia. }
  split.
  - intros k n2 Hin. apply MonthFacts.In_monthly in Hin as [Hpos ->].
    assert (Hsub : count_entries (in_month now2 k) es
                   <= count_entries (in_month now1 k) es).
    { apply TotalsFacts.count_entries_sub. intros entry. unfold in_month.
      rewrite !andb_true_iff. intros [Hw Hk]. split; [now apply Hwin|exact Hk]. }
    exists (count_entries (in_month now1 k) es). split; [|exact Hsub].
    apply MonthFacts.In_monthly. split; [lia | reflexivity].
  - rewrite !TotalsFacts.monthly_total.
    now apply TotalsFacts.count_entries_sub.
Qed.

Lemma rollup_shrinks_with_clock_witness :
  clock_in_range example_now /\ clock_in_range next_day
  /\ exists st1 st2,
      generate_statistics [old_entry] example_now = Ok st1
      /\ generate_statistics [old_entry] next_day = Ok st2
      /\ sum (map snd (monthly_requests st2))
         <= sum (map snd (monthly_requests st1)).
Proof.
  assert (Hnow1 : clock_in_range example_now)
    by (vm_compute; split; congruence).
  assert (Hnow2 : clock_in_range next_day) by (vm_compute; split; congruence).
  split; [exact Hnow1|]. split; [exact Hnow2|].
  destruct (rollup_shrinks_with_clock [old_entry] example_now next_day
              Hnow1 Hnow2)
    as (st1 & st2 & Hst1 & Hst2 & _ & Hsum).
  - vm_compute. congruence.
  - exists st1, st2. auto.
Defined.

(** X6.  Two of the four ignored requests never decide anything: a request
    equal to [GET /styles.css] or [GET /favicon.png] already ends in an
    excluded suffix, so an entry is counted for the page ranking exactly when
    its request neither ends in [.png], [.ico] or [.css] nor is [GET /] or
    [HEAD /]. *)
Theorem ignored_requests_redundant (entry : log_entry) :
  counted_page entry
  = negb (Str.endswith_any (request entry) [".png"; ".ico"; ".css"]
          || existsb (String.eqb (request entry)) ["GET /"; "HEAD /"]).
Proof.
  unfold counted_page, ignored_requests. f_equal. cbn [existsb].
  destruct (String.eqb_spec (request entry) "GET /styles.css") as [->|_];
    [reflexivity|].
  destruct (String.eqb_spec (request entry) "GET /favicon.png") as [->|_];
    [reflexivity|].
  reflexivity.
Qed.

(** * The file collector *)

Module CollectorFacts.

Section Loops.

Variable strptime : string -> string -> option datetime.
Variable read_lines : string -> option (list string).

(** Unreadable lines are dropped, and the loop over the lines never fails. *)
Lemma collect_lines_eq (lines : list string) (acc : list log_entry) :
  collect_lines strptime lines acc
  = Done (acc ++ flat_map (entry_of_line strptime) lines)%list.
Proof.
  revert acc. induction lines as [|line lines IH]; intros acc.
  - cbn [collect_lines flat_map]. now rewrite app_nil_r.
  - cbn [collect_lines flat_map]. unfold entry_of_line at 1.
    destruct (ParserFacts.parse_log_line_total strptime (strip line))
      as [[entry|] Hparse]; rewrite Hparse.
    + rewrite IH, <- app_assoc. reflexivity.
    + rewrite IH. reflexivity.
Qed.

Lemma collect_files_eq (root : string) (files : list string)
  (acc : list log_entry) :
  collect_files strptime read_lines root files acc
  = if forallb (readable read_lines)
         (map (path_join root) (filter log_pattern_match files))
    then Done (acc ++ flat_map (entries_at strptime read_lines)
                        (map (path_join root)
                           (filter log_pattern_match files)))%list
    else Aborted IOFailure.
Proof.
  revert acc. induction files as [|file files IH]; intros acc.
  - cbn. now rewrite app_nil_r.
  - cbn [collect_files filter]. destruct (log_pattern_match file).
    + cbn [map forallb flat_map]. unfold readable at 1, entries_at at 1.
      destruct (read_lines (path_join root file)) as [lines|]; [|reflexivity].
      rewrite collect_lines_eq, IH. cbn [andb].
      destruct (forallb _ _); [|reflexivity].
      now rewrite <- app_assoc.
    + apply IH.
Qed.

Lemma collect_walk_eq (walk : list (string * list string * list string))
  (acc : list log_entry) :
  collect_walk strptime read_lines walk acc
  = if forallb (readable read_lines) (log_paths walk)
    then Done (acc ++ flat_map (entries_at strptime read_lines) (log_paths walk))%list
    else Aborted IOFailure.
Proof.
  revert acc. induction walk as [|[[root dirs] files] walk IH]; intros acc.
  - cbn. now rewrite app_nil_r.
  - cbn [collect_walk log_paths flat_map].
    rewrite collect_files_eq, forallb_app, flat_map_app.
    destruct (forallb _ (map (path_join root) _)); [|reflexivity].
    rewrite IH. cbn [andb].
    change (flat_map _ walk) with (log_paths walk).
    destruct (forallb _ (log_paths walk)); [|reflexivity].
    now rewrite <- app_assoc.
Qed.

End Loops.

Lemma forallb_agree {A : Type} (f g : A -> bool) (l : list A) :
  (forall x, In x l -> f x = g x) -> forallb f l = forallb g l.
Proof.
  induction l as [|a l IH]; intros Hfg; [reflexivity|].
  cbn [forallb]. rewrite (Hfg a (or_introl eq_refl)), IH; [reflexivity|].
  intros x Hx. apply Hfg. now right.
Qed.

Lemma flat_map_agree {A B : Type} (f g : A -> list B) (l : list A) :
  (forall x, In x l -> f x = g x) -> flat_map f l = flat_map g l.
Proof.
  induction l as [|a l IH]; intros Hfg; [reflexivity|].
  cbn [flat_map]. rewrite (Hfg a (or_introl eq_refl)), IH; [reflexivity|].
  intros x Hx. apply Hfg. now right.
Qed.

(** The outcome depends on what the reader gives at the paths that are read,
    and on nothing else. *)
Lemma parse_log_files_agree
  (strptime : string -> string -> option datetime)
  (os_walk : string -> list (string * list string * list string))
  (read1 read2 : string -> option (list string)) (directory : string) :
  (forall path, In path (log_paths (os_walk directory)) ->
                readable read1 path = readable read2 path
                /\ entries_at strptime read1 path
                   = entries_at strptime read2 path) ->
  parse_log_files strptime os_walk read1 directory
  = parse_log_files strptime os_walk read2 directory.
Proof.
  intros Hsame. unfold parse_log_files. rewrite !collect_walk_eq.
  rewrite (forallb_agree (readable read1) (readable read2));
    [|intros path Hin; apply (Hsame path Hin)].
  rewrite (flat_map_agree (entries_at strptime read1)
             (entries_at strptime read2));
    [reflexivity|intros path Hin; apply (Hsame path Hin)].
Qed.

(** The collector does not fail on a line. *)
Lemma parse_log_files_caught
  (strptime : string -> string -> option datetime)
  (os_walk : string -> list (string * list string * list string))
  (read_lines : string -> option (list string)) (directory : string)
  (e : exn) :
  parse_log_files strptime os_walk read_lines directory
  <> Aborted (Uncaught e).
Proof.
  unfold parse_log_files. rewrite collect_walk_eq.
  destruct (forallb _ _); discriminate.
Qed.

(** ** [strip] and padding *)

Lemma all_space_nil : all_space "".
Proof. intros c Hc. discriminate. Qed.

Lemma all_space_cons (c : ascii) (s : string) :
  all_space (String c s) <-> isspace c = true /\ all_space s.
Proof.
  unfold all_space. cbn [Str.has_char]. split.
  - intros Hall. split.
    + apply Hall. now rewrite Ascii.eqb_refl.
    + intros d Hd. apply Hall. rewrite Hd. apply orb_true_r.
  - intros [Hc Hs] d Hd. apply orb_prop in Hd as [Hd|Hd].
    + apply Ascii.eqb_eq in Hd. now subst.
    + now apply Hs.
Qed.

Lemma lstrip_space (a s : string) :
  all_space a -> lstrip (a ++ s) = lstrip s.
Proof.
  induction a as [|c a IH]; intros Ha; [reflexivity|].
  apply all_space_cons in Ha as [Hc Ha].
  change (String c a ++ s) with (String c (a ++ s)).
  cbn [lstrip]. rewrite Hc. now apply IH.
Qed.

Lemma rstrip_space (b : string) : all_space b -> rstrip b = "".
Proof.
  induction b as [|c b IH]; intros Hb; [reflexivity|].
  apply all_space_cons in Hb as [Hc Hb].
  cbn [rstrip]. now rewrite (IH Hb), Hc.
Qed.

Lemma rstrip_append_space (s b : string) :
  all_space b -> rstrip (s ++ b) = rstrip s.
Proof.
  intros Hb. induction s as [|c s IH].
  - cbn [append rstrip]. now apply rstrip_space.
  - change (String c s ++ b) with (String c (s ++ b)).
    cbn [rstrip]. now rewrite IH.
Qed.

Lemma strip_append_space (s b : string) :
  all_space b -> strip (s ++ b) = strip s.
Proof.
  intros Hb. unfold strip. induction s as [|c s IH].
  - cbn [append lstrip rstrip].
    rewrite <- (StrFacts.append_nil_r b), lstrip_space by exact Hb.
    reflexivity.
  - change (String c s ++ b) with (String c (s ++ b)).
    cbn [lstrip]. destruct (isspace c); [exact IH|].
    change (String c (s ++ b)) with (String c s ++ b).
    now apply rstrip_append_space.
Qed.

(** Whitespace at the ends of a line is not seen. *)
Lemma strip_padded (l1 l2 : string) : padded l1 l2 -> strip l2 = strip l1.
Proof.
  intros (a & b & Ha & Hb & ->).
  unfold strip at 1. rewrite lstrip_space by exact Ha.
  now apply strip_append_space.
Qed.

Lemma entries_padded (strptime : string -> string -> option datetime)
  (lines1 lines2 : list string) :
  Forall2 padded lines1 lines2 ->
  flat_map (entry_of_line strptime) lines1
  = flat_map (entry_of_line strptime) lines2.
Proof.
  induction 1 as [|l1 l2 lines1 lines2 Hpad _ IH]; [reflexivity|].
  cbn [flat_map]. rewrite IH. f_equal.
  unfold entry_of_line. now rewrite (strip_padded _ _ Hpad).
Qed.

(** ** The pattern of the names *)

Lemma extension_here_inv (s : string) :
  extension_here s = true ->
  exists a b c tail,
    s = String "." (String a (String b (String c tail)))
    /\ letter_l a = true /\ letter_o b = true /\ letter_g c = true
    /\ (tail = "" \/ tail = String newline "").
Proof.
  destruct s as [|x [|a [|b [|c tail]]]]; try discriminate.
  cbn [extension_here]. rewrite !andb_true_iff, orb_true_iff, !String.eqb_eq.
  intros ((((Hx & Ha) & Hb) & Hc) & Htail).
  apply Ascii.eqb_eq in Hx. subst x. now exists a, b, c, tail.
Qed.

End CollectorFacts.

(** X7.  When every file of the walk whose name matches can be read, the
    collector returns, in the order of the walk, of the files and of their
    lines, the entries of the lines that parse, each line stripped first;
    the other lines leave no trace.  An entry is collected exactly when it is
    the entry of some line of some matching file. *)
Theorem parse_log_files_collects
  (strptime : string -> string -> option datetime)
  (os_walk : string -> list (string * list string * list string))
  (read_lines : string -> option (list string)) (directory : string) :
  (forall path, In path (log_paths (os_walk directory)) ->
                read_lines path <> None) ->
  parse_log_files strptime os_walk read_lines directory
  = Done (collected strptime read_lines (os_walk directory))
  /\ (forall entry,
        In entry (collected strptime read_lines (os_walk directory))
        <-> exists path lines line,
              In path (log_paths (os_walk directory))
              /\ read_lines path = Some lines
              /\ In line lines
              /\ parse_log_line strptime (strip line) = Ok (Some entry)).
Proof.
  intros Hread. split.
  - unfold parse_log_files. rewrite CollectorFacts.collect_walk_eq.
    replace (forallb (readable read_lines) (log_paths (os_walk directory)))
      with true; [reflexivity|].
    symmetry. apply forallb_forall. intros path Hin. unfold readable.
    specialize (Hread path Hin). now destruct (read_lines path).
  - intros entry. unfold collected. rewrite in_flat_map. split.
    + intros (path & Hpath & Hin). unfold entries_at in Hin.
      destruct (read_lines path) as [lines|] eqn:Hlines; [|destruct Hin].
      apply in_flat_map in Hin as (line & Hline & Hin).
      exists path, lines, line. repeat split; try assumption.
      unfold entry_of_line in Hin.
      destruct (parse_log_line strptime (strip line)) as [[e|]|];
        try destruct Hin as [<-|[]]; try destruct Hin. reflexivity.
    + intros (path & lines & line & Hpath & Hlines & Hline & Hparse).
      exists path. split; [exact Hpath|]. unfold entries_at. rewrite Hlines.
      apply in_flat_map. exists line. split; [exact Hline|].
      unfold entry_of_line. rewrite Hparse. now left.
Qed.

Lemma parse_log_files_collects_witness :
  parse_log_files Strict.strptime example_walk example_read "logs"
  = Done [entry_of "R1" "GET /x.html" (Datetime.make 2024 1 1 10 0 0);
          entry_of "R1" "GET /x.html" (Datetime.make 2024 1 1 10 0 0)].
Proof.
  refine (eq_trans
            (proj1 (parse_log_files_collects Strict.strptime example_walk
                      example_read "logs" _)) _).
  - intros path [<-|[<-|[]]]; discriminate.
  - reflexivity.
Defined.

(** X8.  The collector fails exactly when a file of the walk whose name
    matches cannot be read, and then it returns no entry at all, not even
    those of the files read before; it never fails on a line, whatever the
    line. *)
Theorem parse_log_files_aborts
  (strptime : string -> string -> option datetime)
  (os_walk : string -> list (string * list string * list string))
  (read_lines : string -> option (list string)) (directory : string) :
  (parse_log_files strptime os_walk read_lines directory = Aborted IOFailure
   <-> exists path, In path (log_paths (os_walk directory))
                    /\ read_lines path = None)
  /\ (forall e, parse_log_files strptime os_walk read_lines directory
                <> Aborted (Uncaught e)).
Proof.
  unfold parse_log_files. rewrite CollectorFacts.collect_walk_eq.
  destruct (forallb (readable read_lines) (log_paths (os_walk directory)))
    eqn:Hall.
  - split; [|discriminate]. split; [discriminate|].
    intros (path & Hin & Hnone). exfalso.
    rewrite forallb_forall in Hall. specialize (Hall path Hin).
    unfold readable in Hall. rewrite Hnone in Hall. discriminate.
  - split; [|discriminate]. split; [|reflexivity]. intros _.
    assert (Hex : existsb (fun path => negb (readable read_lines path))
                    (log_paths (os_walk directory)) = true).
    { clear -Hall. induction (log_paths (os_walk directory)) as [|p l IH];
        [discriminate|].
      cbn [forallb existsb] in *. destruct (readable read_lines p);
        [now apply IH | reflexivity]. }
    apply existsb_exists in Hex as (path & Hin & Hneg).
    exists path. split; [exact Hin|]. unfold readable in Hneg.
    now destruct (read_lines path).
Qed.

(** X9.  The collector selects a file exactly when its name is some text
    without a newline, then a dot and the letters l, o, g in either case,
    and then nothing more (or one last newline): names that end in [.log],
    [.LOG], [.Log] and the like, and no other. *)
Theorem log_files_selected (file : string) :
  log_pattern_match file = true
  <-> exists base a b c tail,
        file = base ++ String "." (String a (String b (String c tail)))
        /\ Str.has_char newline base = false
        /\ letter_l a = true /\ letter_o b = true /\ letter_g c = true
        /\ (tail = "" \/ tail = String newline "").
Proof.
  split.
  - induction file as [|x file IH]; cbn [log_pattern_match];
      rewrite orb_true_iff; intros [Hext|Hrec]; try discriminate.
    + apply CollectorFacts.extension_here_inv in Hext as (a & b & c & tail & -> & H).
      now exists "", a, b, c, tail.
    + apply andb_prop in Hrec as [Hx Hrec].
      destruct (IH Hrec) as (base & a & b & c & tail & -> & Hbase & H).
      exists (String x base), a, b, c, tail. split; [reflexivity|].
      split; [|exact H]. cbn [Str.has_char]. rewrite Hbase, orb_false_r.
      apply negb_true_iff in Hx. now rewrite Ascii.eqb_sym.
  - intros (base & a & b & c & tail & -> & Hbase & Ha & Hb & Hc & Htail).
    induction base as [|x base IH].
    + cbn [append log_pattern_match extension_here].
      rewrite Ha, Hb, Hc, Ascii.eqb_refl.
      destruct Htail as [-> | ->]; reflexivity.
    + cbn [Str.has_char] in Hbase. apply orb_false_elim in Hbase as [Hx Hbase].
      change (String x base ++ ?t) with (String x (base ++ t)).
      cbn [log_pattern_match]. rewrite (IH Hbase).
      rewrite Ascii.eqb_sym, Hx. apply orb_true_r.
Qed.

(** X10.  Whitespace at either end of a line is not seen: two file systems
    whose matching files are readable alike and have, line by line, the same
    lines up to whitespace added at the ends (a different line end, an
    indentation) give the same outcome. *)
Theorem padding_is_not_seen
  (strptime : string -> string -> option datetime)
  (os_walk : string -> list (string * list string * list string))
  (read1 read2 : string -> option (list string)) (directory : string) :
  (forall path, In path (log_paths (os_walk directory)) ->
                match read1 path, read2 path with
                | Some lines1, Some lines2 => Forall2 padded lines1 lines2
                | None, None => True
                | _, _ => False
                end) ->
  parse_log_files strptime os_walk read1 directory
  = parse_log_files strptime os_walk read2 directory.
Proof.
  intros Hpad. apply CollectorFacts.parse_log_files_agree.
  intros path Hin. specialize (Hpad path Hin).
  unfold readable, entries_at.
  destruct (read1 path) as [lines1|], (read2 path) as [lines2|];
    try contradiction; split; try reflexivity.
  now apply CollectorFacts.entries_padded.
Qed.

Lemma padding_is_not_seen_witness :
  parse_log_files Strict.strptime example_walk
    (fun path => if String.eqb path "logs/old/ACCESS.LOG"
                 then Some [example_line] else example_read path) "logs"
  = parse_log_files Strict.strptime example_walk example_read "logs".
Proof.
  apply padding_is_not_seen.
  intros path [<-|[<-|[]]].
  - cbn. repeat constructor; exists "", "";
      (split; [apply CollectorFacts.all_space_nil|]);
      (split; [apply CollectorFacts.all_space_nil|]);
      now rewrite StrFacts.append_nil_r.
  - cbn. repeat constructor. exists "  ", "".
    split; [|split; [apply CollectorFacts.all_space_nil|]].
    + intros c Hc. cbn [Str.has_char] in Hc.
      rewrite orb_false_r, orb_diag in Hc. apply Ascii.eqb_eq in Hc.
      now subst c.
    + now rewrite StrFacts.append_nil_r.
Defined.

(** X11.  Only the files whose name matches are read: two file systems that
    give the same lines at the paths of the matching files of the walk give
    the same outcome, whatever they hold elsewhere. *)
Theorem only_log_files_are_read
  (strptime : string -> string -> option datetime)
  (os_walk : string -> list (string * list string * list string))
  (read1 read2 : string -> option (list string)) (directory : string) :
  (forall path, In path (log_paths (os_walk directory)) ->
                read1 path = read2 path) ->
  parse_log_files strptime os_walk read1 directory
  = parse_log_files strptime os_walk read2 directory.
Proof.
  intros Hsame. apply CollectorFacts.parse_log_files_agree.
  intros path Hin. unfold readable, entries_at.
  rewrite (Hsame path Hin). split; reflexivity.
Qed.

Lemma only_log_files_are_read_witness :
  parse_log_files Strict.strptime example_walk
    (fun path => if String.eqb path "logs/notes.txt"
                 then Some [example_line] else example_read path) "logs"
  = parse_log_files Strict.strptime example_walk example_read "logs".
Proof.
  apply only_log_files_are_read.
  intros path [<-|[<-|[]]]; reflexivity.
Defined.

(** * The fields of a parsed entry *)

Module AnchorFacts.

Import Str StrFacts.

Lemma contains_nil (sep : string) : sep <> "" -> contains sep "" = false.
Proof. destruct sep; [congruence | reflexivity]. Qed.

Lemma prefix_shorter (sep a t : string) :
  prefix sep a = true -> prefix sep (a ++ t) = true.
Proof.
  intros Hp. apply prefix_true_iff in Hp as [u ->].
  rewrite append_assoc. apply prefix_append.
Qed.

(** No separator before the first one. *)
Lemma cut_Some_clean (sep s a b : string) :
  sep <> "" -> cut sep s = Some (a, b) -> contains sep a = false.
Proof.
  intros Hsep. revert a b.
  induction s as [|c s IH]; intros a b Hc; cbn [cut] in Hc.
  - destruct (prefix sep ""); [|discriminate].
    injection Hc as <- <-. now apply contains_nil.
  - destruct (prefix sep (String c s)) eqn:Hp.
    + injection Hc as <- <-. now apply contains_nil.
    + destruct (cut sep s) as [[x y]|] eqn:Hcs; [|discriminate].
      injection Hc as <- <-. cbn [contains].
      destruct (prefix sep (String c x)) eqn:Hpx.
      * apply cut_Some in Hcs. subst s.
        apply (prefix_shorter _ _ (sep ++ y)) in Hpx.
        change (String c x ++ sep ++ y) with (String c (x ++ sep ++ y)) in Hpx.
        congruence.
      * now apply (IH x y).
Qed.

Lemma cut_None_contains (sep s : string) :
  cut sep s = None -> contains sep s = false.
Proof.
  induction s as [|c s IH]; cbn [cut contains]; intros Hc.
  - now destruct (prefix sep "").
  - destruct (prefix sep (String c s)); [discriminate|].
    destruct (cut sep s) as [[x y]|]; [discriminate|]. now apply IH.
Qed.

(** The head of a split does not contain the separator, and starts the
    string. *)
Lemma before_clean (sep s : string) :
  sep <> "" -> contains sep (before sep s) = false.
Proof.
  intros Hsep. unfold before.
  destruct (cut sep s) as [[a b]|] eqn:Hc.
  - now apply (cut_Some_clean sep s a b).
  - now apply cut_None_contains.
Qed.

Lemma before_prefix (sep s : string) : prefix (before sep s) s = true.
Proof.
  unfold before. destruct (cut sep s) as [[a b]|] eqn:Hc.
  - apply cut_Some in Hc. subst s. apply prefix_append.
  - rewrite <- (append_nil_r s) at 2. apply prefix_append.
Qed.

Lemma has_char_contains (c : ascii) (s : string) :
  has_char c s = contains (String c "") s.
Proof.
  induction s as [|d s IH]; [reflexivity|].
  cbn [has_char contains]. rewrite prefix_cons, prefix_nil, andb_true_r, IH.
  now destruct (Ascii.eqb c d).
Qed.

(** A prefix of a text without the separator is without it too. *)
Lemma contains_before (sep sep' s : string) :
  contains sep s = false -> contains sep (before sep' s) = false.
Proof.
  intros Hs. unfold before. destruct (cut sep' s) as [[a b]|] eqn:Hc;
    [|exact Hs].
  apply cut_Some in Hc. subst s.
  destruct (contains sep a) eqn:Ha; [|reflexivity].
  apply contains_iff in Ha as (x & y & ->).
  rewrite <- Hs. symmetry. apply contains_iff.
  exists x, (y ++ sep' ++ b). now rewrite !append_assoc.
Qed.

End AnchorFacts.

(** X12.  Whatever the line, the fields of the entry that the parser returns
    are cut at their anchors: the router starts the line and does not contain
    the separator [" -  -  ["], the request contains no quote, and the status
    contains neither [" -"] nor a quote followed by a space.  And a line that
    gives an entry has an opening bracket and a quote followed by a space. *)
Theorem parsed_entry_fields_clean
  (strptime : string -> string -> option datetime) (line : string)
  (entry : log_entry) :
  parse_log_line strptime line = Ok (Some entry) ->
  prefix (router entry) line = true
  /\ Str.contains " -  -  [" (router entry) = false
  /\ Str.has_char quote_char (request entry) = false
  /\ Str.contains " -" (status_code entry) = false
  /\ Str.contains (dquote ++ " ") (status_code entry) = false
  /\ Str.has_char "[" line = true
  /\ Str.contains (dquote ++ " ") line = true.
Proof.
  intros Hparse.
  assert (Hbracket : Str.has_char "[" line = true).
  { destruct (Str.has_char "[" line) eqn:E; [reflexivity|].
    rewrite (ParserFacts.parse_without_bracket strptime line E) in Hparse.
    discriminate. }
  assert (Hquote : Str.contains (dquote ++ " ") line = true).
  { destruct (Str.contains (dquote ++ " ") line) eqn:E; [reflexivity|].
    rewrite (ParserFacts.parse_without_closing_quote strptime line E)
      in Hparse.
    discriminate. }
  rewrite ParserFacts.parse_log_line_fields in Hparse.
  injection Hparse as Hfields. unfold parsed_fields in Hfields.
  destruct (after "[" line) as [d|]; [|discriminate].
  destruct (after dquote line) as [q|]; [|discriminate].
  destruct (after (dquote ++ " ") line) as [s|]; [|discriminate].
  destruct (strptime _ date_format) as [ts|]; [|discriminate].
  injection Hfields as <-. cbn [router request status_code].
  split; [apply AnchorFacts.before_prefix|].
  split; [apply AnchorFacts.before_clean; discriminate|].
  split.
  { rewrite AnchorFacts.has_char_contains.
    apply (AnchorFacts.before_clean dquote). discriminate. }
  split; [apply AnchorFacts.before_clean; discriminate|].
  split; [|split; assumption].
  apply AnchorFacts.contains_before.
  apply AnchorFacts.before_clean. discriminate.
Qed.

Lemma parsed_entry_fields_clean_witness :
  prefix "R1" example_line = true
  /\ Str.contains " -  -  [" "R1" = false
  /\ Str.has_char quote_char "GET /x.html" = false
  /\ Str.contains " -" "200" = false
  /\ Str.contains (dquote ++ " ") "200" = false
  /\ Str.has_char "[" example_line = true
  /\ Str.contains (dquote ++ " ") example_line = true.
Proof.
  apply (parsed_entry_fields_clean Strict.strptime example_line
           {| router := "R1"; date := Datetime.make 2024 1 1 10 0 0;
              request := "GET /x.html"; status_code := "200" |}).
  reflexivity.
Defined.

(** * The report and the program *)

Module ProgramFacts.

Import Str StrFacts.

Lemma contains_append_l (sub a b : string) :
  contains sub a = true -> contains sub (a ++ b) = true.
Proof.
  intros Ha. apply contains_iff in Ha as (x & y & ->).
  apply contains_iff. exists x, (y ++ b). now rewrite !append_assoc.
Qed.

Lemma contains_append_r (sub a b : string) :
  contains sub b = true -> contains sub (a ++ b) = true.
Proof.
  intros Hb. apply contains_iff in Hb as (x & y & ->).
  apply contains_iff. exists (a ++ x), y. now rewrite !append_assoc.
Qed.

Lemma contains_self (s : string) : contains s s = true.
Proof.
  apply contains_iff. exists "", "". now rewrite append_nil_r.
Qed.

(** A row of a table is in the text of its rows. *)
Lemma contains_table_rows (item : string * nat) (items : list (string * nat)) :
  In item items -> contains (table_row item) (table_rows items) = true.
Proof.
  unfold table_rows. induction items as [|x items IH]; intros Hin;
    [destruct Hin|].
  assert (Hcons : String.concat "" (map table_row (x :: items))
                  = table_row x ++ String.concat "" (map table_row items)).
  { cbn [map String.concat]. destruct (map table_row items) as [|y ys];
      [now rewrite append_nil_r | reflexivity]. }
  rewrite Hcons. destruct Hin as [<-|Hin].
  - apply contains_append_l, contains_self.
  - apply contains_append_r. now apply IH.
Qed.

Lemma not_Wrote_banner (path content : string) :
  ~ In (Wrote path content) banner.
Proof. intros [H|[H|[H|[H|[]]]]]; discriminate. Qed.

(** The only exception of [generate_statistics] is that of the date. *)
Lemma generate_statistics_raises (es : list log_entry) (now : datetime)
  (e : exn) :
  generate_statistics es now = Raise e ->
  e = OverflowError /\ ~ clock_in_range now.
Proof.
  intros Hraise. split.
  - unfold generate_statistics, Datetime.sub in Hraise.
    destruct (_ && _) in Hraise; [|now injection Hraise as <-].
    cbn [bind] in Hraise.
    rewrite AggFacts.average_of_value, AggFacts.popular_hour_of_value
      in Hraise.
    discriminate.
  - intros Hnow.
    destruct (AggFacts.generate_statistics_value es now Hnow)
      as (average & hour & _ & _ & Hgs).
    congruence.
Qed.

Lemma lstrip_all_space (s : string) : all_space s -> lstrip s = "".
Proof.
  intros Hs. rewrite <- (append_nil_r s).
  now rewrite CollectorFacts.lstrip_space.
Qed.

End ProgramFacts.

(** X13.  The report holds each row of its three tables as it is: for an item
    of the monthly roll-up, of the top routers or of the top pages, the text
    [<tr><td>key</td><td>count</td></tr>] with the key unchanged, whatever
    characters it has, stands in the document. *)
Theorem report_rows_verbatim (format_2f : Q -> string) (st : statistics)
  (key : string) (count : nat) :
  In (key, count) (monthly_requests st)
  \/ In (key, count) (top_50_routers st)
  \/ In (key, count) (top_50_pages st) ->
  Str.contains
    ("<tr><td>" ++ key ++ "</td><td>" ++ str_nat count ++ "</td></tr>")
    (html_content format_2f st) = true.
Proof.
  change ("<tr><td>" ++ key ++ "</td><td>" ++ str_nat count ++ "</td></tr>")
    with (table_row (key, count)).
  unfold html_content. intros [Hin|[Hin|Hin]];
    apply (ProgramFacts.contains_table_rows _ _) in Hin.
  - do 5 apply ProgramFacts.contains_append_r.
    now apply ProgramFacts.contains_append_l.
  - do 9 apply ProgramFacts.contains_append_r.
    now apply ProgramFacts.contains_append_l.
  - do 11 apply ProgramFacts.contains_append_r.
    now apply ProgramFacts.contains_append_l.
Qed.

Lemma report_rows_verbatim_witness :
  Str.contains
    ("<tr><td>" ++ "GET /<b>x</b>.html" ++ "</td><td>" ++ str_nat 3
     ++ "</td></tr>")
    (html_content format_whole
       {| top_50_routers := [("R1", 3)];
          total_html_requests := 3;
          top_50_pages := [("GET /<b>x</b>.html", 3)];
          average_page_loads_per_month := 3;
          monthly_requests := [("2024-01", 3)];
          most_popular_time := Some 10%Z;
          last_update := "01/Mar/2024 00:00:00" |}) = true.
Proof.
  apply report_rows_verbatim. right. right. now left.
Defined.

(** X14.  The program writes a file exactly when a line is typed, the
    directory chosen from it is a directory, the collector returns at least
    one entry, the aggregator returns and the file can be written; what it
    writes then is the report of the statistics of the entries collected, to
    [report.html] and to no other path. *)
Theorem main_writes_report_iff
  (format_2f : Q -> string) (write_ok : string -> bool)
  (strptime : string -> string -> option datetime)
  (os_walk : string -> list (string * list string * list string))
  (read_lines : string -> option (list string)) (isdir : string -> bool)
  (stdin_line : option string) (now : datetime) (path content : string) :
  In (Wrote path content)
    (fst (main format_2f write_ok strptime os_walk read_lines isdir
            stdin_line now))
  <-> exists typed entry entries st,
        stdin_line = Some typed
        /\ isdir (chosen_directory typed) = true
        /\ parse_log_files strptime os_walk read_lines
             (chosen_directory typed) = Done (entry :: entries)
        /\ generate_statistics (entry :: entries) now = Ok st
        /\ write_ok "report.html" = true
        /\ path = "report.html"
        /\ content = html_content format_2f st.
Proof.
  unfold main. split.
  - destruct stdin_line as [typed|].
    2:{ intros Hin. now apply ProgramFacts.not_Wrote_banner in Hin. }
    destruct (isdir (chosen_directory typed)) eqn:Hdir; cbn [negb fst].
    2:{ intros Hin. apply in_app_or in Hin as [Hin|[Hin|[]]];
          [now apply ProgramFacts.not_Wrote_banner in Hin | discriminate]. }
    destruct (parse_log_files _ _ _ _) as [[|entry entries]|f] eqn:Hparse.
    + cbn [fst]. intros Hin.
      apply in_app_or in Hin as [Hin|[Hin|[]]]; [|discriminate].
      apply in_app_or in Hin as [Hin|[Hin|[]]];
        [now apply ProgramFacts.not_Wrote_banner in Hin | discriminate].
    + destruct (generate_statistics (entry :: entries) now) as [st|e] eqn:Hgs.
      * unfold generate_html_report.
        destruct (write_ok "report.html") eqn:Hw; cbn [fst]; intros Hin;
          apply in_app_or in Hin as [Hin|Hin].
        -- apply in_app_or in Hin as [Hin|[Hin|[]]];
             [now apply ProgramFacts.not_Wrote_banner in Hin | discriminate].
        -- destruct Hin as [Hin|[Hin|[]]]; [|discriminate].
           injection Hin as <- <-.
           now exists typed, entry, entries, st.
        -- apply in_app_or in Hin as [Hin|[Hin|[]]];
             [now apply ProgramFacts.not_Wrote_banner in Hin | discriminate].
        -- destruct Hin.
      * cbn [fst]. intros Hin.
        apply in_app_or in Hin as [Hin|[Hin|[]]];
          [now apply ProgramFacts.not_Wrote_banner in Hin | discriminate].
    + cbn [fst]. intros Hin.
      apply in_app_or in Hin as [Hin|[Hin|[]]];
        [now apply ProgramFacts.not_Wrote_banner in Hin | discriminate].
  - intros (typed & entry & entries & st & -> & Hdir & Hparse & Hgs & Hw
            & -> & ->).
    rewrite Hdir, Hparse, Hgs. unfold generate_html_report. rewrite Hw.
    cbn [negb fst]. apply in_or_app. right. now left.
Qed.

(** X15.  A report that the program writes shows an hour: its statistics
    have a most popular hour [h] between 0 and 23, never [None], since the
    report is made only when an entry was collected. *)
Theorem main_report_shows_hour
  (format_2f : Q -> string) (write_ok : string -> bool)
  (strptime : string -> string -> option datetime)
  (os_walk : string -> list (string * list string * list string))
  (read_lines : string -> option (list string)) (isdir : string -> bool)
  (stdin_line : option string) (now : datetime) (path content : string) :
  In (Wrote path content)
    (fst (main format_2f write_ok strptime os_walk read_lines isdir
            stdin_line now)) ->
  exists st h,
    content = html_content format_2f st
    /\ most_popular_time st = Some h
    /\ (0 <= h <= 23)%Z
    /\ str_hour (most_popular_time st) = str_Z h.
Proof.
  unfold main. destruct stdin_line as [typed|].
  2:{ intros Hin. now apply ProgramFacts.not_Wrote_banner in Hin. }
  destruct (isdir (chosen_directory typed)); cbn [negb fst].
  2:{ intros Hin. apply in_app_or in Hin as [Hin|[Hin|[]]];
        [now apply ProgramFacts.not_Wrote_banner in Hin | discriminate]. }
  destruct (parse_log_files _ _ _ _) as [[|entry entries]|f].
  - cbn [fst]. intros Hin.
    apply in_app_or in Hin as [Hin|[Hin|[]]]; [|discriminate].
    apply in_app_or in Hin as [Hin|[Hin|[]]];
      [now apply ProgramFacts.not_Wrote_banner in Hin | discriminate].
  - destruct (generate_statistics (entry :: entries) now) as [st|e] eqn:Hgs.
    + unfold generate_html_report.
      destruct (write_ok "report.html"); cbn [fst]; intros Hin;
        apply in_app_or in Hin as [Hin|Hin];
        try (apply in_app_or in Hin as [Hin|[Hin|[]]];
             [now apply ProgramFacts.not_Wrote_banner in Hin | discriminate]);
        [|destruct Hin].
      destruct Hin as [Hin|[Hin|[]]]; [|discriminate].
      injection Hin as <- <-.
      assert (Hhour : popular_hour_of (entry :: entries)
                      = Ok (most_popular_time st)).
      { unfold generate_statistics in Hgs.
        destruct (Datetime.sub _ _); [|discriminate]. cbn [bind] in Hgs.
        destruct (average_of _); [|discriminate]. cbn [bind] in Hgs.
        destruct (popular_hour_of _); [|discriminate]. cbn [bind] in Hgs.
        now injection Hgs as <-. }
      rewrite AggFacts.popular_hour_of_value in Hhour.
      destruct (AggFacts.most_common_1 (hours_of (entry :: entries)))
        as ([h c] & rest & (Hin & _) & Htop); [discriminate|].
      rewrite Htop in Hhour. injection Hhour as Hhour. cbn [fst] in Hhour.
      exists st, h. rewrite <- Hhour. repeat split.
      * destruct (proj1 (Hin h c) (or_introl eq_refl)) as [Hh _].
        unfold hours_of in Hh. apply in_map_iff in Hh as (x & <- & _).
        unfold Datetime.hour.
        pose proof (Z.mod_pos_bound (date x / Datetime.us_per_hour) 24). lia.
      * destruct (proj1 (Hin h c) (or_introl eq_refl)) as [Hh _].
        unfold hours_of in Hh. apply in_map_iff in Hh as (x & <- & _).
        unfold Datetime.hour.
        pose proof (Z.mod_pos_bound (date x / Datetime.us_per_hour) 24). lia.
    + cbn [fst]. intros Hin.
      apply in_app_or in Hin as [Hin|[Hin|[]]];
        [now apply ProgramFacts.not_Wrote_banner in Hin | discriminate].
  - cbn [fst]. intros Hin.
    apply in_app_or in Hin as [Hin|[Hin|[]]];
      [now apply ProgramFacts.not_Wrote_banner in Hin | discriminate].
Qed.

Lemma main_report_shows_hour_witness :
  exists path content st h,
    In (Wrote path content)
      (fst (main format_whole (fun _ => true) Strict.strptime example_walk
              example_read (fun d => String.eqb d "logs") (Some "logs")
              example_now))
    /\ content = html_content format_whole st
    /\ most_popular_time st = Some h.
Proof.
  eexists _, _.
  assert (Hin : In (Wrote "report.html"
                      (html_content format_whole
                         {| top_50_routers := [("R1", 2)];
                            total_html_requests := 2;
                            top_50_pages := [("GET /x.html", 2)];
                            average_page_loads_per_month := 2;
                            monthly_requests := [("2024-01", 2)];
                            most_popular_time := Some 10%Z;
                            last_update := "01/Mar/2024 00:00:00" |}))
                  (fst (main format_whole (fun _ => true) Strict.strptime
                          example_walk example_read
                          (fun d => String.eqb d "logs") (Some "logs")
                          example_now)))
    by (vm_compute; do 5 right; left; reflexivity).
  destruct (main_report_shows_hour _ _ _ _ _ _ _ _ _ _ Hin)
    as (st & h & Hcontent & Hhour & _).
  exists st, h. split; [exact Hin|]. split; [exact Hcontent | exact Hhour].
Defined.

(** X16.  The program lets no exception of the parser or of the aggregator
    through, but one: when it ends on such an exception, this is the
    [OverflowError] of the date [now - 56 * 30 days], and the clock is out of
    range.  With the clock in range it can only end early on the file system
    or on the end of the input. *)
Theorem main_uncaught_needs_clock
  (format_2f : Q -> string) (write_ok : string -> bool)
  (strptime : string -> string -> option datetime)
  (os_walk : string -> list (string * list string * list string))
  (read_lines : string -> option (list string)) (isdir : string -> bool)
  (stdin_line : option string) (now : datetime) (e : exn) :
  snd (main format_2f write_ok strptime os_walk read_lines isdir
         stdin_line now) = Some (Uncaught e) ->
  e = OverflowError /\ ~ clock_in_range now.
Proof.
  unfold main. destruct stdin_line as [typed|]; [|discriminate].
  destruct (isdir (chosen_directory typed)); cbn [negb snd]; [|discriminate].
  destruct (parse_log_files strptime os_walk read_lines
              (chosen_directory typed)) as [[|entry entries]|f] eqn:Hparse.
  - discriminate.
  - destruct (generate_statistics (entry :: entries) now) as [st|e'] eqn:Hgs.
    + unfold generate_html_report.
      destruct (write_ok "report.html"); discriminate.
    + cbn [snd]. intros [= <-].
      now apply (ProgramFacts.generate_statistics_raises (entry :: entries)).
  - cbn [snd]. intros [= ->]. exfalso.
    now apply (CollectorFacts.parse_log_files_caught strptime os_walk
                 read_lines (chosen_directory typed) e).
Qed.

Lemma main_uncaught_needs_clock_witness :
  OverflowError = OverflowError
  /\ ~ clock_in_range (Datetime.make 1 1 1 0 0 0).
Proof.
  apply (main_uncaught_needs_clock format_whole (fun _ => true)
           Strict.strptime example_walk example_read
           (fun d => String.eqb d "logs") (Some "logs")
           (Datetime.make 1 1 1 0 0 0) OverflowError).
  reflexivity.
Defined.

(** X17.  A blank answer means the current directory: when the line typed
    has nothing but whitespace, the program runs as if [.] had been typed. *)
Theorem blank_input_is_current_directory
  (format_2f : Q -> string) (write_ok : string -> bool)
  (strptime : string -> string -> option datetime)
  (os_walk : string -> list (string * list string * list string))
  (read_lines : string -> option (list string)) (isdir : string -> bool)
  (now : datetime) (typed : string) :
  all_space typed ->
  main format_2f write_ok strptime os_walk read_lines isdir (Some typed) now
  = main format_2f write_ok strptime os_walk read_lines isdir (Some ".") now.
Proof.
  intros Hblank. unfold main.
  assert (Hdir : chosen_directory typed = chosen_directory ".").
  { unfold chosen_directory, strip at 1 2.
    rewrite (ProgramFacts.lstrip_all_space typed Hblank). reflexivity. }
  now rewrite Hdir.
Qed.

Lemma blank_input_is_current_directory_witness :
  main format_whole (fun _ => true) Strict.strptime example_walk example_read
    (fun d => String.eqb d ".") (Some "   ") example_now
  = main format_whole (fun _ => true) Strict.strptime example_walk
      example_read (fun d => String.eqb d ".") (Some ".") example_now.
Proof.
  apply blank_input_is_current_directory.
  intros c Hc. cbn [Str.has_char] in Hc.
  rewrite orb_false_r, !orb_diag in Hc. apply Ascii.eqb_eq in Hc. now subst c.
Defined.

(** * What the statistics do not depend on *)

Module IndependenceFacts.

Lemma count_entries_perm (P : log_entry -> bool) (es es' : list log_entry) :
  Permutation es es' -> count_entries P es = count_entries P es'.
Proof.
  unfold count_entries.
  induction 1 as [|e es es' _ IH|e1 e2 es|es1 es2 es3 _ IH1 _ IH2];
    cbn [filter].
  - reflexivity.
  - destruct (P e); cbn [List.length]; now rewrite IH.
  - destruct (P e1), (P e2); reflexivity.
  - now rewrite IH1.
Qed.

(** Two lists in a strict order with the same members are equal. *)
Lemma strictly_sorted_unique {A : Type} (R : A -> A -> Prop)
  (l1 l2 : list A) :
  (forall a b, R a b -> R b a -> False) ->
  StronglySorted R l1 -> StronglySorted R l2 ->
  (forall x, In x l1 <-> In x l2) ->
  l1 = l2.
Proof.
  intros Hasym Hs1. revert l2.
  induction Hs1 as [|x1 l1 Hs1 IH Hx1]; intros l2 Hs2 Heq.
  - destruct l2 as [|x2 l2]; [reflexivity|].
    exfalso. apply (proj2 (Heq x2)). now left.
  - destruct Hs2 as [|x2 l2 Hs2 Hx2].
    + exfalso. apply (proj1 (Heq x1)). now left.
    + rewrite Forall_forall in Hx1, Hx2.
      assert (Hx : x1 = x2).
      { destruct (proj1 (Heq x1) (or_introl eq_refl)) as [E|Hin1];
          [now symmetry|].
        destruct (proj2 (Heq x2) (or_introl eq_refl)) as [E|Hin2];
          [exact E|].
        exfalso. apply (Hasym x1 x2); [now apply Hx1 | now apply Hx2]. }
      subst x2. f_equal. apply IH; [exact Hs2|].
      intros y. split; intros Hy.
      * destruct (proj1 (Heq y) (or_intror Hy)) as [E|Hin]; [|exact Hin].
        subst y. exfalso. apply (Hasym x1 x1); now apply Hx1.
      * destruct (proj2 (Heq y) (or_intror Hy)) as [E|Hin]; [|exact Hin].
        subst y. exfalso. apply (Hasym x1 x1); now apply Hx2.
Qed.

Lemma key_lt_asym (a b : string * nat) : key_lt a b -> key_lt b a -> False.
Proof.
  unfold key_lt, String.ltb. rewrite (String.compare_antisym (fst b) (fst a)).
  destruct (String.compare (fst a) (fst b)); discriminate.
Qed.

(** The roll-up does not depend on the order of the entries. *)
Lemma monthly_perm (now : datetime) (es es' : list log_entry) :
  Permutation es es' ->
  sorted (count_months (window_start now) es)
  = sorted (count_months (window_start now) es').
Proof.
  intros Hperm. apply (strictly_sorted_unique key_lt).
  - apply key_lt_asym.
  - apply MonthFacts.monthly_sorted.
  - apply MonthFacts.monthly_sorted.
  - intros [k n]. rewrite !MonthFacts.In_monthly.
    now rewrite (count_entries_perm (in_month now k) es es' Hperm).
Qed.

(** What [generate_statistics] reads of the entries: the lists of their
    routers, of their dates and of their requests. *)
Lemma generate_statistics_reads (es es' : list log_entry) (now : datetime) :
  map router es = map router es' ->
  map date es = map date es' ->
  map request es = map request es' ->
  generate_statistics es now = generate_statistics es' now.
Proof.
  intros Hrouters Hdates Hrequests. unfold generate_statistics.
  rewrite !AggFacts.router_requests_keys, !AggFacts.page_requests_keys.
  unfold counted_routers, counted_requests.
  rewrite !CompareFacts.html_requests_reads, Hrouters, Hrequests.
  destruct (Datetime.sub now (Datetime.timedelta_days (56 * 30)))
    as [start|]; [|reflexivity].
  cbn [bind]. rewrite !CompareFacts.count_months_reads, Hdates.
  rewrite !CompareFacts.popular_hour_reads, Hdates. reflexivity.
Qed.

End IndependenceFacts.

(** X18.  The status code of an entry is never looked at: two lists of
    entries with the same routers, timestamps and requests, whatever their
    status codes, give the same result of the aggregator, in every field. *)
Theorem status_code_is_ignored (es es' : list log_entry) (now : datetime) :
  map router es = map router es' ->
  map date es = map date es' ->
  map request es = map request es' ->
  generate_statistics es now = generate_statistics es' now.
Proof.
  intros Hrouters Hdates Hrequests.
  transitivity
    (generate_statistics
       (map (fun entry => entry_of (router entry) (request entry) (date entry))
          es) now).
  - apply IndependenceFacts.generate_statistics_reads;
      rewrite map_map; apply map_ext; reflexivity.
  - apply IndependenceFacts.generate_statistics_reads; rewrite map_map.
    + rewrite <- Hrouters. apply map_ext. reflexivity.
    + rewrite <- Hdates. apply map_ext. reflexivity.
    + rewrite <- Hrequests. apply map_ext. reflexivity.
Qed.

Lemma status_code_is_ignored_witness :
  generate_statistics
    [{| router := "A"; date := noon; request := "GET /x.html";
        status_code := "404" |}] example_now
  = generate_statistics [entry_of "A" "GET /x.html" noon] example_now.
Proof.
  apply status_code_is_ignored; reflexivity.
Defined.

(** X19.  With the clock in range, the total page-load count, the monthly
    roll-up and the average monthly load do not depend on the order of the
    entries, that is on the order in which the files and their lines were
    read: two lists with the same entries in another order give the same
    three statistics. *)
Theorem order_of_entries_is_ignored (es es' : list log_entry)
  (now : datetime) :
  clock_in_range now -> Permutation es es' ->
  exists st st',
    generate_statistics es now = Ok st
    /\ generate_statistics es' now = Ok st'
    /\ total_html_requests st = total_html_requests st'
    /\ monthly_requests st = monthly_requests st'
    /\ average_page_loads_per_month st = average_page_loads_per_month st'.
Proof.
  intros Hnow Hperm.
  destruct (AggFacts.generate_statistics_value es now Hnow)
    as (average & hour & Havg & _ & Hgs).
  destruct (AggFacts.generate_statistics_value es' now Hnow)
    as (average' & hour' & Havg' & _ & Hgs').
  eexists _, _. split; [exact Hgs|]. split; [exact Hgs'|].
  cbn [total_html_requests monthly_requests average_page_loads_per_month].
  pose proof (IndependenceFacts.monthly_perm now es es' Hperm) as Hmonthly.
  split; [|split; [exact Hmonthly|]].
  - apply (IndependenceFacts.count_entries_perm
             (fun entry => Str.contains ".html" (request entry)) es es' Hperm).
  - rewrite AggFacts.average_of_value in Havg, Havg'.
    injection Havg as <-. injection Havg' as <-.
    pose proof (AverageFacts.sum_sorted (count_months (window_start now) es))
      as Hsum.
    pose proof (AverageFacts.sum_sorted (count_months (window_start now) es'))
      as Hsum'.
    pose proof (AverageFacts.length_sorted
                  (count_months (window_start now) es)) as Hlen.
    pose proof (AverageFacts.length_sorted
                  (count_months (window_start now) es')) as Hlen'.
    rewrite Hmonthly in Hsum, Hlen.
    assert (Es : sum (map snd (count_months (window_start now) es))
                 = sum (map snd (count_months (window_start now) es')))
      by congruence.
    assert (El : List.length (count_months (window_start now) es)
                 = List.length (count_months (window_start now) es'))
      by congruence.
    destruct (count_months (window_start now) es) as [|x m],
      (count_months (window_start now) es') as [|x' m'];
      try discriminate El; [reflexivity|].
    now rewrite Es, El.
Qed.

Lemma order_of_entries_is_ignored_witness :
  clock_in_range example_now
  /\ exists st st',
      generate_statistics month_example example_now = Ok st
      /\ generate_statistics (rev month_example) example_now = Ok st'
      /\ monthly_requests st = monthly_requests st'.
Proof.
  assert (Hnow : clock_in_range example_now) by (vm_compute; split; congruence).
  split; [exact Hnow|].
  destruct (order_of_entries_is_ignored month_example (rev month_example)
              example_now Hnow (Permutation_rev month_example))
    as (st & st' & Hst & Hst' & _ & Hmonthly & _).
  exists st, st'. auto.
Defined.
